(** * VideoTitler: a shallow embedding of the per-item pipeline

    The Python sources under [videotitler/] are embedded module by module:
    [rename.py], the scanner of [gui.py], the two HTTP clients
    ([baidu_ocr.py], [deepseek.py]), the frame extractor ([video.py]),
    [config.py] and the batch worker of [gui.py].

    Conventions.
    - A Python [str] is a list of Unicode code points ([list N]).
    - External collaborators (HTTP, the clock, the ffmpeg subprocess, the
      directory listing) are explicit state or oracles, and every call to
      one of them is recorded in a log, so that statements of the form
      "no request is made" can be read off the log.
    - Exceptions are values of a sum type; a function that can raise
      returns [inl exception] or [inr result]. *)

From Stdlib Require Import ZArith NArith QArith Ascii String DecimalString DecimalZ
  Sorted.
From stdpp Require Import gmap strings list.

Set Default Proof Using "Type".
Open Scope Z_scope.

(* ===================================================================== *)
(** * Python strings *)
(* ===================================================================== *)

Module PyStr.

(** A [str] is its sequence of code points. *)
Definition str := list N.

(** ** Literals: UTF-8 text of the development decoded to code points. *)

Definition cont (b : N) : N := N.land b 63.

Fixpoint utf8_decode (bs : list N) : str :=
  match bs with
  | [] => []
  | b0 :: r0 =>
    if (b0 <? 128)%N then b0 :: utf8_decode r0
    else if (b0 <? 224)%N then
      match r0 with
      | b1 :: r1 =>
          N.lor (N.shiftl (N.land b0 31) 6) (cont b1) :: utf8_decode r1
      | _ => []
      end
    else if (b0 <? 240)%N then
      match r0 with
      | b1 :: b2 :: r2 =>
          N.lor (N.shiftl (N.land b0 15) 12)
                (N.lor (N.shiftl (cont b1) 6) (cont b2)) :: utf8_decode r2
      | _ => []
      end
    else
      match r0 with
      | b1 :: b2 :: b3 :: r3 =>
          N.lor (N.shiftl (N.land b0 7) 18)
                (N.lor (N.shiftl (cont b1) 12)
                       (N.lor (N.shiftl (cont b2) 6) (cont b3))) :: utf8_decode r3
      | _ => []
      end
  end.

Definition ascii_codes (s : string) : list N :=
  map N_of_ascii (list_ascii_of_string s).

(** [u "..."] is the Python string with the given text. *)
Definition u (s : string) : str := utf8_decode (ascii_codes s).

(** ** Character classes *)

(** [str.isspace] on one code point; also what [\s] matches in a [str]
    pattern and what [str.strip()] removes. *)
Definition isspace (c : N) : bool :=
  ((9 <=? c) && (c <=? 13) || (28 <=? c) && (c <=? 32)
   || (c =? 133) || (c =? 160) || (c =? 5760)
   || (8192 <=? c) && (c <=? 8202)
   || (c =? 8232) || (c =? 8233) || (c =? 8239) || (c =? 8287)
   || (c =? 12288))%N.

(** ASCII decimal digits; [str.isdigit] and [int()] are modelled on these
    (names outside ASCII are not treated as digit runs). *)
Definition is_ascii_digit (c : N) : bool := ((48 <=? c) && (c <=? 57))%N.

Definition isdigit (s : str) : bool :=
  match s with
  | [] => false
  | _ => forallb is_ascii_digit s
  end.

(** [str.lower] on the ASCII letters; other code points are kept. *)
Definition lower_char (c : N) : N :=
  if ((65 <=? c) && (c <=? 90))%N then (c + 32)%N else c.

Definition lower (s : str) : str := map lower_char s.

(** ** strip, lstrip, rstrip *)

Fixpoint lstrip_by (p : N -> bool) (s : str) : str :=
  match s with
  | [] => []
  | c :: r => if p c then lstrip_by p r else s
  end.

Definition rstrip_by (p : N -> bool) (s : str) : str :=
  rev (lstrip_by p (rev s)).

Definition strip_by (p : N -> bool) (s : str) : str :=
  rstrip_by p (lstrip_by p s).

Definition strip (s : str) : str := strip_by isspace s.
Definition rstrip (s : str) : str := rstrip_by isspace s.

Definition mem_char (chars : str) (c : N) : bool :=
  existsb (N.eqb c) chars.

(** [s.strip(chars)] *)
Definition strip_chars (chars : str) (s : str) : str :=
  strip_by (mem_char chars) s.

(** [s.rstrip(chars)] *)
Definition rstrip_chars (chars : str) (s : str) : str :=
  rstrip_by (mem_char chars) s.

(** The string of one line feed. *)
Definition newline : str := [10%N].

(** [s.replace(old, new)] for a one-character [old]. *)
Definition replace_char (old : N) (new : str) (s : str) : str :=
  flat_map (fun c => if (c =? old)%N then new else [c]) s.

(** [re.sub(r"\s+", " ", s)]: every maximal whitespace run becomes one
    space. [in_run] tells that the previous character was whitespace. *)
Fixpoint sub_space_runs (in_run : bool) (s : str) : str :=
  match s with
  | [] => []
  | c :: r =>
    if isspace c
    then (if in_run then sub_space_runs true r
          else 32%N :: sub_space_runs true r)
    else c :: sub_space_runs false r
  end.

(** [CLASS.sub(" ", s)] for a one-character class: each match is replaced
    by one space. *)
Definition sub_class_space (cls : N -> bool) (s : str) : str :=
  map (fun c => if cls c then 32%N else c) s.

(** [s[:n]] with Python's convention for a negative bound. *)
Definition slice_to (n : Z) (s : str) : str :=
  if n <? 0 then take (Z.to_nat (Z.of_nat (length s) + n)) s
  else take (Z.to_nat n) s.

(** ** str(int) and zfill *)

Definition str_of_int (z : Z) : str :=
  ascii_codes (NilZero.string_of_int (Z.to_int z)).

Definition is_sign (c : N) : bool := ((c =? 43) || (c =? 45))%N.

(** [s.zfill(width)]: zeros go after a leading sign. *)
Definition zfill (width : Z) (s : str) : str :=
  let fill := Z.to_nat (width - Z.of_nat (length s)) in
  match s with
  | c :: r => if is_sign c then c :: repeat 48%N fill ++ r
              else repeat 48%N fill ++ s
  | [] => repeat 48%N fill
  end.

(** ** splitlines *)

(** The line boundaries of [str.splitlines]. *)
Definition is_linebreak (c : N) : bool :=
  ((10 <=? c) && (c <=? 13) || (28 <=? c) && (c <=? 30)
   || (c =? 133) || (c =? 8232) || (c =? 8233))%N.

(** [cur] is the current line, reversed; a CR LF pair is one boundary;
    no empty line is produced after a final boundary. *)
Fixpoint splitlines_aux (cur : str) (s : str) : list str :=
  match s with
  | [] => match cur with [] => [] | _ => [rev cur] end
  | c :: r =>
    if is_linebreak c then
      match c, r with
      | 13%N, 10%N :: r' => rev cur :: splitlines_aux [] r'
      | _, _ => rev cur :: splitlines_aux [] r
      end
    else splitlines_aux (c :: cur) r
  end.

Definition splitlines (s : str) : list str := splitlines_aux [] s.

End PyStr.

(* ===================================================================== *)
(** * Exceptions and effects *)
(* ===================================================================== *)

Module Eff.
Import PyStr.

(** ** Exceptions *)

Inductive exc_class :=
| VideoFrameError
| BaiduOcrError
| DeepSeekError
| OSError
| RequestException
| ValueError
| TypeError
| AttributeError
| KeyError
| IndexError
| TimeoutExpired.

#[global] Instance exc_class_eq_dec : EqDecision exc_class.
Proof. solve_decision. Defined.

(** An exception object: its class, [str(exc)] and [exc.__cause__] (what
    [raise ... from exc] attaches). *)
#[warnings="-register-all"]
Inductive exception :=
| Exc (cls : exc_class) (msg : str) (cause : option exception).

Definition class_of (e : exception) : exc_class :=
  match e with Exc c _ _ => c end.
Definition str_of_exc (e : exception) : str :=
  match e with Exc _ m _ => m end.
Definition cause_of (e : exception) : option exception :=
  match e with Exc _ _ c => c end.

(** ** State passing with exceptions

    A computation over a state [S] returns the exception it raised or its
    result, and the state it left. *)

Definition M (S A : Type) : Type := S -> (exception + A) * S.

Definition ret {S A} (a : A) : M S A := fun w => (inr a, w).

Definition raise {S A} (e : exception) : M S A := fun w => (inl e, w).

Definition bind {S A B} (m : M S A) (k : A -> M S B) : M S B :=
  fun w => match m w with
           | (inl e, w1) => (inl e, w1)
           | (inr a, w1) => k a w1
           end.

(** Lift a pure computation that can raise. *)
Definition lift {S A} (r : exception + A) : M S A := fun w => (r, w).

(** [try: m except Exception as e: handler(e)] *)
Definition try_except {S A} (m : M S A) (handler : exception -> M S A) : M S A :=
  fun w => match m w with
           | (inl e, w1) => handler e w1
           | (inr a, w1) => (inr a, w1)
           end.

End Eff.

Declare Scope py_scope.
Delimit Scope py_scope with py.
Notation "'let!' x ':=' m 'in' k" := (Eff.bind m (fun x => k))
  (at level 10, x name, m at level 100, k at level 200) : py_scope.

(* ===================================================================== *)
(** * rename.py *)
(* ===================================================================== *)

Module Rename.
Import PyStr Eff.

(** ** Character classes of regular expressions *)

Inductive class_item :=
| Lit (c : N)
| Range (lo hi : N).

Definition item_matches (c : N) (i : class_item) : bool :=
  match i with
  | Lit d => (c =? d)%N
  | Range lo hi => ((lo <=? c) && (c <=? hi))%N
  end.

Definition class_matches (items : list class_item) (c : N) : bool :=
  existsb (item_matches c) items.

(** [_WINDOWS_INVALID_CHARS_RE], compiled from the raw string literal
    [<>:\Q/\\\\|?*\\x00-\\x1F] between square brackets (Q stands for the
    double quote).

    In a raw literal no backslash is consumed by Python, so the
    regular-expression parser reads each pair of backslashes as one literal
    backslash and the class holds, in order: [<], [>], [:], the double
    quote, [/], a backslash (twice), [|], [?], [*], a backslash, the letter
    [x], the digit [0], the range from the digit [0] to the backslash, and
    the letters [x], [1], [F]. *)
Definition _WINDOWS_INVALID_CHARS_RE : list class_item :=
  [ Lit 60; Lit 62; Lit 58; Lit 34; Lit 47; Lit 92; Lit 92;
    Lit 124; Lit 63; Lit 42; Lit 92; Lit 120; Lit 48;
    Range 48 92; Lit 120; Lit 49; Lit 70 ]%N.

(** The keyword defaults of [sanitize_filename_component]. *)
Definition default_fallback : str := u "标题".
Definition default_max_len : Z := 80.

Definition sanitize_filename_component
    (text : str) (fallback : str) (max_len : Z) : str :=
  let cleaned := strip (replace_char 8203 (u " ") text) in
  let cleaned := sub_space_runs false cleaned in
  let cleaned := sub_class_space (class_matches _WINDOWS_INVALID_CHARS_RE) cleaned in
  let cleaned := strip_chars (u " .") cleaned in
  let cleaned := strip cleaned in
  let cleaned := match cleaned with [] => fallback | _ => cleaned end in
  if max_len <? Z.of_nat (length cleaned)
  then rstrip (slice_to max_len cleaned)
  else cleaned.

(** ** Paths

    A [Path] in pathlib's own representation: the anchor (empty for a
    relative path) and the components after it. Comparison is the
    case-sensitive one of a POSIX path. *)
Record Path := mkPath { root : str; tail : list str }.

#[global] Instance Path_eq_dec : EqDecision Path.
Proof. solve_decision. Defined.

#[global] Instance Path_countable : Countable Path.
Proof.
  apply (inj_countable' (fun p => (root p, tail p))
                        (fun t => mkPath (fst t) (snd t))).
  intros [r t]; reflexivity.
Defined.

(** [p.name]: the final component, empty when there is none. *)
Definition name (p : Path) : str := List.last (tail p) [].

(** [p.parent] *)
Definition parent (p : Path) : Path :=
  mkPath (root p) (removelast (tail p)).

(** [s.rfind(".")] *)
Fixpoint rfind_dot (s : str) : option nat :=
  match s with
  | [] => None
  | c :: r =>
    match rfind_dot r with
    | Some i => Some (S i)
    | None => if (c =? 46)%N then Some O else None
    end
  end.

(** The index at which [name] splits into stem and suffix: the last dot,
    unless it is the first or the last character. *)
Definition suffix_index (n : str) : option nat :=
  match rfind_dot n with
  | Some i => if (0 <? i)%nat && (i <? length n - 1)%nat then Some i else None
  | None => None
  end.

(** [p.suffix] *)
Definition suffix (p : Path) : str :=
  match suffix_index (name p) with
  | Some i => drop i (name p)
  | None => []
  end.

(** [p.stem] *)
Definition stem (p : Path) : str :=
  match suffix_index (name p) with
  | Some i => take i (name p)
  | None => name p
  end.

(** [p / component], for a string that is one path component. *)
Definition joinpath (p : Path) (component : str) : Path :=
  mkPath (root p) (tail p ++ [component]).

(** The exceptions of this module. *)
(** [p.with_name(n)]: [ValueError] when [p] has no name, or [n] is empty,
    is a dot, or holds a separator. *)
Definition with_name (p : Path) (n : str) : exception + Path :=
  match name p with
  | [] => inl (Exc ValueError [] None)
  | _ =>
    if bool_decide (n = []) || bool_decide (n = u ".") || mem_char n 47
    then inl (Exc ValueError [] None)
    else inr (joinpath (parent p) n)
  end.

(** [str(p)] *)
Definition str_of_Path (p : Path) : str :=
  match tail p with
  | [] => match root p with [] => u "." | r => r end
  | c :: cs => root p ++ c ++ flat_map (fun d => 47%N :: d) cs
  end.

Definition build_target_path
    (src_path : Path) (index : Z) (index_padding : Z) (title : str)
  : exception + Path :=
  let safe_title :=
    sanitize_filename_component title default_fallback default_max_len in
  let prefix := zfill (Z.max 1 index_padding) (str_of_int index) in
  let filename := prefix ++ u "-" ++ safe_title ++ suffix src_path in
  with_name src_path filename.

(** ** The file system

    [files] are the paths that exist; [stat_log] records every path whose
    existence was asked for and [rename_log] every rename that was carried
    out, oldest first. *)
Record FS := mkFS {
  files : gset Path;
  stat_log : list Path;
  rename_log : list (Path * Path)
}.

(** [p.exists()] *)
Definition exists_ (p : Path) (fs : FS) : bool * FS :=
  (bool_decide (p ∈ files fs),
   mkFS (files fs) (stat_log fs ++ [p]) (rename_log fs)).

(** [parent / f"{stem}_{counter}{suffix}"] *)
Definition candidate (parent_ : Path) (stem_ suffix_ : str) (counter : Z) : Path :=
  joinpath parent_ (stem_ ++ u "_" ++ str_of_int counter ++ suffix_).

(** The first [n] candidates from counter [c] on. *)
Definition candidates (parent_ : Path) (stem_ suffix_ : str) (c : Z) (n : nat)
  : list Path :=
  map (fun i => candidate parent_ stem_ suffix_ (c + Z.of_nat i)) (seq 0 n).

(** The [while True] loop of [pick_non_conflicting_path]; [fuel] bounds the
    number of iterations and [None] means that the bound was reached. *)
Fixpoint pick_loop (fuel : nat) (parent_ : Path) (stem_ suffix_ : str)
    (counter : Z) (fs : FS) : option (Path * FS) :=
  match fuel with
  | O => None
  | S fuel' =>
    let c := candidate parent_ stem_ suffix_ counter in
    let '(found, fs1) := exists_ c fs in
    if negb found then Some (c, fs1)
    else pick_loop fuel' parent_ stem_ suffix_ (counter + 1) fs1
  end.

Definition pick_non_conflicting_path
    (fuel : nat) (target_path : Path) (ignore_path : option Path) (fs : FS)
  : option (Path * FS) :=
  if bool_decide (ignore_path = Some target_path) then Some (target_path, fs)
  else
    let '(found, fs1) := exists_ target_path fs in
    if negb found then Some (target_path, fs1)
    else
      pick_loop fuel (parent target_path) (stem target_path)
                (suffix target_path) 2 fs1.

End Rename.

(* ===================================================================== *)
(** * gui.py: the scanner *)
(* ===================================================================== *)

Module Scan.
Import PyStr Eff Rename.

Definition VIDEO_EXTS : list str :=
  [u ".mp4"; u ".mov"; u ".mkv"; u ".avi"; u ".webm"; u ".m4v"].

(** What the two directory walks yield, already restricted to regular
    files: [root_dir.iterdir()] and [root_dir.rglob("*")]. *)
Record listing := mkListing { iterdir_files : list Path; rglob_files : list Path }.

(** [re.split(PATTERN, name)] for the pattern of [natural_key], the raw
    literal of an opening parenthesis, two backslashes, [d+] and a closing
    parenthesis. The regular-expression parser reads the two backslashes as
    one literal backslash, so a separator is a backslash followed by one or
    more letters [d]; the group makes [re.split] keep each separator.
    [cur] is the piece being read, reversed. *)
Fixpoint re_split_natural (cur : str) (s : str) : list str :=
  match s with
  | [] => [rev cur]
  | c :: r =>
    match r with
    | d :: r' =>
      if ((c =? 92) && (d =? 100))%N
      then
        (fix letters_d (sep : str) (l : str) {struct l} : list str :=
           match l with
           | e :: l' =>
             if (e =? 100)%N then letters_d (e :: sep) l'
             else rev cur :: rev sep :: re_split_natural [] l
           | [] => rev cur :: rev sep :: re_split_natural [] l
           end) [d; c] r'
      else re_split_natural (c :: cur) r
    | [] => re_split_natural (c :: cur) r
    end
  end.

(** [int(part)] on a run of ASCII digits. *)
Definition int_of_digits (s : str) : Z :=
  fold_left (fun acc c => 10 * acc + (Z.of_N c - 48)) s 0.

(** An element of a sort key: an [int] or a [str]. *)
Inductive key_part :=
| KInt (n : Z)
| KStr (s : str).

#[global] Instance key_part_eq_dec : EqDecision key_part.
Proof. solve_decision. Defined.

Definition natural_key (name_ : str) : list key_part :=
  map (fun part => if isdigit part then KInt (int_of_digits part)
                   else KStr (lower part))
      (re_split_natural [] name_).

(** [s < t] on strings: lexicographic on code points. *)
Fixpoint str_lt (s t : str) : bool :=
  match s, t with
  | _, [] => false
  | [], _ :: _ => true
  | c :: s', d :: t' =>
    if (c <? d)%N then true else if (d <? c)%N then false else str_lt s' t'
  end.

Definition part_lt (x y : key_part) : exception + bool :=
  match x, y with
  | KInt m, KInt n => inr (m <? n)
  | KStr s, KStr t => inr (str_lt s t)
  | _, _ => inl (Exc TypeError [] None)
  end.

(** [a < b] on lists: decided at the first position where the elements
    are not equal, else by length. *)
Fixpoint key_lt (a b : list key_part) : exception + bool :=
  match a, b with
  | _, [] => inr false
  | [], _ :: _ => inr true
  | x :: a', y :: b' =>
    if decide (x = y) then key_lt a' b' else part_lt x y
  end.

(** [list.sort(key=...)] is stable: an element is placed after the elements
    that are not greater than it. The model inserts the elements one by one
    from the left; it agrees with Python's sort whenever no comparison
    raises. *)
Fixpoint insert_sorted (x : list key_part * Path)
    (l : list (list key_part * Path))
  : exception + list (list key_part * Path) :=
  match l with
  | [] => inr [x]
  | y :: l' =>
    match key_lt (fst x) (fst y) with
    | inl e => inl e
    | inr true => inr (x :: l)
    | inr false =>
      match insert_sorted x l' with
      | inl e => inl e
      | inr r => inr (y :: r)
      end
    end
  end.

Definition sort_by_key (l : list (list key_part * Path))
  : exception + list (list key_part * Path) :=
  fold_left (fun acc x => match acc with
                          | inl e => inl e
                          | inr sorted => insert_sorted x sorted
                          end) l (inr []).

Definition _scan_videos (dir : listing) (include_subdirs : bool)
  : exception + list Path :=
  let candidates := if include_subdirs then rglob_files dir
                    else iterdir_files dir in
  let videos :=
    List.filter (fun p => bool_decide (lower (suffix p) ∈ VIDEO_EXTS))
                candidates in
  match sort_by_key (map (fun p => (natural_key (name p), p)) videos) with
  | inl e => inl e
  | inr sorted => inr (map snd sorted)
  end.

End Scan.

(* ===================================================================== *)
(** * JSON values and the HTTP environment *)
(* ===================================================================== *)

Module Http.
Import PyStr Eff.

(** ** JSON values, as [response.json()] returns them

    [JNum] is an [int]; [JFloat num den] is a [float] that is not an
    integer written as a fraction. An object is its list of entries. *)
#[warnings="-register-all"]
Inductive json :=
| JNull
| JBool (b : bool)
| JNum (n : Z)
| JFloat (num : Z) (den : positive)
| JStr (s : str)
| JArr (items : list json)
| JObj (fields : list (str * json)).

(** Truth value of a Python object. *)
Definition truthy (j : json) : bool :=
  match j with
  | JNull => false
  | JBool b => b
  | JNum n => negb (n =? 0)
  | JFloat n _ => negb (n =? 0)
  | JStr s => match s with [] => false | _ => true end
  | JArr l => match l with [] => false | _ => true end
  | JObj f => match f with [] => false | _ => true end
  end.

Fixpoint assoc (k : str) (fields : list (str * json)) : option json :=
  match fields with
  | [] => None
  | (k', v) :: r => if bool_decide (k = k') then Some v else assoc k r
  end.

(** ** Requests and the world *)

(** The arguments of [requests.post]. *)
Record request := mkRequest {
  req_url : str;
  req_params : list (str * json);
  req_data : list (str * json);
  req_headers : list (str * str);
  req_json : option json;
  req_timeout : Z
}.

(** What one attempt (the [post], [raise_for_status] and [json] calls of a
    [try] body) comes to: an exception, or the decoded payload. An
    exception that is an instance of several classes carries the class of
    the first [except] clause that catches it. *)
Inductive outcome :=
| Raises (e : exception)
| Returns (payload : json).

Inductive effect :=
| Post (r : request) (o : outcome)
| Sleep (seconds : Z).

(** The world of a client object.
    - [now]: what [time.time()] returns; [time.sleep] advances it;
    - [net k r]: the outcome of request [r] when it is the [k]-th request
      since the world began, [posts] being the number of requests so far;
    - [log]: every request with its outcome and every sleep, oldest first;
    - [self]: the mutable attributes of the client object. *)
Record world (C : Type) := mkWorld {
  now : Q;
  net : nat -> request -> outcome;
  posts : nat;
  log : list effect;
  self : C
}.
Arguments mkWorld {C}.
Arguments now {C}.
Arguments net {C}.
Arguments posts {C}.
Arguments log {C}.
Arguments self {C}.

(** A client computation passes the world along. *)
Abbreviation Client C := (Eff.M (world C)).

(** [time.time()] *)
Definition time {C} : Client C Q%type := fun w => (inr (now w), w).

(** [time.sleep(seconds)] *)
Definition sleep {C} (seconds : Z) : Client C unit :=
  fun w => (inr tt,
            mkWorld (now w + inject_Z seconds)%Q (net w) (posts w)
                    (log w ++ [Sleep seconds]) (self w)).

(** One attempt: [requests.post(...)], [raise_for_status()], [json()]. *)
Definition post {C} (r : request) : Client C outcome :=
  fun w => let o := net w (posts w) r in
           (inr o, mkWorld (now w) (net w) (S (posts w))
                           (log w ++ [Post r o]) (self w)).

Definition get_self {C} : Client C C := fun w => (inr (self w), w).

Definition set_self {C} (c : C) : Client C unit :=
  fun w => (inr tt, mkWorld (now w) (net w) (posts w) (log w) c).

End Http.


Module Retry.
Import PyStr Eff Http.
Local Open Scope py_scope.

(** The retry loop that [_get_access_token], [recognize] and
    [extract_title_sentence] each spell out:
<<
    last_exc = None
    for attempt in range(retries):
        try:
            response = requests.post(...); response.raise_for_status()
            payload = response.json()
            break
        except requests.RequestException as exc:
            last_exc = exc
            if attempt + 1 >= retries:
                raise DomainError(f"{transport_msg}{exc}") from exc
            time.sleep(1.0 * (2**attempt))
        except ValueError as exc:
            raise DomainError(json_msg) from exc
    else:
        raise DomainError(f"{exhausted_msg}{last_exc}")
>>
    The three copies differ in the request, the class of the domain error
    and the three messages. The loop is entered as
    [retry_loop (Z.to_nat retries) 0 None]: [remaining] counts the
    iterations of [range(retries)] that are left; an exception of another
    class leaves the loop uncaught. Sleeps are whole seconds. *)
Section Loop.
Context {C : Type}.
Variable req : request.
Variable retries : Z.
Variable domain : exc_class.
Variables transport_msg json_msg exhausted_msg : str.

(** [f"{last_exc}"] *)
Definition str_of_last (last_exc : option exception) : str :=
  match last_exc with
  | Some e => str_of_exc e
  | None => u "None"
  end.

Fixpoint retry_loop (remaining : nat) (attempt : Z)
    (last_exc : option exception) : Client C json :=
  match remaining with
  | O => raise (Exc domain (exhausted_msg ++ str_of_last last_exc) None)
  | S remaining' =>
    let! o := post req in
    match o with
    | Returns payload => ret payload
    | Raises exc =>
      match class_of exc with
      | RequestException =>
        if retries <=? attempt + 1
        then raise (Exc domain (transport_msg ++ str_of_exc exc) (Some exc))
        else let! _ := sleep (2 ^ attempt) in
             retry_loop remaining' (attempt + 1) (Some exc)
      | ValueError => raise (Exc domain json_msg (Some exc))
      | _ => raise exc
      end
    end
  end.

End Loop.

(** ** Vocabulary for statements about the loop *)

(** The log of attempts that fail with the exceptions [excs], the first
    one being attempt number [attempt], each followed by its sleep. *)
Fixpoint failed_attempts (req : request) (excs : list exception) (attempt : Z)
  : list effect :=
  match excs with
  | [] => []
  | e :: r =>
    Post req (Raises e) :: Sleep (2 ^ attempt)
      :: failed_attempts req r (attempt + 1)
  end.

(** The sleeps of a log, in order. *)
Definition sleeps_of (l : list effect) : list Z :=
  flat_map (fun e => match e with Sleep s_ => [s_] | Post _ _ => [] end) l.

(** The requests of a log, in order. *)
Definition posts_of (l : list effect) : list (request * outcome) :=
  flat_map (fun e => match e with Post r o => [(r, o)] | Sleep _ => [] end) l.

(** The clock after the sleeps of a log. *)
Definition clock_after (t : Q) (l : list effect) : Q :=
  fold_left (fun t e => match e with
                        | Sleep s_ => (t + inject_Z s_)%Q
                        | Post _ _ => t
                        end) l t.

(** The world after the effects [ext] have happened in [w]. *)
Definition after {C} (w : world C) (ext : list effect) : world C :=
  mkWorld (clock_after (now w) ext) (net w)
          (posts w + length (posts_of ext)) (log w ++ ext) (self w).

(** The world [w] with the attributes [c] for the client object. *)
Definition with_self {C} (w : world C) (c : C) : world C :=
  mkWorld (now w) (net w) (posts w) (log w) c.

(** From [w] on, the next requests [req] fail with the exceptions [excs],
    each one a [RequestException]. *)
Definition fails_with {C} (w : world C) (req : request)
    (excs : list exception) : Prop :=
  forall i e, excs !! i = Some e ->
    net w (posts w + i)%nat req = Raises e /\ class_of e = RequestException.

(** The request after them succeeds with [payload]. *)
Definition then_returns {C} (w : world C) (req : request)
    (excs : list exception) (payload : json) : Prop :=
  net w (posts w + length excs)%nat req = Returns payload.

(** An entry of the log of a loop that has not succeeded yet: a failed
    request [req], or a sleep. *)
Definition failed_or_sleep (req : request) (e : effect) : Prop :=
  match e with
  | Post r (Raises _) => r = req
  | Post _ (Returns _) => False
  | Sleep _ => True
  end.

(** An entry of the log of a loop: a request [req], or a sleep. *)
Definition request_or_sleep (req : request) (e : effect) : Prop :=
  match e with
  | Post r _ => r = req
  | Sleep _ => True
  end.

(** 1, 2, 4, ...: [n] delays. *)
Definition backoff (n : nat) : list Z :=
  map (fun i => 2 ^ Z.of_nat i) (seq 0 n).

End Retry.

(* ===================================================================== *)
(** * Operations of Python objects on JSON values *)
(* ===================================================================== *)

Module PyObj.
Import PyStr Eff Http.

Definition bytes := list N.

(** [obj.get(key, default)]: only a [dict] has the method. *)
Definition py_get (obj : json) (key : str) (default : json) : exception + json :=
  match obj with
  | JObj fields =>
    inr (match assoc key fields with Some v => v | None => default end)
  | _ => inl (Exc AttributeError [] None)
  end.

Fixpoint is_prefix (p s : str) : bool :=
  match p, s with
  | [], _ => true
  | _ :: _, [] => false
  | c :: p', d :: s' => (c =? d)%N && is_prefix p' s'
  end.

Fixpoint is_substring (p s : str) : bool :=
  is_prefix p s || match s with [] => false | _ :: s' => is_substring p s' end.

Definition is_str (key : str) (j : json) : bool :=
  match j with JStr s => bool_decide (s = key) | _ => false end.

(** [key in obj] for a string [key]. *)
Definition py_contains (key : str) (obj : json) : exception + bool :=
  match obj with
  | JObj fields => inr (match assoc key fields with Some _ => true | None => false end)
  | JArr items => inr (existsb (is_str key) items)
  | JStr s => inr (is_substring key s)
  | _ => inl (Exc TypeError [] None)
  end.

(** What [for item in obj] goes through. *)
Definition py_iter (obj : json) : exception + list json :=
  match obj with
  | JArr items => inr items
  | JObj fields => inr (map (fun kv => JStr (fst kv)) fields)
  | JStr s => inr (map (fun c => JStr [c]) s)
  | _ => inl (Exc TypeError [] None)
  end.

(** [sep.join(items)]: every item must be a [str]. *)
Fixpoint py_join (sep : str) (items : list json) : exception + str :=
  match items with
  | [] => inr []
  | x :: r =>
    match x with
    | JStr s =>
      match r with
      | [] => inr s
      | _ :: _ =>
        match py_join sep r with
        | inl e => inl e
        | inr t => inr (s ++ sep ++ t)
        end
      end
    | _ => inl (Exc TypeError [] None)
    end
  end.

End PyObj.

(* ===================================================================== *)
(** * baidu_ocr.py *)
(* ===================================================================== *)

Module BaiduOcr.
Import PyStr Eff Http Retry PyObj.
Local Open Scope py_scope.

Definition _OCR_GENERAL_BASIC_URL : str :=
  u "https://aip.baidubce.com/rest/2.0/ocr/v1/general_basic".
Definition _OCR_ACCURATE_BASIC_URL : str :=
  u "https://aip.baidubce.com/rest/2.0/ocr/v1/accurate_basic".
Definition token_url : str := u "https://aip.baidubce.com/oauth/2.0/token".

(** [_TokenCache]; the attribute [token] holds whatever object the service
    sent as [access_token]. *)
Record _TokenCache := mkTokenCache { token : json; expires_at_epoch : Q }.

(** The attributes of a [BaiduOcrClient] that never change after
    [__init__]; its [_token_cache] is the [self] of the world. *)
Record BaiduOcrClient := mkClient {
  _api_key : str;
  _secret_key : str;
  _timeout_s : Z;
  _retries : Z
}.

Definition __init__ (api_key secret_key : str) (timeout_s retries : Z)
  : BaiduOcrClient * _TokenCache :=
  (mkClient (strip api_key) (strip secret_key)
            (Z.max 5 timeout_s) (Z.max 1 retries),
   mkTokenCache (JStr []) 0%Q).

(** [a < b] on the clock. *)
Definition Qltb (a b : Q) : bool := negb (Qle_bool b a).

Section Client.

(** Library functions that the client calls and that are left abstract:
    [repr] of a payload, [int] of a string ([None] when it raises
    [ValueError]), [base64.b64encode(...).decode("ascii")], and the whole
    Pillow block of [_maybe_compress_image_for_ocr] ([None] when Pillow is
    missing or raises). *)
Variable repr_json : json -> str.
Variable int_of_str : str -> option Z.
Variable b64encode : bytes -> str.
Variable pil_to_jpeg : bytes -> option bytes.

(** [int(obj)] *)
Definition py_int (obj : json) : exception + Z :=
  match obj with
  | JNum n => inr n
  | JBool b => inr (if b then 1 else 0)
  | JFloat n d => inr (Z.quot n (Z.pos d))
  | JStr s => match int_of_str s with
              | Some n => inr n
              | None => inl (Exc ValueError [] None)
              end
  | _ => inl (Exc TypeError [] None)
  end.

Definition _maybe_compress_image_for_ocr (image_bytes : bytes) : bytes :=
  if Z.of_nat (length image_bytes) <=? 2000000 then image_bytes
  else
    match pil_to_jpeg image_bytes with
    | None => image_bytes
    | Some jpeg_bytes =>
      if negb (bool_decide (jpeg_bytes = []))
         && (length jpeg_bytes <? length image_bytes)%nat
      then jpeg_bytes
      else image_bytes
    end.

Definition token_request (self_ : BaiduOcrClient) : request :=
  mkRequest token_url []
    [ (u "grant_type", JStr (u "client_credentials"));
      (u "client_id", JStr (_api_key self_));
      (u "client_secret", JStr (_secret_key self_)) ]
    [] None (_timeout_s self_).

Definition _get_access_token (self_ : BaiduOcrClient) : Client _TokenCache json :=
  let! now_ := time in
  let! cache := get_self in
  if truthy (token cache) && Qltb now_ (expires_at_epoch cache)
  then ret (token cache)
  else
    if bool_decide (_api_key self_ = []) || bool_decide (_secret_key self_ = [])
    then raise (Exc BaiduOcrError (u "缺少百度 OCR 的 API Key / Secret Key。") None)
    else
      let! payload :=
        retry_loop (token_request self_) (_retries self_) BaiduOcrError
          (u "获取 access_token 失败（网络超时/连接）：")
          (u "获取 access_token 失败：返回不是 JSON。")
          (u "获取 access_token 失败：")
          (Z.to_nat (_retries self_)) 0 None in
      let! token_ := lift (py_get payload (u "access_token") JNull) in
      let! ttl := lift (py_get payload (u "expires_in") (JNum 0)) in
      let! expires_in := lift (py_int ttl) in
      if negb (truthy token_)
      then raise (Exc BaiduOcrError
                      (u "获取 access_token 失败：" ++ repr_json payload) None)
      else
        let! _ := set_self
          (mkTokenCache token_
             (now_ + inject_Z (Z.max 0 (expires_in - 60)))%Q) in
        ret token_.

Definition ocr_request (self_ : BaiduOcrClient) (url : str) (token_ : json)
    (image_b64 language_type : str) (detect_direction : bool) : request :=
  mkRequest url
    [ (u "access_token", token_) ]
    [ (u "image", JStr image_b64);
      (u "language_type", JStr language_type);
      (u "detect_direction",
       JStr (if detect_direction then u "true" else u "false")) ]
    [ (u "Content-Type", u "application/x-www-form-urlencoded") ]
    None (_timeout_s self_).

(** The loop over [words_result]: [words] is the list built so far. *)
Fixpoint collect_words (items : list json) (words : list json)
  : exception + list json :=
  match items with
  | [] => inr words
  | item :: r =>
    match py_get (if truthy item then item else JObj []) (u "words") (JStr []) with
    | inl e => inl e
    | inr value =>
      collect_words r (if truthy value then words ++ [value] else words)
    end
  end.

(** [recognize] after its loop: the check of [error_code] and the
    collection of the words. Nothing here touches the world. *)
Definition read_ocr_payload (payload : json) : exception + str :=
  match py_contains (u "error_code") payload with
  | inl e => inl e
  | inr true =>
    inl (Exc BaiduOcrError (u "OCR 失败：" ++ repr_json payload) None)
  | inr false =>
    match py_get payload (u "words_result") (JArr []) with
    | inl e => inl e
    | inr words_result =>
      match (if truthy words_result then py_iter words_result else inr []) with
      | inl e => inl e
      | inr items =>
        match collect_words items [] with
        | inl e => inl e
        | inr words =>
          match py_join newline words with
          | inl e => inl e
          | inr text => inr (strip text)
          end
        end
      end
    end
  end.

(** The URL of an endpoint name. *)
Definition endpoint_url (endpoint : str) : exception + str :=
  let endpoint :=
    lower (strip (match endpoint with [] => u "accurate_basic" | _ => endpoint end)) in
  if bool_decide (endpoint = u "accurate_basic") then inr _OCR_ACCURATE_BASIC_URL
  else if bool_decide (endpoint = u "general_basic") then inr _OCR_GENERAL_BASIC_URL
  else inl (Exc BaiduOcrError (u "未知 OCR endpoint：" ++ endpoint) None).

(** [recognize] from the line after [token = self._get_access_token()]. *)
Definition recognize_with_token (self_ : BaiduOcrClient) (token_ : json)
    (image_bytes : bytes) (endpoint language_type : str)
    (detect_direction : bool) : Client _TokenCache str :=
  let! url := lift (endpoint_url endpoint) in
  let image_bytes := _maybe_compress_image_for_ocr image_bytes in
  let image_b64 := b64encode image_bytes in
  let! payload :=
    retry_loop
      (ocr_request self_ url token_ image_b64 language_type detect_direction)
      (_retries self_) BaiduOcrError
      (u "OCR 请求失败（网络超时/连接）：")
      (u "OCR 失败：返回不是 JSON。")
      (u "OCR 请求失败：")
      (Z.to_nat (_retries self_)) 0 None in
  lift (read_ocr_payload payload).

Definition recognize (self_ : BaiduOcrClient) (image_bytes : bytes)
    (endpoint language_type : str) (detect_direction : bool)
  : Client _TokenCache str :=
  let! token_ := _get_access_token self_ in
  recognize_with_token self_ token_ image_bytes endpoint language_type
    detect_direction.

(** An entry of the log of the recognition loop: a request to one of the
    two OCR endpoints that carries [token_], or a sleep. *)
Definition ocr_post_or_sleep (token_ : json) (e : effect) : Prop :=
  match e with
  | Post r _ =>
    (req_url r = _OCR_ACCURATE_BASIC_URL \/ req_url r = _OCR_GENERAL_BASIC_URL)
    /\ req_params r = [ (u "access_token", token_) ]
  | Sleep _ => True
  end.

(** The requests of a log that went to the token URL. *)
Definition token_posts (l : list effect) : list (request * outcome) :=
  List.filter (fun ro => bool_decide (req_url (fst ro) = token_url))
              (posts_of l).

(** The cached token is still good at the time of [w]. *)
Definition cache_valid (w : world _TokenCache) : bool :=
  truthy (token (self w)) && Qltb (now w) (expires_at_epoch (self w)).

(** [general_basic] and [accurate_basic] fix the endpoint. *)
Definition general_basic self_ image_bytes language_type detect_direction :=
  recognize self_ image_bytes (u "general_basic") language_type detect_direction.

Definition accurate_basic self_ image_bytes language_type detect_direction :=
  recognize self_ image_bytes (u "accurate_basic") language_type detect_direction.

End Client.
End BaiduOcr.

(* ===================================================================== *)
(** * deepseek.py *)
(* ===================================================================== *)

Module DeepSeek.
Import PyStr Eff Http Retry PyObj.
Local Open Scope py_scope.

Definition _first_non_empty_line (text : str) : str :=
  match List.filter (fun l => negb (bool_decide (l = [])))
                    (map strip (splitlines text)) with
  | stripped :: _ => stripped
  | [] => []
  end.

(** The class of the first clean-up pattern: the straight double quote,
    the two curly double quotes, the apostrophe and whitespace. *)
Definition quote_or_space (c : N) : bool :=
  ((c =? 34) || (c =? 8220) || (c =? 8221) || (c =? 39))%N || isspace c.

(** [re.sub(LEADING_OR_TRAILING, "", title)] where the pattern is a run of
    the class anchored at the start, or a run of the class anchored at the
    end: both runs are deleted. *)
Definition strip_quotes (title : str) : str := strip_by quote_or_space title.

(** The class after the label: the colon, the full-width colon and
    whitespace. *)
Definition colon_or_space (c : N) : bool :=
  ((c =? 58) || (c =? 65306))%N || isspace c.

(** One pattern character against one text character under
    [re.IGNORECASE]: the cases of an ASCII letter, and for the letter i
    also the dotted capital and the dotless small i. *)
Definition ci_match (pat c : N) : bool :=
  (lower_char c =? lower_char pat)%N
  || ((lower_char pat =? 105) && ((c =? 304) || (c =? 305)))%N.

(** [s] with the literal [pat] removed from its start, if it is there. *)
Fixpoint ci_strip_prefix (pat s : str) : option str :=
  match pat, s with
  | [], _ => Some s
  | _ :: _, [] => None
  | p :: pat', c :: s' => if ci_match p c then ci_strip_prefix pat' s' else None
  end.

(** [re.sub(LABEL, "", title, flags=re.IGNORECASE)] where the pattern is,
    anchored at the start, one of the two labels followed by one or more
    characters of [colon_or_space]. *)
Definition strip_label (title : str) : str :=
  let after_label :=
    match ci_strip_prefix (u "标题") title with
    | Some r => Some r
    | None => ci_strip_prefix (u "title") title
    end in
  match after_label with
  | Some (c :: r) =>
    if colon_or_space c then lstrip_by colon_or_space r else title
  | _ => title
  end.

(** The clean-up at the end of [extract_title_sentence]. *)
Definition clean_title (content : str) : str :=
  let title := _first_non_empty_line content in
  let title := strip (strip_quotes title) in
  strip (strip_label title).

(** [payload["choices"][0]["message"]["content"]] *)
Definition subscript_key (obj : json) (key : str) : exception + json :=
  match obj with
  | JObj fields =>
    match assoc key fields with
    | Some v => inr v
    | None => inl (Exc KeyError key None)
    end
  | _ => inl (Exc TypeError [] None)
  end.

Definition subscript_0 (obj : json) : exception + json :=
  match obj with
  | JArr (x :: _) => inr x
  | JArr [] => inl (Exc IndexError [] None)
  | JStr (c :: _) => inr (JStr [c])
  | JStr [] => inl (Exc IndexError [] None)
  | JObj fields => inl (Exc KeyError [] None)
  | _ => inl (Exc TypeError [] None)
  end.

Definition content_of (payload : json) : exception + json :=
  match subscript_key payload (u "choices") with
  | inl e => inl e
  | inr choices =>
    match subscript_0 choices with
    | inl e => inl e
    | inr choice =>
      match subscript_key choice (u "message") with
      | inl e => inl e
      | inr message => subscript_key message (u "content")
      end
    end
  end.

Definition default_base_url : str := u "https://api.deepseek.com/v1".

Section Client.
Context {C : Type}.

(** Left abstract: [repr] of a payload and
    [user_prompt_template.format(ocr_text=ocr_text)] ([None] when it
    raises). *)
Variable repr_json : json -> str.
Variable str_format : str -> str -> option str.

Definition chat_request (url api_key model system_prompt user_prompt : str)
    (timeout_s : Z) : request :=
  mkRequest url [] []
    [ (u "Authorization", u "Bearer " ++ api_key);
      (u "Content-Type", u "application/json") ]
    (Some (JObj
      [ (u "model", JStr (match model with [] => u "deepseek-chat" | _ => model end));
        (u "messages",
         JArr [ JObj [ (u "role", JStr (u "system"));
                       (u "content", JStr system_prompt) ];
                JObj [ (u "role", JStr (u "user"));
                       (u "content", JStr user_prompt) ] ]);
        (u "temperature", JFloat 1 5);
        (u "max_tokens", JNum 80) ]))
    timeout_s.

(** The URL of the request, from the [base_url] argument. *)
Definition chat_url (base_url : str) : str :=
  let base_url := rstrip_chars (u "/") (strip base_url) in
  let base_url := match base_url with [] => default_base_url | _ => base_url end in
  base_url ++ u "/chat/completions".

(** The user message, from the stripped template: the formatted template,
    or the template followed by the OCR text when formatting raises. *)
Definition user_prompt_of (user_prompt_template ocr_text : str) : str :=
  match str_format user_prompt_template ocr_text with
  | Some p => p
  | None => rstrip user_prompt_template ++ newline ++ newline
            ++ u "OCR 文本：" ++ newline ++ ocr_text
  end.

(** The request that [extract_title_sentence] sends for its arguments. *)
Definition title_request
    (api_key base_url model ocr_text system_prompt user_prompt_template : str)
    (timeout_s : Z) : request :=
  chat_request (chat_url base_url) (strip api_key) model (strip system_prompt)
    (user_prompt_of (strip user_prompt_template) ocr_text) timeout_s.

Definition extract_title_sentence
    (api_key base_url model ocr_text system_prompt user_prompt_template : str)
    (timeout_s retries : Z) : Client C str :=
  let api_key := strip api_key in
  if bool_decide (api_key = [])
  then raise (Exc DeepSeekError (u "缺少 DeepSeek API Key。") None)
  else if bool_decide (strip ocr_text = [])
  then raise (Exc DeepSeekError (u "OCR 文本为空。") None)
  else
    let url := chat_url base_url in
    let system_prompt := strip system_prompt in
    let user_prompt_template := strip user_prompt_template in
    if bool_decide (system_prompt = [])
    then raise (Exc DeepSeekError (u "DeepSeek system prompt 为空。") None)
    else if bool_decide (user_prompt_template = [])
    then raise (Exc DeepSeekError (u "DeepSeek user prompt 模板为空。") None)
    else
      let user_prompt := user_prompt_of user_prompt_template ocr_text in
      let retries := Z.max 1 retries in
      let! payload :=
        retry_loop
          (chat_request url api_key model system_prompt user_prompt timeout_s)
          retries DeepSeekError
          (u "DeepSeek 请求失败（网络超时/连接）：")
          (u "DeepSeek 返回不是 JSON。")
          (u "DeepSeek 请求失败：")
          (Z.to_nat retries) 0 None in
      match content_of payload with
      | inl exc =>
        raise (Exc DeepSeekError
                   (u "DeepSeek 返回格式异常：" ++ repr_json payload) (Some exc))
      | inr content =>
        match content with
        | JStr text => ret (clean_title text)
        | _ => if truthy content then raise (Exc AttributeError [] None)
               else ret (clean_title [])
        end
      end.

End Client.
End DeepSeek.

(* ===================================================================== *)
(** * video.py *)
(* ===================================================================== *)

Module Video.
Import PyStr Eff PyObj Rename.
Local Open Scope py_scope.

(** What [subprocess.run(args, check=False, capture_output=True,
    timeout=60)] comes to. *)
Inductive proc_outcome :=
| TimedOut
| Completed (returncode : Z) (stdout stderr : bytes).

(** The processes of the machine.
    - [which cmd]: [shutil.which(cmd)];
    - [run k args]: the outcome of the [k]-th subprocess of the world;
    - [runs]: the argument lists of the subprocesses run so far. *)
Record world := mkWorld {
  which : str -> option str;
  run : nat -> list str -> proc_outcome;
  runs : list (list str)
}.

Definition subprocess_run (args : list str) : M world proc_outcome :=
  fun w => (inr (run w (length (runs w)) args),
            mkWorld (which w) (run w) (runs w ++ [args])).

Definition _safe_which (cmd : str) : M world (option str) :=
  fun w => (inr (which w cmd), w).

Section Extract.

(** Left abstract: the decoded image, [Image.open] followed by [load] on
    the bytes, and [bytes.decode("utf-8", errors="replace")]. *)
Variable image : Type.
Variable pil_open : bytes -> exception + image.
Variable decode_utf8_replace : bytes -> str.

(** The local function [run_extract]. *)
Definition run_extract (args : list str) : M world bytes :=
  let! proc := subprocess_run args in
  match proc with
  | TimedOut =>
    raise (Exc VideoFrameError (u "ffmpeg 抽帧超时。")
               (Some (Exc TimeoutExpired [] None)))
  | Completed returncode stdout stderr =>
    if negb (returncode =? 0)
    then
      let stderr := strip (decode_utf8_replace stderr) in
      raise (Exc VideoFrameError
                 (u "ffmpeg 抽帧失败：" ++
                  match stderr with [] => u "未知错误" | _ => stderr end) None)
    else ret stdout
  end.

(** The argument list of the primary attempt. *)
Definition select_args (ffmpeg : str) (video_path : Path) (frame_index : Z)
  : list str :=
  [ ffmpeg; u "-hide_banner"; u "-loglevel"; u "error"; u "-nostdin";
    u "-i"; str_of_Path video_path; u "-map"; u "0:v:0"; u "-vf";
    u "select=eq(n\," ++ str_of_int frame_index ++ u ")";
    u "-frames:v"; u "1"; u "-f"; u "image2pipe"; u "-vcodec"; u "png";
    u "pipe:1" ].

(** The argument list of the fallback: seek to 0.1 s before the end. *)
Definition last_frame_args (ffmpeg : str) (video_path : Path) : list str :=
  [ ffmpeg; u "-hide_banner"; u "-loglevel"; u "error"; u "-nostdin";
    u "-sseof"; u "-0.1"; u "-i"; str_of_Path video_path; u "-map";
    u "0:v:0"; u "-frames:v"; u "1"; u "-f"; u "image2pipe"; u "-vcodec";
    u "png"; u "pipe:1" ].

(** The message of the error raised when both attempts gave no bytes. *)
Definition read_failed_msg (video_path : Path) (frame_number_1based : Z) : str :=
  u "读取帧失败：" ++ str_of_Path video_path ++ u " (frame="
    ++ str_of_int frame_number_1based ++ u ")".

Definition decode_failed_msg : str := u "PNG 解码失败（ffmpeg 输出异常）。".

Definition truthy_str (o : option str) : bool :=
  match o with Some (_ :: _) => true | _ => false end.

(** [_safe_which("ffmpeg") or _safe_which("ffmpeg.exe")] *)
Definition find_ffmpeg : M world (option str) :=
  let! found := _safe_which (u "ffmpeg") in
  if truthy_str found then ret found else _safe_which (u "ffmpeg.exe").

Definition extract_frame_as_png_bytes
    (video_path : Path) (frame_number_1based : Z) : M world (bytes * image) :=
  if frame_number_1based <? 1
  then raise (Exc VideoFrameError (u "帧序号必须是 >= 1 的整数。") None)
  else
    let! ffmpeg := find_ffmpeg in
    match ffmpeg with
    | Some (c :: r) =>
      let ffmpeg := c :: r in
      let frame_index := frame_number_1based - 1 in
      let! png_bytes := run_extract (select_args ffmpeg video_path frame_index) in
      let! png_bytes :=
        match png_bytes with
        | [] =>
          let! png_bytes := run_extract (last_frame_args ffmpeg video_path) in
          match png_bytes with
          | [] => raise (Exc VideoFrameError
                             (read_failed_msg video_path frame_number_1based) None)
          | _ => ret png_bytes
          end
        | _ => ret png_bytes
        end in
      match pil_open png_bytes with
      | inl exc => raise (Exc VideoFrameError decode_failed_msg (Some exc))
      | inr image_ => ret (png_bytes, image_)
      end
    | _ =>
      raise (Exc VideoFrameError
                 (u "未找到 ffmpeg：请先安装 ffmpeg 并加入 PATH。") None)
    end.

(** What the call comes to once the primary attempt gave no bytes, by the
    outcome of the fallback process. *)
Definition after_fallback (video_path : Path) (frame_number_1based : Z)
    (fallback : proc_outcome) : exception + (bytes * image) :=
  match fallback with
  | TimedOut =>
    inl (Exc VideoFrameError (u "ffmpeg 抽帧超时。")
             (Some (Exc TimeoutExpired [] None)))
  | Completed returncode stdout stderr =>
    if negb (returncode =? 0)
    then
      let stderr := strip (decode_utf8_replace stderr) in
      inl (Exc VideoFrameError
               (u "ffmpeg 抽帧失败：" ++
                match stderr with [] => u "未知错误" | _ => stderr end) None)
    else
      match stdout with
      | [] => inl (Exc VideoFrameError
                       (read_failed_msg video_path frame_number_1based) None)
      | _ =>
        match pil_open stdout with
        | inl exc => inl (Exc VideoFrameError decode_failed_msg (Some exc))
        | inr image_ => inr (stdout, image_)
        end
      end
  end.

End Extract.
End Video.

(* ===================================================================== *)
(** * config.py *)
(* ===================================================================== *)

Module Config.
Import PyStr Eff Http Rename.
Local Open Scope py_scope.

(** The dataclass [AppConfig], each field at its declared type. *)
Record AppConfig := mkAppConfig {
  input_dir : str;
  include_subdirs : bool;
  frame_number_1based : Z;
  start_index : Z;
  index_padding : Z;
  dry_run : bool;
  baidu_api_key : str;
  baidu_secret_key : str;
  baidu_ocr_mode : str;
  deepseek_api_key : str;
  deepseek_base_url : str;
  deepseek_model : str;
  deepseek_system_prompt : str;
  deepseek_user_prompt_template : str;
  save_keys_locally : bool;
  recent_dirs : list str
}.

(** [asdict(config)]: a new dictionary from field names to copies of the
    values. *)
Definition asdict (config : AppConfig) : gmap string json :=
  <[ "input_dir"%string := JStr (input_dir config) ]> (
  <[ "include_subdirs"%string := JBool (include_subdirs config) ]> (
  <[ "frame_number_1based"%string := JNum (frame_number_1based config) ]> (
  <[ "start_index"%string := JNum (start_index config) ]> (
  <[ "index_padding"%string := JNum (index_padding config) ]> (
  <[ "dry_run"%string := JBool (dry_run config) ]> (
  <[ "baidu_api_key"%string := JStr (baidu_api_key config) ]> (
  <[ "baidu_secret_key"%string := JStr (baidu_secret_key config) ]> (
  <[ "baidu_ocr_mode"%string := JStr (baidu_ocr_mode config) ]> (
  <[ "deepseek_api_key"%string := JStr (deepseek_api_key config) ]> (
  <[ "deepseek_base_url"%string := JStr (deepseek_base_url config) ]> (
  <[ "deepseek_model"%string := JStr (deepseek_model config) ]> (
  <[ "deepseek_system_prompt"%string := JStr (deepseek_system_prompt config) ]> (
  <[ "deepseek_user_prompt_template"%string :=
       JStr (deepseek_user_prompt_template config) ]> (
  <[ "save_keys_locally"%string := JBool (save_keys_locally config) ]> (
  <[ "recent_dirs"%string := JArr (map JStr (recent_dirs config)) ]> ∅))))))))))))))).

(** [config] with other credentials. *)
Definition with_keys (config : AppConfig) (api secret deepseek : str) : AppConfig :=
  mkAppConfig (input_dir config) (include_subdirs config)
    (frame_number_1based config) (start_index config) (index_padding config)
    (dry_run config) api secret (baidu_ocr_mode config) deepseek
    (deepseek_base_url config) (deepseek_model config)
    (deepseek_system_prompt config) (deepseek_user_prompt_template config)
    (save_keys_locally config) (recent_dirs config).

(** The memory that [save_config] works in: the configuration object that
    its argument refers to, and the files on disk, each holding the record
    that [json.dumps] serialised into it. *)
Record store := mkStore {
  config_obj : AppConfig;
  disk : gmap Path (gmap string json)
}.

(** [path.write_text(json.dumps(data, ...))] *)
Definition write_json (path : Path) (data : gmap string json) : M store unit :=
  fun st => (inr tt, mkStore (config_obj st) (<[ path := data ]> (disk st))).

Definition save_config (path : Path) : M store unit :=
  fun st =>
    let config := config_obj st in
    let data := asdict config in
    let data :=
      if negb (save_keys_locally config)
      then <[ "deepseek_api_key"%string := JStr [] ]> (
           <[ "baidu_secret_key"%string := JStr [] ]> (
           <[ "baidu_api_key"%string := JStr [] ]> data))
      else data in
    write_json path data st.

End Config.

(* ===================================================================== *)
(** * gui.py: the batch workers *)
(* ===================================================================== *)

Module Gui.
Import PyStr Eff Http PyObj Rename Config.
Local Open Scope py_scope.

Section Worker.

(** Left abstract, as in the clients and the extractor, and
    [traceback.format_exc()] for the exception being handled. *)
Variable image : Type.
Variable pil_open : bytes -> exception + image.
Variable decode_utf8_replace : bytes -> str.
Variable repr_json : json -> str.
Variable int_of_str : str -> option Z.
Variable b64encode : bytes -> str.
Variable pil_to_jpeg : bytes -> option bytes.
Variable str_format : str -> str -> option str.
Variable format_exc : exception -> str.

(** [self._stop_event.is_set()] when it is read before the item at the
    given offset. *)
Variable stop_is_set : nat -> bool.

(** The rows of the table that the workers read. *)
Record VideoRow := mkRow { path : Path; title : str }.

(** The events put on [self._queue]. *)
Inductive event :=
| EvStatus (p : Path) (status : str)
| EvPreview (p : Path) (img : image)
| EvOcr (p : Path) (ocr_text : str)
| EvTitle (p : Path) (title_ new_name : str)
| EvRenamed (old_path new_path : Path)
| EvError (p : Path) (msg : str)
| EvProgress (n : Z)
| EvDone (msg : str).

(** The state that a worker thread acts on: the HTTP world with the token
    cache of the run's OCR client, the processes, the file system, the
    queue (oldest event first) and the local variable [stage]. *)
Record state := mkState {
  http : Http.world BaiduOcr._TokenCache;
  video : Video.world;
  fs : FS;
  queue : list event;
  stage : str
}.

Definition put (ev : event) : M state unit :=
  fun s => (inr tt, mkState (http s) (video s) (fs s) (queue s ++ [ev]) (stage s)).

Definition set_stage (name_ : str) : M state unit :=
  fun s => (inr tt, mkState (http s) (video s) (fs s) (queue s) name_).

Definition get_stage : M state str := fun s => (inr (stage s), s).

Definition in_http {A} (m : Client BaiduOcr._TokenCache A) : M state A :=
  fun s => let '(r, w) := m (http s) in
           (r, mkState w (video s) (fs s) (queue s) (stage s)).

Definition in_video {A} (m : M Video.world A) : M state A :=
  fun s => let '(r, v) := m (video s) in
           (r, mkState (http s) v (fs s) (queue s) (stage s)).

Definition in_fs {A} (m : M FS A) : M state A :=
  fun s => let '(r, f) := m (fs s) in
           (r, mkState (http s) (video s) f (queue s) (stage s)).

(** [pick_non_conflicting_path(target)] run to its end: a directory with
    [n] entries is resolved within [n + 1] iterations. *)
Definition pick_path (target : Path) : M FS Path :=
  fun f =>
    match pick_non_conflicting_path (S (size (files f))) target None f with
    | Some (p, f1) => (inr p, f1)
    | None => (inr target, f)
    end.

(** [old_path.rename(target)] *)
Definition rename (old_path target : Path) : M FS unit :=
  fun f =>
    if bool_decide (old_path ∈ files f)
    then (inr tt, mkFS ({[target]} ∪ (files f ∖ {[old_path]})) (stat_log f)
                       (rename_log f ++ [(old_path, target)]))
    else (inl (Exc OSError (str_of_Path old_path) None), f).

(** [int(x or d)] for an [int] attribute. *)
Definition int_or (x d : Z) : Z := if x =? 0 then d else x.

Definition is_domain_error (c : exc_class) : bool :=
  match c with
  | VideoFrameError | BaiduOcrError | DeepSeekError | OSError => true
  | _ => false
  end.

Definition status_done : str := u "完成".
Definition status_preview : str := u "预览".

(** The body of the [for] loop of [_run_worker] after the stop check. *)
Definition worker_item (cfg : AppConfig) (ocr_client : BaiduOcr.BaiduOcrClient)
    (offset : nat) (row : VideoRow) : M state unit :=
  let fixed_index := int_or (start_index cfg) 1 + Z.of_nat offset in
  let! _ := set_stage (u "读取帧") in
  let! _ := put (EvStatus (path row) (u "读取帧…")) in
  let! _ :=
    try_except
      (let! _ := set_stage (u "读取帧") in
       let! frame := in_video
         (Video.extract_frame_as_png_bytes image pil_open decode_utf8_replace
            (path row) (frame_number_1based cfg)) in
       let! _ := put (EvPreview (path row) (snd frame)) in
       let! _ := set_stage (u "OCR") in
       let! _ := put (EvStatus (path row) (u "OCR…")) in
       let! ocr_text := in_http
         (BaiduOcr.recognize repr_json int_of_str b64encode pil_to_jpeg
            ocr_client (fst frame) (baidu_ocr_mode cfg) (u "CHN_ENG") true) in
       let! _ := put (EvOcr (path row) ocr_text) in
       let! _ := set_stage (u "DeepSeek") in
       let! _ := put (EvStatus (path row) (u "DeepSeek…")) in
       let! title_ := in_http
         (DeepSeek.extract_title_sentence repr_json str_format
            (deepseek_api_key cfg) (deepseek_base_url cfg) (deepseek_model cfg)
            ocr_text (deepseek_system_prompt cfg)
            (deepseek_user_prompt_template cfg) 60 2) in
       let! target := lift
         (build_target_path (path row) fixed_index (index_padding cfg) title_) in
       let! target := in_fs (pick_path target) in
       let new_name := name target in
       let! _ := put (EvTitle (path row) title_ new_name) in
       let! _ :=
         if negb (dry_run cfg)
         then
           let! _ := set_stage (u "重命名") in
           let old_path := path row in
           let! _ := in_fs (rename old_path target) in
           put (EvRenamed old_path target)
         else ret tt in
       put (EvStatus (if negb (dry_run cfg) then target else path row)
                     status_done))
      (fun exc =>
         let! stage_ := get_stage in
         if is_domain_error (class_of exc)
         then put (EvError (path row)
                           (stage_ ++ u "失败：" ++ str_of_exc exc))
         else put (EvError (path row)
                           (stage_ ++ u "异常：" ++ newline ++ format_exc exc))) in
  put (EvProgress (Z.of_nat offset + 1)).

(** [for offset, row in enumerate(self._rows)] with the stop check. *)
Fixpoint worker_loop (cfg : AppConfig) (ocr_client : BaiduOcr.BaiduOcrClient)
    (offset : nat) (rows : list VideoRow) : M state unit :=
  match rows with
  | [] => ret tt
  | row :: rest =>
    if stop_is_set offset then ret tt
    else
      let! _ := worker_item cfg ocr_client offset row in
      worker_loop cfg ocr_client (S offset) rest
  end.

Definition _run_worker (cfg : AppConfig) (rows : list VideoRow) : M state unit :=
  let '(ocr_client, cache) :=
    BaiduOcr.__init__ (baidu_api_key cfg) (baidu_secret_key cfg) 60 2 in
  let! _ := in_http (set_self cache) in
  let! _ := worker_loop cfg ocr_client O rows in
  put (EvDone (u "处理结束。")).

(** The body of the [for] loop of [_run_rename_all] after the stop check. *)
Definition rename_all_item (cfg : AppConfig) (start_index_ index_padding_ : Z)
    (offset : nat) (row : VideoRow) : M state unit :=
  let fixed_index := start_index_ + Z.of_nat offset in
  let title_ := match strip (title row) with [] => u "未识别" | t => t end in
  let old_path := path row in
  let! _ :=
    try_except
      (let! target := lift
         (build_target_path old_path fixed_index index_padding_ title_) in
       let! target := in_fs (pick_path target) in
       let! _ := put (EvTitle old_path title_ (name target)) in
       if dry_run cfg
       then put (EvStatus old_path status_preview)
       else
         let! _ := in_fs (rename old_path target) in
         let! _ := put (EvRenamed old_path target) in
         put (EvStatus target status_done))
      (fun exc =>
         if bool_decide (class_of exc = OSError)
         then put (EvError old_path (u "重命名失败：" ++ str_of_exc exc))
         else put (EvError old_path
                           (u "重命名异常：" ++ newline ++ format_exc exc))) in
  put (EvProgress (Z.of_nat offset + 1)).

Fixpoint rename_all_loop (cfg : AppConfig) (start_index_ index_padding_ : Z)
    (offset : nat) (rows : list VideoRow) : M state unit :=
  match rows with
  | [] => ret tt
  | row :: rest =>
    if stop_is_set offset then ret tt
    else
      let! _ := rename_all_item cfg start_index_ index_padding_ offset row in
      rename_all_loop cfg start_index_ index_padding_ (S offset) rest
  end.

Definition _run_rename_all (cfg : AppConfig) (rows : list VideoRow) : M state unit :=
  let start_index_ := int_or (start_index cfg) 1 in
  let index_padding_ := int_or (index_padding cfg) 3 in
  let! _ := rename_all_loop cfg start_index_ index_padding_ O rows in
  put (EvDone (u "重命名结束。")).

(** ** Vocabulary for statements about the workers *)

(** The status event of a preview. *)
Definition not_preview (ev : event) : Prop :=
  match ev with
  | EvStatus _ status => status <> status_preview
  | _ => True
  end.

(** From [s] to [s'] the queue has only grown, by events that satisfy [P]. *)
Definition appends (P : event -> Prop) (s s' : state) : Prop :=
  exists evs, queue s' = queue s ++ evs /\ Forall P evs.

(** From [s] to [s'] no file was renamed. *)
Definition keeps_files (s s' : state) : Prop :=
  files (fs s') = files (fs s) /\ rename_log (fs s') = rename_log (fs s).

(** Every run of [m] relates the state before to the state after. *)
Definition preserves {A} (R : state -> state -> Prop) (m : M state A) : Prop :=
  forall s, R s (snd (m s)).

End Worker.
End Gui.

(* ===================================================================== *)
(** * Example inputs *)
(* ===================================================================== *)

Module Examples.
Import PyStr Eff Http Retry PyObj Rename Scan Config.

(** A configuration that holds three credentials and must not save them. *)
Definition config_secret : AppConfig :=
  mkAppConfig (u "videos") false 1 1 3 false
    (u "baidu-key") (u "baidu-secret") (u "accurate_basic") (u "deepseek-key")
    (u "https://api.deepseek.com/v1") (u "deepseek-chat")
    (u "system") (u "user {ocr_text}") false [u "videos"].

(** A file in the current directory. *)
Definition file (name_ : string) : Path := mkPath [] [u name_].

(** A directory that holds v.mp4 and v_2.mp4, and one that is empty. *)
Definition dir_v : FS := mkFS {[ file "v.mp4"; file "v_2.mp4" ]} [] [].
Definition dir_empty : FS := mkFS ∅ [] [].

(** The content of the title example: the label and the title between
    straight double quotes. *)
Definition quoted_title : str := [34%N] ++ u "标题：今天天气真好" ++ [34%N].

(** A chat-completion payload with the given content. *)
Definition chat_payload (content : json) : json :=
  JObj [ (u "choices",
          JArr [ JObj [ (u "message", JObj [ (u "content", content) ]) ] ]) ].

(** A world at time 0 in which nothing has happened yet. *)
Definition fresh_world {C} (net_ : nat -> request -> outcome) (self_ : C)
  : world C :=
  mkWorld 0 net_ O [] self_.

(** A machine with ffmpeg whose first subprocess exits with status 0 and
    no output, and whose later ones exit with status 0 and one byte. *)
Definition machine_empty_then_bytes : Video.world :=
  Video.mkWorld (fun cmd => Some (u "/usr/bin/ffmpeg"))
    (fun k args => match k with
                   | O => Video.Completed 0 [] []
                   | _ => Video.Completed 0 [137%N] []
                   end)
    [].

(** An image decoder that refuses every input, and one that accepts. *)
Definition decoder_refuses (b : bytes) : exception + unit :=
  inl (Exc ValueError (u "cannot identify image file") None).
Definition decoder_accepts (b : bytes) : exception + unit := inr tt.

Definition decode_stub (b : bytes) : str := b.

(** Stand-ins for the abstract library functions. *)
Definition repr_stub (j : json) : str := [].
Definition format_stub (template ocr_text : str) : option str :=
  Some (template ++ ocr_text).

(** A network whose first [k] requests time out and whose later requests
    return [payload]. *)
Definition timeout_exc : exception := Exc RequestException (u "timed out") None.
Definition net_fail_then (k : nat) (payload : json) (i : nat) (r : request)
  : outcome :=
  if (i <? k)%nat then Raises timeout_exc else Returns payload.

(** A token payload: the token tok, valid for 30 days. *)
Definition token_payload : json :=
  JObj [ (u "access_token", JStr (u "tok")); (u "expires_in", JNum 2592000) ].

(** An OCR client with three attempts, and its empty cache. *)
Definition client3 : BaiduOcr.BaiduOcrClient :=
  fst (BaiduOcr.__init__ (u "api-key") (u "secret-key") 60 3).
Definition empty_cache : BaiduOcr._TokenCache :=
  snd (BaiduOcr.__init__ (u "api-key") (u "secret-key") 60 3).

Definition int_stub (s : str) : option Z := None.

(** An OCR payload with two lines of text. *)
Definition ocr_payload : json :=
  JObj [ (u "words_result",
          JArr [ JObj [ (u "words", JStr (u "第一关")) ];
                 JObj [ (u "words", JStr (u "跳过去")) ] ]) ].

(** A service that issues [token_payload] at the token URL and answers
    every other request with [ocr_payload]. *)
Definition net_baidu (i : nat) (r : request) : outcome :=
  if bool_decide (req_url r = BaiduOcr.token_url) then Returns token_payload
  else Returns ocr_payload.

(** The world of the first recognition, and the world that it leaves. *)
Definition world_first : world BaiduOcr._TokenCache :=
  fresh_world net_baidu empty_cache.

Definition b64_stub (b : bytes) : str := b.
Definition jpeg_stub (b : bytes) : option bytes := None.

Definition world_second : world BaiduOcr._TokenCache :=
  snd (BaiduOcr.recognize repr_stub int_stub b64_stub jpeg_stub client3
         [137%N] (u "accurate_basic") (u "CHN_ENG") true world_first).

(** ** A batch of one video

    The services answer at once: the token service with [token_payload],
    the OCR service with [ocr_payload] and the title service with the
    quoted title; ffmpeg gives one byte, which the decoder accepts; the
    directory holds v.mp4. *)
Definition net_services (i : nat) (r : request) : outcome :=
  if bool_decide (req_url r = BaiduOcr.token_url) then Returns token_payload
  else if bool_decide (req_url r = BaiduOcr._OCR_ACCURATE_BASIC_URL)
  then Returns ocr_payload
  else Returns (chat_payload (JStr quoted_title)).

Definition machine_ok : Video.world :=
  Video.mkWorld (fun cmd => Some (u "/usr/bin/ffmpeg"))
    (fun k args => Video.Completed 0 [137%N] []) [].

Definition config_run (dry : bool) : AppConfig :=
  mkAppConfig (u "videos") false 1 1 3 dry
    (u "baidu-key") (u "baidu-secret") (u "accurate_basic") (u "deepseek-key")
    (u "https://api.deepseek.com/v1") (u "deepseek-chat")
    (u "system") (u "user") false [].

Definition format_exc_stub (e : exception) : str := str_of_exc e.
Definition never_stopped (offset : nat) : bool := false.

Definition batch_start : Gui.state unit :=
  Gui.mkState unit (fresh_world net_services empty_cache) machine_ok
    (mkFS {[ file "v.mp4" ]} [] []) [] [].

Definition batch_rows : list Gui.VideoRow :=
  [ Gui.mkRow (file "v.mp4") (u "今天天气真好") ].

(** [_run_worker] and [_run_rename_all] on that batch. *)
Definition run_worker_on (dry : bool) : Gui.state unit :=
  snd (Gui._run_worker unit decoder_accepts decode_stub repr_stub int_stub
         b64_stub jpeg_stub format_stub format_exc_stub never_stopped
         (config_run dry) batch_rows batch_start).

Definition run_rename_all_on (dry : bool) : Gui.state unit :=
  snd (Gui._run_rename_all unit format_exc_stub never_stopped
         (config_run dry) batch_rows batch_start).

(** The directory listing v2.mp4, v10.mp4, v1.mp4. *)
Definition listing_v : listing :=
  mkListing [file "v2.mp4"; file "v10.mp4"; file "v1.mp4"] [].

End Examples.

(* ===================================================================== *)
(** * Vocabulary for further properties *)
(* ===================================================================== *)

Module RenameSpec.
Import PyStr Eff Rename.

(** A character that the sanitizer lets through: outside the class of
    [_WINDOWS_INVALID_CHARS_RE], and the space if it is whitespace. *)
Definition clean_char (c : N) : Prop :=
  class_matches _WINDOWS_INVALID_CHARS_RE c = false
  /\ (isspace c = true -> c = 32%N).

(** What holds of the text once the fallback is chosen, and is kept by
    the truncation: clean characters, a first character that is neither
    whitespace nor a dot, a last character that is not whitespace. *)
Definition well_shaped (f : str) : Prop :=
  Forall clean_char f
  /\ (exists c r, f = c :: r /\ isspace c = false /\ c <> 46%N)
  /\ match rev f with [] => True | c :: _ => isspace c = false end.

(** An ASCII digit or the minus sign. *)
Definition digit_or_minus (c : N) : Prop := is_ascii_digit c = true \/ c = 45%N.

(** The file name that [build_target_path] composes. *)
Definition target_name (src_path : Path) (index index_padding : Z)
    (title : str) : str :=
  zfill (Z.max 1 index_padding) (str_of_int index) ++ u "-"
    ++ sanitize_filename_component title default_fallback default_max_len
    ++ suffix src_path.

End RenameSpec.

Module ScanSpec.
Import PyStr Eff Rename Scan.






End ScanSpec.

Module RetrySpec.
Import PyStr Eff Http Retry.

(** What the retry loop raises when its last attempt raised [exc]: the
    domain error of the two [except] clauses, or [exc] itself when neither
    clause catches it. *)
Definition raised_for (domain : exc_class) (transport_msg json_msg : str)
    (exc : exception) : exception :=
  match class_of exc with
  | RequestException => Exc domain (transport_msg ++ str_of_exc exc) (Some exc)
  | ValueError => Exc domain json_msg (Some exc)
  | _ => exc
  end.

(** A JSON value that is a [str]. *)
Definition is_JStr (j : json) : bool :=
  match j with JStr _ => true | _ => false end.

End RetrySpec.

Module TitleSpec.
Import PyStr.

(** [t] is a run of consecutive characters of [s]. *)
Definition part_of (t s : str) : Prop := exists pre post, s = pre ++ t ++ post.

(** No line boundary of [str.splitlines] in [s]. *)
Definition one_line (s : str) : Prop :=
  Forall (fun c => is_linebreak c = false) s.

End TitleSpec.

Module OcrSpec.
Import PyStr Http.

(** [sep.join(l)] for a list of strings. *)
Fixpoint join (sep : str) (l : list str) : str :=
  match l with
  | [] => []
  | s :: r => match r with [] => s | _ :: _ => s ++ sep ++ join sep r end
  end.

(** An entry of [words_result] that holds the line [s]. *)
Definition words_item (s : str) : json := JObj [ (u "words", JStr s) ].

(** The lines that are not empty. *)
Definition non_empty (l : list str) : list str :=
  List.filter (fun s => negb (bool_decide (s = []))) l.

End OcrSpec.

Module VideoSpec.
Import PyStr Eff PyObj Rename Video.

(** The ffmpeg that [extract_frame_as_png_bytes] runs on a machine, when
    it finds one. *)
Definition ffmpeg_of (w : world) : option str :=
  match fst (find_ffmpeg w) with
  | inr (Some (c :: r)) => Some (c :: r)
  | _ => None
  end.

(** The message of the error raised before any process is run. *)
Definition no_run_msg (frame_number_1based : Z) : str :=
  if frame_number_1based <? 1 then u "帧序号必须是 >= 1 的整数。"
  else u "未找到 ffmpeg：请先安装 ffmpeg 并加入 PATH。".

End VideoSpec.

Module GuiSpec.
Import PyStr Eff Http PyObj Rename Config Gui.

(** The number of rows that a worker handles: the rows before the first
    offset at which the stop event is found set. *)
Fixpoint processed (stop_is_set : nat -> bool) (offset : nat)
    (rows : list VideoRow) : nat :=
  match rows with
  | [] => O
  | _ :: rest =>
    if stop_is_set offset then O
    else S (processed stop_is_set (S offset) rest)
  end.

Section Events.
Variable image : Type.

(** The counts of the progress events of a list of events, in order. *)
Definition progress_of (evs : list (event image)) : list Z :=
  flat_map (fun ev => match ev with EvProgress _ n => [n] | _ => [] end) evs.

(** An event of an item under way: no progress and no end of the run. *)
Definition quiet (ev : event image) : Prop :=
  match ev with
  | EvProgress _ _ | EvDone _ _ => False
  | _ => True
  end.

(** An event that is not the end of the run. *)
Definition not_done (ev : event image) : Prop :=
  match ev with EvDone _ _ => False | _ => True end.

(** From [s] to [s'] the directory holds as many files as before. *)
Definition same_count (s s' : state image) : Prop :=
  size (files (fs image s')) = size (files (fs image s)).

(** The events of an item whose frame extraction raised the error with
    the message [msg]. *)
Definition failed_item (msg : str) (offset : nat) (row : VideoRow)
  : list (event image) :=
  [ EvStatus image (path row) (u "读取帧…");
    EvError image (path row) (u "读取帧" ++ u "失败：" ++ msg);
    EvProgress image (Z.of_nat offset + 1) ].

Fixpoint failed_items (msg : str) (offset : nat) (rows : list VideoRow)
  : list (event image) :=
  match rows with
  | [] => []
  | row :: rest => failed_item msg offset row ++ failed_items msg (S offset) rest
  end.

End Events.

End GuiSpec.

Module ConfigLoad.
Import PyStr Eff Http Rename Config.

(** The defaults of the two prompts: adjacent literals, with a line feed
    where the source writes one. *)
Definition default_system_prompt : str :=
  u "你是标题提炼助手。你会从杂乱的 OCR 文本中提取一个适合作为短视频标题的中文短句。"
  ++ u "标题是文本中的原文，具有以下特征" ++ newline
  ++ u "- 通常是指引玩家动作的句子或短语" ++ newline
  ++ u "只输出标题本身，不要解释，不要加引号，不要编号，不要换行，修复文本括号不配对的问题。".

Definition default_user_prompt_template : str :=
  u "从以下 OCR 文本中提取一个适合作为标题的短句（尽量 ≤ 20 个汉字，必要时可包含数字/英文字母）。"
  ++ newline ++ newline
  ++ u "OCR 文本：" ++ newline ++ u "{ocr_text}" ++ newline ++ newline
  ++ u "输出要求：只输出标题一行。".

(** [AppConfig()] *)
Definition default_config : AppConfig :=
  mkAppConfig [] false 1 1 3 false [] [] (u "accurate_basic") []
    (u "https://api.deepseek.com/v1") (u "deepseek-chat")
    default_system_prompt default_user_prompt_template false [].

(** The fields of the dataclass, in the order of their declaration. *)
Definition field_names : list string :=
  [ "input_dir"; "include_subdirs"; "frame_number_1based"; "start_index";
    "index_padding"; "dry_run"; "baidu_api_key"; "baidu_secret_key";
    "baidu_ocr_mode"; "deepseek_api_key"; "deepseek_base_url";
    "deepseek_model"; "deepseek_system_prompt";
    "deepseek_user_prompt_template"; "save_keys_locally";
    "recent_dirs" ]%string.

(** The field that the key of a JSON object names, if it names one. *)
Definition field_of (key : str) : option string :=
  List.find (fun f => bool_decide (u f = key)) field_names.

(** What [load_config] finds at its path: no file; a file that
    [read_text] or [json.loads] raises on; or the value that [json.loads]
    returns. *)
Inductive file_content :=
| Missing
| Unreadable
| Parsed (data : json).

Section Load.

(** [hasattr(config, key)] for a key that names no field: the exception
    that [setattr] raises when the object has such an attribute (it has
    slots, so only its fields can be set), and [None] when it has none. *)
Variable other_attr : str -> option exception.

(** [if hasattr(config, key): setattr(config, key, value)]; the object is
    its attributes by field name, with whatever value they hold. *)
Definition set_if_hasattr (config : gmap string json) (key : str) (value : json)
  : exception + gmap string json :=
  match field_of key with
  | Some f => inr (<[ f := value ]> config)
  | None =>
    match other_attr key with
    | Some e => inl e
    | None => inr config
    end
  end.

(** [for key, value in data.items(): ...] *)
Fixpoint load_items (items : list (str * json)) (config : gmap string json)
  : exception + gmap string json :=
  match items with
  | [] => inr config
  | (key, value) :: rest =>
    match set_if_hasattr config key value with
    | inl e => inl e
    | inr config' => load_items rest config'
    end
  end.

Definition load_config (content : file_content) : exception + gmap string json :=
  match content with
  | Missing => inr (asdict default_config)
  | Unreadable => inr (asdict default_config)
  | Parsed (JObj items) => load_items items (asdict default_config)
  | Parsed _ => inl (Exc AttributeError [] None)
  end.

End Load.

(** What [json.loads] returns for the text that [json.dumps] made of a
    record: the object with its entries. *)
Definition loads_of_dumps (data : gmap string json) : json :=
  JObj (map (fun kv => (u (fst kv), snd kv)) (map_to_list data)).

(** The value that the last entry with the key [key] gives. *)
Definition last_value (key : str) (items : list (str * json)) : option json :=
  assoc key (rev items).

End ConfigLoad.

Module Ui.
Import PyStr Eff Http Rename Config Gui.

(** The Tk variables and text widgets that [_read_ui_to_config] reads,
    each as the value that its [get] returns. *)
Record UiState := mkUi {
  _dir_var : str;
  _include_subdirs_var : bool;
  _frame_var : Z;
  _start_index_var : Z;
  _padding_var : Z;
  _dry_run_var : bool;
  _ocr_mode_var : str;
  _baidu_api_key_var : str;
  _baidu_secret_key_var : str;
  _deepseek_api_key_var : str;
  _deepseek_base_url_var : str;
  _deepseek_model_var : str;
  _save_keys_var : bool;
  _ds_system_prompt_text : str;
  _ds_user_prompt_text : str
}.

(** [s or d] for strings. *)
Definition str_or (s d : str) : str :=
  match s with [] => d | _ => s end.

(** The list of recent directories once [input_dir] has been read. *)
Definition recent_with (input_dir_ : str) (recent : list str) : list str :=
  match input_dir_ with
  | [] => recent
  | _ =>
    let existing :=
      List.filter (fun d => negb (bool_decide (d = input_dir_))) recent in
    take 10 (input_dir_ :: existing)
  end.

(** [_read_ui_to_config]: the configuration object after the call, from
    the object before it and the widgets. *)
Definition _read_ui_to_config (cfg : AppConfig) (ui : UiState) : AppConfig :=
  let input_dir_ := strip (_dir_var ui) in
  mkAppConfig
    input_dir_
    (_include_subdirs_var ui)
    (int_or (_frame_var ui) 1)
    (int_or (_start_index_var ui) 1)
    (int_or (_padding_var ui) 3)
    (_dry_run_var ui)
    (strip (_baidu_api_key_var ui))
    (strip (_baidu_secret_key_var ui))
    (strip (str_or (_ocr_mode_var ui) (u "accurate_basic")))
    (strip (_deepseek_api_key_var ui))
    (str_or (strip (_deepseek_base_url_var ui)) (u "https://api.deepseek.com/v1"))
    (str_or (strip (_deepseek_model_var ui)) (u "deepseek-chat"))
    (strip (_ds_system_prompt_text ui))
    (strip (_ds_user_prompt_text ui))
    (_save_keys_var ui)
    (recent_with input_dir_ (recent_dirs cfg)).

End Ui.

Module MoreExamples.
Import PyStr Eff Http Retry PyObj Rename Scan Config Examples.



(** A world whose title service answers with the number 5 as content. *)
Definition world_number_content : world unit :=
  fresh_world (net_fail_then 0 (chat_payload (JNum 5))) tt.


(** A token payload without a lifetime, and a service that issues it. *)
Definition token_payload_no_ttl : json :=
  JObj [ (u "access_token", JStr (u "tok")) ].

Definition net_token_no_ttl (i : nat) (r : request) : outcome :=
  Returns token_payload_no_ttl.

(** A machine without ffmpeg, and the batch of one video on it. *)
Definition machine_none : Video.world :=
  Video.mkWorld (fun cmd => None) (fun k args => Video.TimedOut) [].

Definition batch_no_ffmpeg : Gui.state unit :=
  Gui.mkState unit (fresh_world net_services empty_cache) machine_none
    (mkFS {[ file "v.mp4" ]} [] []) [] [].

(** The entries of a configuration file that gives the start index
    twice and holds a key that names nothing. *)
Definition config_items : list (str * json) :=
  [ (u "start_index", JNum 5); (u "theme", JStr (u "dark"));
    (u "start_index", JStr (u "seven")) ].

Definition no_other_attr (key : str) : option exception := None.

(** The widgets with the directory videos and otherwise empty, and a
    configuration that has seen two directories. *)
Definition ui_videos : Ui.UiState :=
  Ui.mkUi (u " videos ") false 0 0 0 false [] [] [] [] [] [] false [] [].

Definition config_recent : AppConfig :=
  mkAppConfig [] false 1 1 3 false [] [] [] [] [] [] [] [] false
    [u "clips"; u "videos"].

End MoreExamples.

(* ===================================================================== *)
(** * Properties of rename.py *)
(* ===================================================================== *)

Module RenameFacts.
Import PyStr Eff Rename Examples.

(** ** Decimal rendering is injective *)

Lemma ascii_codes_inj s t : ascii_codes s = ascii_codes t -> s = t.
Proof.
  unfold ascii_codes. intros H.
  rewrite <- (string_of_list_ascii_of_string s),
          <- (string_of_list_ascii_of_string t).
  f_equal. revert H.
  generalize (list_ascii_of_string s) (list_ascii_of_string t).
  induction l as [|a l IH]; intros [|b l'] H; simpl in H;
    try discriminate; auto.
  injection H as Hab Hl. f_equal; auto.
  rewrite <- (ascii_N_embedding a), <- (ascii_N_embedding b).
  now rewrite Hab.
Qed.

Lemma to_int_not_nil z :
  Z.to_int z <> Decimal.Pos Decimal.Nil /\ Z.to_int z <> Decimal.Neg Decimal.Nil.
Proof.
  destruct z as [|p|p]; simpl; split; try discriminate; intros [= H];
    now apply DecimalPos.Unsigned.to_uint_nonnil in H.
Qed.

Lemma str_of_int_inj a b : str_of_int a = str_of_int b -> a = b.
Proof.
  unfold str_of_int. intros H. apply ascii_codes_inj in H.
  apply DecimalZ.to_int_inj.
  destruct (to_int_not_nil a) as [Ha1 Ha2], (to_int_not_nil b) as [Hb1 Hb2].
  pose proof (NilZero.isi _ Ha1 Ha2) as Ia.
  pose proof (NilZero.isi _ Hb1 Hb2) as Ib.
  rewrite H in Ia. congruence.
Qed.

Lemma middle_inj (pre sep x y post : str) :
  pre ++ sep ++ x ++ post = pre ++ sep ++ y ++ post -> x = y.
Proof.
  intros H. do 2 apply app_inv_head in H. now apply app_inv_tail in H.
Qed.

Lemma candidate_inj parent_ stem_ suffix_ a b :
  candidate parent_ stem_ suffix_ a = candidate parent_ stem_ suffix_ b -> a = b.
Proof.
  unfold candidate, joinpath. intros H.
  assert (Hn : stem_ ++ u "_" ++ str_of_int a ++ suffix_
               = stem_ ++ u "_" ++ str_of_int b ++ suffix_).
  { injection H as H. apply app_inv_head in H. now injection H. }
  apply middle_inj in Hn. now apply str_of_int_inj.
Qed.

(** ** The loop *)

Section Loop.
Variables (parent_ : Path) (stem_ suffix_ : str).

Local Abbreviation cand := (candidate parent_ stem_ suffix_).
Local Abbreviation candidates := (Rename.candidates parent_ stem_ suffix_).

Lemma candidates_NoDup c n : NoDup (candidates c n).
Proof.
  unfold Rename.candidates. apply NoDup_fmap_2.
  - intros i j H. apply candidate_inj in H. lia.
  - apply NoDup_seq.
Qed.

(** A directory cannot hold more distinct candidates than it has entries. *)
Lemma some_candidate_free (files_ : gset Path) c n :
  (size files_ < n)%nat ->
  exists i, (i < n)%nat /\ cand (c + Z.of_nat i) ∉ files_.
Proof.
  intros Hn.
  destruct (decide (Forall (fun p => p ∈ files_) (candidates c n))) as [Hall|Hex].
  - exfalso.
    assert (Hsub : list_to_set (candidates c n) ⊆ files_).
    { intros p Hp. apply elem_of_list_to_set in Hp.
      rewrite Forall_forall in Hall. now apply Hall. }
    apply subseteq_size in Hsub.
    rewrite size_list_to_set in Hsub by apply candidates_NoDup.
    unfold Rename.candidates in Hsub.
    rewrite length_map, length_seq in Hsub. lia.
  - apply not_Forall_Exists in Hex; [|intros x; apply _].
    apply Exists_exists in Hex as (p & Hp & Hnot).
    unfold Rename.candidates in Hp.
    apply list_elem_of_fmap in Hp as (i & -> & Hi).
    apply elem_of_seq in Hi. exists i. split; [lia|exact Hnot].
Qed.

Lemma candidates_S c n :
  candidates c (S n) = cand c :: candidates (c + 1) n.
Proof.
  unfold Rename.candidates. simpl. rewrite Z.add_0_r. f_equal.
  rewrite <- fmap_S_seq, <- list_fmap_compose.
  apply list_fmap_ext. intros _ i _. simpl. f_equal. lia.
Qed.

(** The loop stops at the first candidate that does not exist, having
    asked for every candidate up to it and for nothing else, whenever one
    of the first [fuel] candidates is free. *)
Lemma pick_loop_first_free fuel : forall c f,
  (exists i, (i < fuel)%nat /\ cand (c + Z.of_nat i) ∉ files f) ->
  exists n, (n < fuel)%nat
    /\ (cand (c + Z.of_nat n) ∉ files f)
    /\ (forall j, (j < n)%nat -> cand (c + Z.of_nat j) ∈ files f)
    /\ pick_loop fuel parent_ stem_ suffix_ c f
       = Some (cand (c + Z.of_nat n),
               mkFS (files f) (stat_log f ++ candidates c (S n)) (rename_log f)).
Proof.
  induction fuel as [|fuel IH]; intros c f (i & Hi & Hfree); [lia|].
  simpl. unfold exists_.
  destruct (decide (cand c ∈ files f)) as [Hin|Hout].
  - rewrite bool_decide_eq_true_2 by exact Hin. simpl.
    destruct i as [|i].
    { exfalso. apply Hfree. now rewrite Z.add_0_r. }
    destruct (IH (c + 1)
                 (mkFS (files f) (stat_log f ++ [cand c]) (rename_log f)))
      as (n & Hn & Hnfree & Hbelow & Heq).
    { exists i. split; [lia|]. simpl.
      now replace (c + 1 + Z.of_nat i) with (c + Z.of_nat (S i)) by lia. }
    simpl in *. exists (S n).
    replace (c + Z.of_nat (S n)) with (c + 1 + Z.of_nat n) by lia.
    repeat split; [lia|exact Hnfree| |].
    + intros [|j] Hj; [now rewrite Z.add_0_r|].
      replace (c + Z.of_nat (S j)) with (c + 1 + Z.of_nat j) by lia.
      apply Hbelow. lia.
    + rewrite Heq. do 2 f_equal.
      rewrite (candidates_S c (S n)), <- app_assoc. reflexivity.
  - rewrite bool_decide_eq_false_2 by exact Hout. simpl.
    exists O. rewrite Z.add_0_r. repeat split; [lia|exact Hout|lia|].
    rewrite candidates_S. reflexivity.
Qed.

End Loop.

(** [pick_path], the total form that the workers call, is the function
    itself: it never takes its fallback branch. *)
Lemma pick_enough_fuel target f :
  exists p f1,
    pick_non_conflicting_path (S (size (files f))) target None f = Some (p, f1).
Proof.
  unfold pick_non_conflicting_path, exists_.
  rewrite bool_decide_eq_false_2 by discriminate. cbv beta iota.
  destruct (bool_decide (target ∈ files f)); cbn [negb]; [|eauto].
  destruct (pick_loop_first_free (parent target) (stem target) (suffix target)
              (S (size (files f))) 2
              (mkFS (files f) (stat_log f ++ [target]) (rename_log f)))
    as (n & _ & _ & _ & Heq).
  { cbn [files]. apply some_candidate_free. lia. }
  rewrite Heq. eauto.
Qed.

(** What the class of the sanitizer holds: the double quote, the star,
    the slash, everything from the digit 0 to the backslash, the letter x
    and the bar; in particular no control character and every digit and
    capital letter. *)
Lemma invalid_chars_class c :
  class_matches _WINDOWS_INVALID_CHARS_RE c = true
  <-> (c = 34 \/ c = 42 \/ c = 47 \/ 48 <= c <= 92 \/ c = 120 \/ c = 124)%N.
Proof.
  unfold class_matches, _WINDOWS_INVALID_CHARS_RE.
  cbn [existsb item_matches].
  rewrite !orb_true_iff, !andb_true_iff, !N.eqb_eq, !N.leb_le. lia.
Qed.

Lemma control_chars_kept c :
  (c < 32)%N -> class_matches _WINDOWS_INVALID_CHARS_RE c = false.
Proof.
  intros Hc. apply not_true_is_false. rewrite invalid_chars_class. lia.
Qed.

(** C1. On the source path a/b.mp4, index 7, padding 3 and the title
    "Hello: World", [build_target_path] returns a/007-ello   orld.mp4 and
    not a/007-Hello World.mp4: the character class of the sanitizer holds
    the digits and the capital letters (and no control character), so the
    capitals H and W become spaces like the colon, and the three adjacent
    spaces stay because whitespace runs are collapsed before the
    replacement. *)
Theorem build_target_path_hello_world :
  build_target_path (mkPath [] [u "a"; u "b.mp4"]) 7 3 (u "Hello: World")
    = inr (mkPath [] [u "a"; u "007-ello   orld.mp4"])
  /\ str_of_Path (mkPath [] [u "a"; u "007-ello   orld.mp4"])
     = u "a/007-ello   orld.mp4"
  /\ u "a/007-ello   orld.mp4" <> u "a/007-Hello World.mp4".
Proof.
  split; [vm_compute; reflexivity|].
  split; [vm_compute; reflexivity|].
  vm_compute. discriminate.
Qed.

(** C6. Without an [ignore_path], [pick_non_conflicting_path] returns a
    target that does not exist unchanged, whatever the fuel; for a target
    that exists, and a loop bound above the number of directory entries, it
    returns the candidate stem_k suffix with the least counter k >= 2 that
    does not exist. Either way the result does not exist, the directory is
    unchanged, and resolving the result again returns it unchanged. *)
Theorem pick_non_conflicting_path_first_free fuel target f :
  (target ∉ files f ->
     fst <$> pick_non_conflicting_path fuel target None f = Some target)
  /\ (target ∈ files f -> (size (files f) < fuel)%nat ->
      exists k p f1,
        2 <= k
        /\ p = joinpath (parent target)
                 (stem target ++ u "_" ++ str_of_int k ++ suffix target)
        /\ pick_non_conflicting_path fuel target None f = Some (p, f1)
        /\ (p ∉ files f)
        /\ (forall j, 2 <= j < k ->
              joinpath (parent target)
                 (stem target ++ u "_" ++ str_of_int j ++ suffix target)
              ∈ files f)
        /\ files f1 = files f
        /\ forall fuel',
             fst <$> pick_non_conflicting_path fuel' p None f1 = Some p).
Proof.
  unfold pick_non_conflicting_path, exists_.
  rewrite bool_decide_eq_false_2 by discriminate. cbv beta iota. split.
  - intros Hout. now rewrite bool_decide_eq_false_2 by exact Hout.
  - intros Hin Hfuel. rewrite bool_decide_eq_true_2 by exact Hin. cbn [negb].
    destruct (pick_loop_first_free (parent target) (stem target) (suffix target)
                fuel 2
                (mkFS (files f) (stat_log f ++ [target]) (rename_log f)))
      as (n & Hn & Hfree & Hbelow & Heq).
    { cbn [files]. now apply some_candidate_free. }
    cbn [files] in Hfree, Hbelow. eexists (2 + Z.of_nat n), _, _.
    split; [lia|]. split; [reflexivity|]. split; [exact Heq|].
    split; [exact Hfree|]. split; [|split; [reflexivity|]].
    + intros j Hj. replace j with (2 + Z.of_nat (Z.to_nat (j - 2))) by lia.
      apply Hbelow. lia.
    + intros fuel'. rewrite bool_decide_eq_false_2 by discriminate.
      cbv beta iota. cbn [files].
      now rewrite bool_decide_eq_false_2 by exact Hfree.
Qed.

(** The theorem at v.mp4: unchanged in an empty directory; v_3.mp4 or a
    later candidate in the directory that holds v.mp4 and v_2.mp4. *)
Lemma pick_non_conflicting_path_first_free_witness :
  fst <$> pick_non_conflicting_path 0 (file "v.mp4") None dir_empty
    = Some (file "v.mp4")
  /\ exists k p f1,
      2 <= k
      /\ p = joinpath (parent (file "v.mp4"))
               (stem (file "v.mp4") ++ u "_" ++ str_of_int k
                ++ suffix (file "v.mp4"))
      /\ pick_non_conflicting_path 3 (file "v.mp4") None dir_v = Some (p, f1)
      /\ (p ∉ files dir_v)
      /\ (forall j, 2 <= j < k ->
            joinpath (parent (file "v.mp4"))
               (stem (file "v.mp4") ++ u "_" ++ str_of_int j
                ++ suffix (file "v.mp4"))
            ∈ files dir_v)
      /\ files f1 = files dir_v
      /\ forall fuel',
           fst <$> pick_non_conflicting_path fuel' p None f1 = Some p.
Proof.
  split.
  - apply (proj1 (pick_non_conflicting_path_first_free 0 (file "v.mp4") dir_empty)).
    apply not_elem_of_empty.
  - apply (proj2 (pick_non_conflicting_path_first_free 3 (file "v.mp4") dir_v)).
    + apply elem_of_union_l, elem_of_singleton. reflexivity.
    + vm_compute. lia.
Defined.

(** C10. When [ignore_path] is the target itself, the target is returned
    unchanged and the file system is not asked anything ([stat_log] is
    unchanged), also when a file exists at the target. *)
Theorem pick_non_conflicting_path_ignore fuel target f :
  pick_non_conflicting_path fuel target (Some target) f = Some (target, f).
Proof.
  unfold pick_non_conflicting_path.
  now rewrite bool_decide_eq_true_2 by reflexivity.
Qed.

End RenameFacts.

(* ===================================================================== *)
(** * Properties of the scanner *)
(* ===================================================================== *)

Module ScanFacts.
Import PyStr Eff Rename Scan Examples.



(** C2. For the listing v2.mp4, v10.mp4, v1.mp4 the scanner returns
    v1.mp4, v10.mp4, v2.mp4 and not v1, v2, v10: the key of v10.mp4 is the
    one string v10.mp4, so the order is the lexicographic one. *)
Theorem scan_videos_v1_v10_v2 :
  _scan_videos listing_v false
    = inr [file "v1.mp4"; file "v10.mp4"; file "v2.mp4"]
  /\ natural_key (u "v10.mp4") = [KStr (u "v10.mp4")]
  /\ _scan_videos listing_v false
     <> inr [file "v1.mp4"; file "v2.mp4"; file "v10.mp4"].
Proof.
  split; [vm_compute; reflexivity|].
  split; [vm_compute; reflexivity|].
  vm_compute. discriminate.
Qed.

End ScanFacts.

(* ===================================================================== *)
(** * Properties of the string operations *)
(* ===================================================================== *)

Module StrFacts.
Import PyStr.

(** What is removed on the left satisfies the predicate and what stays
    does not start with such a character. *)
Lemma lstrip_by_spec p s :
  exists a, s = a ++ lstrip_by p s
    /\ Forall (fun c => p c = true) a
    /\ match lstrip_by p s with [] => True | c :: _ => p c = false end.
Proof.
  induction s as [|c r (a & Hs & Ha & Hhd)]; simpl.
  - exists []. auto.
  - destruct (p c) eqn:Hc.
    + exists (c :: a). simpl. rewrite <- Hs. auto.
    + exists []. simpl. auto.
Qed.

Lemma rstrip_by_spec p s :
  exists b, s = rstrip_by p s ++ b
    /\ Forall (fun c => p c = true) b
    /\ match rev (rstrip_by p s) with [] => True | c :: _ => p c = false end.
Proof.
  unfold rstrip_by.
  destruct (lstrip_by_spec p (rev s)) as (a & Hs & Ha & Hhd).
  exists (rev a). rewrite rev_involutive. repeat split.
  - rewrite <- rev_app_distr, <- Hs. now rewrite rev_involutive.
  - now apply List.Forall_rev.
  - exact Hhd.
Qed.

(** [strip_by p s] is [s] without a prefix and a suffix that satisfy [p],
    and neither starts nor ends with such a character. *)
Lemma strip_by_spec p s :
  exists a b, s = a ++ strip_by p s ++ b
    /\ Forall (fun c => p c = true) a
    /\ Forall (fun c => p c = true) b
    /\ match strip_by p s with [] => True | c :: _ => p c = false end
    /\ match rev (strip_by p s) with [] => True | c :: _ => p c = false end.
Proof.
  unfold strip_by.
  destruct (lstrip_by_spec p s) as (a & Hs & Ha & Hhd).
  destruct (rstrip_by_spec p (lstrip_by p s)) as (b & Hr & Hb & Hlast).
  exists a, b. repeat split; auto.
  - now rewrite <- Hr.
  - destruct (rstrip_by p (lstrip_by p s)) as [|c r] eqn:E; [exact I|].
    rewrite Hr in Hhd. exact Hhd.
Qed.

End StrFacts.

(* ===================================================================== *)
(** * Properties of the title clean-up *)
(* ===================================================================== *)

Module DeepSeekFacts.
Import PyStr Eff Http PyObj DeepSeek Examples StrFacts.

Lemma first_non_empty_line_skips content pre l post :
  splitlines content = pre ++ l :: post ->
  Forall (fun x => strip x = []) pre ->
  strip l <> [] ->
  _first_non_empty_line content = strip l.
Proof.
  intros Hsplit Hpre Hl. unfold _first_non_empty_line. rewrite Hsplit.
  rewrite map_app. simpl. clear Hsplit.
  induction Hpre as [|x pre Hx Hpre IH]; simpl.
  - rewrite bool_decide_eq_false_2 by exact Hl. reflexivity.
  - rewrite Hx. simpl. exact IH.
Qed.

(** A label in any case, followed by more text, is consumed. *)
Lemma ci_strip_prefix_match pat : forall lab rest,
  Forall2 (fun p c => ci_match p c = true) pat lab ->
  ci_strip_prefix pat (lab ++ rest) = Some rest.
Proof.
  induction pat as [|p pat IH]; intros lab rest H; inversion H; subst.
  - now destruct rest.
  - simpl. rewrite H2. now apply IH.
Qed.

(** No spelling of the English label starts like the Chinese one. *)
Lemma ci_strip_prefix_other lab rest :
  Forall2 (fun p c => ci_match p c = true) (u "title") lab ->
  ci_strip_prefix (u "标题") (lab ++ rest) = None.
Proof.
  intros H. inversion H as [|p c pat lab' Hc Hrest]; subst.
  assert (Hcases : c = 116%N \/ c = 84%N).
  { unfold ci_match in Hc. apply orb_true_iff in Hc as [Hc|Hc].
    - apply N.eqb_eq in Hc.
      assert (Hl : lower_char c = 116%N) by exact Hc.
      unfold lower_char in Hl.
      destruct ((65 <=? c) && (c <=? 90))%N eqn:E; [right; lia|left; exact Hl].
    - apply andb_true_iff in Hc as [Hc _]. vm_compute in Hc. discriminate. }
  destruct Hcases as [-> | ->]; reflexivity.
Qed.

Lemma strip_label_removes lab c rest :
  lab = u "标题" \/ Forall2 (fun p x => ci_match p x = true) (u "title") lab ->
  colon_or_space c = true ->
  strip_label (lab ++ c :: rest) = lstrip_by colon_or_space rest.
Proof.
  intros Hlab Hc. unfold strip_label.
  destruct Hlab as [-> | Hlab].
  - rewrite (ci_strip_prefix_match (u "标题") (u "标题"))
      by (vm_compute; repeat constructor).
    now rewrite Hc.
  - rewrite ci_strip_prefix_other by exact Hlab.
    rewrite ci_strip_prefix_match by exact Hlab.
    now rewrite Hc.
Qed.

(** C8. The clean-up of [extract_title_sentence]: on the content made of
    the label, the full-width colon and the title between double quotes,
    the result is the title alone, also through the whole client call; and
    in general the first line that is not blank is taken (stripped), the
    quote characters and whitespace at both of its ends are deleted, and a
    label in Chinese, or in English in any case, followed by colons or
    whitespace is deleted from its start. *)
Theorem clean_title_strips_quotes_and_label :
  clean_title quoted_title = u "今天天气真好"
  /\ fst (extract_title_sentence repr_stub format_stub
            (u "key") [] [] (u "ocr") (u "system") (u "user") 60 2
            (fresh_world (fun _ _ => Returns (chat_payload (JStr quoted_title))) tt))
     = inr (u "今天天气真好")
  /\ (forall content,
        clean_title content
        = strip (strip_label (strip (strip_quotes (_first_non_empty_line content)))))
  /\ (forall content pre l post,
        splitlines content = pre ++ l :: post ->
        Forall (fun x => strip x = []) pre ->
        strip l <> [] ->
        _first_non_empty_line content = strip l)
  /\ (forall t, exists a b,
        t = a ++ strip_quotes t ++ b
        /\ Forall (fun c => quote_or_space c = true) a
        /\ Forall (fun c => quote_or_space c = true) b
        /\ match strip_quotes t with
           | [] => True | c :: _ => quote_or_space c = false end
        /\ match rev (strip_quotes t) with
           | [] => True | c :: _ => quote_or_space c = false end)
  /\ (forall lab c rest,
        lab = u "标题"
        \/ Forall2 (fun p x => ci_match p x = true) (u "title") lab ->
        colon_or_space c = true ->
        strip_label (lab ++ c :: rest) = lstrip_by colon_or_space rest).
Proof.
  split; [vm_compute; reflexivity|].
  split; [vm_compute; reflexivity|].
  split; [reflexivity|].
  split; [exact first_non_empty_line_skips|].
  split; [intros t; apply strip_by_spec|].
  exact strip_label_removes.
Qed.

(** The theorem at the content of two lines, the first one blank and the
    second one [TITLE: ok] between apostrophes, and at the label TiTle. *)
Lemma clean_title_strips_quotes_and_label_witness :
  _first_non_empty_line (u "  " ++ newline ++ u "'TITLE: ok'")
    = strip (u "'TITLE: ok'")
  /\ strip_label (u "TiTle" ++ 58%N :: u " ok") = lstrip_by colon_or_space (u " ok").
Proof.
  destruct clean_title_strips_quotes_and_label as (_ & _ & _ & Hline & _ & Hlabel).
  split.
  - apply (Hline _ [u "  "] (u "'TITLE: ok'") []).
    + vm_compute. reflexivity.
    + repeat constructor.
    + vm_compute. discriminate.
  - apply Hlabel.
    + right. vm_compute. repeat constructor.
    + reflexivity.
Defined.

End DeepSeekFacts.

(* ===================================================================== *)
(** * Properties of config.py *)
(* ===================================================================== *)

Module ConfigFacts.
Import PyStr Eff Http Rename Config Examples.

(** The record written when the keys are not to be saved does not depend
    on the credentials. *)
Lemma hidden_record_independent config api secret deepseek :
  <[ "deepseek_api_key"%string := JStr [] ]> (
  <[ "baidu_secret_key"%string := JStr [] ]> (
  <[ "baidu_api_key"%string := JStr [] ]>
     (asdict (with_keys config api secret deepseek))))
  = <[ "deepseek_api_key"%string := JStr [] ]> (
    <[ "baidu_secret_key"%string := JStr [] ]> (
    <[ "baidu_api_key"%string := JStr [] ]> (asdict config))).
Proof.
  apply map_eq. intros k.
  destruct (decide (k = "deepseek_api_key"%string)) as [->|H1];
    [now rewrite !lookup_insert_eq|].
  rewrite !(lookup_insert_ne _ "deepseek_api_key"%string) by congruence.
  destruct (decide (k = "baidu_secret_key"%string)) as [->|H2];
    [now rewrite !lookup_insert_eq|].
  rewrite !(lookup_insert_ne _ "baidu_secret_key"%string) by congruence.
  destruct (decide (k = "baidu_api_key"%string)) as [->|H3];
    [now rewrite !lookup_insert_eq|].
  rewrite !(lookup_insert_ne _ "baidu_api_key"%string) by congruence.
  unfold asdict, with_keys. cbn [input_dir include_subdirs frame_number_1based
    start_index index_padding dry_run baidu_api_key baidu_secret_key
    baidu_ocr_mode deepseek_api_key deepseek_base_url deepseek_model
    deepseek_system_prompt deepseek_user_prompt_template save_keys_locally
    recent_dirs].
  repeat first
    [ rewrite !(lookup_insert_ne _ "deepseek_api_key"%string) by congruence
    | rewrite !(lookup_insert_ne _ "baidu_secret_key"%string) by congruence
    | rewrite !(lookup_insert_ne _ "baidu_api_key"%string) by congruence
    | match goal with
      | |- <[ ?i := ?x ]> _ !! k = <[ ?i := ?x ]> _ !! k =>
        destruct (decide (i = k)) as [->|];
        [ now rewrite !lookup_insert_eq
        | rewrite !(lookup_insert_ne _ i) by assumption ]
      end ].
  reflexivity.
Qed.

(** C9. When [save_keys_locally] is false, [save_config] writes at [path]
    a record whose three credential fields are the empty string, the other
    fields being those of [asdict]; the record is the same for any other
    credentials in the configuration object, and the object is left as it
    was. *)
Theorem save_config_blanks_keys path st :
  save_keys_locally (config_obj st) = false ->
  fst (save_config path st) = inr tt
  /\ config_obj (snd (save_config path st)) = config_obj st
  /\ (exists data,
        disk (snd (save_config path st)) !! path = Some data
        /\ data !! "baidu_api_key"%string = Some (JStr [])
        /\ data !! "baidu_secret_key"%string = Some (JStr [])
        /\ data !! "deepseek_api_key"%string = Some (JStr [])
        /\ forall k, k <> "baidu_api_key"%string ->
                     k <> "baidu_secret_key"%string ->
                     k <> "deepseek_api_key"%string ->
                     data !! k = asdict (config_obj st) !! k)
  /\ (forall api secret deepseek,
        disk (snd (save_config path
                     (mkStore (with_keys (config_obj st) api secret deepseek)
                              (disk st))))
        = disk (snd (save_config path st))).
Proof.
  intros Hflag. unfold save_config, write_json. cbn [fst snd config_obj disk].
  rewrite Hflag. cbn [negb].
  split; [reflexivity|]. split; [reflexivity|]. split.
  - eexists. split; [apply lookup_insert_eq|].
    split; [now rewrite !lookup_insert_ne, lookup_insert_eq by discriminate|].
    split; [now rewrite lookup_insert_ne, lookup_insert_eq by discriminate|].
    split; [apply lookup_insert_eq|].
    intros k H1 H2 H3. now rewrite !lookup_insert_ne by congruence.
  - intros api secret deepseek.
    replace (save_keys_locally (with_keys (config_obj st) api secret deepseek))
      with false by (destruct (config_obj st); simpl in *; congruence).
    cbn [negb]. now rewrite hidden_record_independent.
Qed.

(** The theorem at a configuration that holds three credentials. *)
Lemma save_config_blanks_keys_witness :
  fst (save_config (file "config.json") (mkStore config_secret ∅)) = inr tt
  /\ config_obj (snd (save_config (file "config.json") (mkStore config_secret ∅)))
     = config_secret
  /\ (exists data,
        disk (snd (save_config (file "config.json") (mkStore config_secret ∅)))
          !! file "config.json" = Some data
        /\ data !! "baidu_api_key"%string = Some (JStr [])
        /\ data !! "baidu_secret_key"%string = Some (JStr [])
        /\ data !! "deepseek_api_key"%string = Some (JStr [])
        /\ forall k, k <> "baidu_api_key"%string ->
                     k <> "baidu_secret_key"%string ->
                     k <> "deepseek_api_key"%string ->
                     data !! k = asdict config_secret !! k)
  /\ (forall api secret deepseek,
        disk (snd (save_config (file "config.json")
                     (mkStore (with_keys config_secret api secret deepseek) ∅)))
        = disk (snd (save_config (file "config.json")
                       (mkStore config_secret ∅)))).
Proof.
  apply (save_config_blanks_keys (file "config.json") (mkStore config_secret ∅)).
  reflexivity.
Defined.

End ConfigFacts.

(* ===================================================================== *)
(** * Properties of video.py *)
(* ===================================================================== *)

Module VideoFacts.
Import PyStr Eff PyObj Rename Video Examples.

Section Fallback.
Variable image : Type.
Variable pil_open : bytes -> exception + image.
Variable decode_utf8_replace : bytes -> str.

Local Abbreviation extract :=
  (extract_frame_as_png_bytes image pil_open decode_utf8_replace).

Lemma find_ffmpeg_pure w : snd (find_ffmpeg w) = w.
Proof.
  unfold find_ffmpeg, bind, _safe_which, ret.
  now destruct (truthy_str (which w (u "ffmpeg"))).
Qed.

(** C7, amended. When the primary attempt exits with status 0 and no
    bytes, exactly one more process is run, the one that seeks to 0.1 s
    before the end; the call then comes to what [after_fallback] says, and
    the frame-read error is raised exactly when the fallback too exits with
    status 0 and no bytes. *)
Theorem extract_frame_falls_back_once w video_path n ffmpeg stderr :
  1 <= n ->
  fst (find_ffmpeg w) = inr (Some ffmpeg) ->
  ffmpeg <> [] ->
  run w (length (runs w)) (select_args ffmpeg video_path (n - 1))
    = Completed 0 [] stderr ->
  let fallback :=
    run w (S (length (runs w))) (last_frame_args ffmpeg video_path) in
  runs (snd (extract video_path n w))
    = runs w ++ [select_args ffmpeg video_path (n - 1);
                 last_frame_args ffmpeg video_path]
  /\ (exists pre post,
        last_frame_args ffmpeg video_path
        = pre ++ [u "-sseof"; u "-0.1"; u "-i"; str_of_Path video_path] ++ post)
  /\ fst (extract video_path n w)
     = after_fallback image pil_open decode_utf8_replace video_path n fallback
  /\ (fst (extract video_path n w)
      = inl (Exc VideoFrameError (read_failed_msg video_path n) None)
      <-> exists err, fallback = Completed 0 [] err).
Proof.
  intros Hn Hfind Hne Hprimary fallback.
  assert (Hf : find_ffmpeg w = (inr (Some ffmpeg), w)).
  { rewrite <- (find_ffmpeg_pure w) at 2. rewrite <- Hfind.
    now destruct (find_ffmpeg w). }
  assert (Hres : extract video_path n w
          = (after_fallback image pil_open decode_utf8_replace video_path n fallback,
             mkWorld (which w) (run w)
               (runs w ++ [select_args ffmpeg video_path (n - 1);
                           last_frame_args ffmpeg video_path]))).
  { unfold extract_frame_as_png_bytes.
    replace (n <? 1) with false by (symmetry; apply Z.ltb_ge; lia).
    unfold bind at 1. rewrite Hf.
    destruct ffmpeg as [|c r]; [congruence|].
    unfold bind at 1. unfold run_extract at 1. unfold bind at 1.
    unfold subprocess_run at 1. rewrite Hprimary.
    cbn [Z.eqb negb ret].
    unfold bind at 1. unfold bind at 1.
    unfold run_extract, bind, subprocess_run. cbn [runs which run].
    rewrite length_app. cbn [length].
    replace (length (runs w) + 1)%nat with (S (length (runs w))) by lia.
    fold fallback. rewrite <- app_assoc. cbn [app].
    unfold after_fallback, raise, ret.
    destruct fallback as [|rc out err]; [reflexivity|].
    destruct (negb (rc =? 0)); [reflexivity|].
    destruct out as [|b bs]; [reflexivity|].
    now destruct (pil_open (b :: bs)). }
  rewrite Hres. cbn [fst snd runs].
  split; [reflexivity|].
  split; [exists [ffmpeg; u "-hide_banner"; u "-loglevel"; u "error"; u "-nostdin"];
          eexists; reflexivity|].
  split; [reflexivity|].
  unfold after_fallback. split.
  - destruct fallback as [|rc out err]; [discriminate|].
    destruct (rc =? 0) eqn:Hrc; cbn [negb].
    + apply Z.eqb_eq in Hrc. subst rc.
      destruct out as [|b bs]; [eauto|].
      destruct (pil_open (b :: bs)); discriminate.
    + intros H. inversion H.
  - intros [err ->]. reflexivity.
Qed.

End Fallback.

(** C7 as stated fails: on a machine whose primary attempt gives no bytes
    and whose fallback gives one byte, with a decoder that refuses it, the
    call raises [VideoFrameError] although the fallback yielded bytes. *)
Lemma extract_frame_raises_after_fallback_bytes :
  run machine_empty_then_bytes 0
      (select_args (u "/usr/bin/ffmpeg") (file "v.mp4") 0)
    = Completed 0 [] []
  /\ run machine_empty_then_bytes 1
        (last_frame_args (u "/usr/bin/ffmpeg") (file "v.mp4"))
     = Completed 0 [137%N] []
  /\ fst (extract_frame_as_png_bytes unit decoder_refuses decode_stub
            (file "v.mp4") 1 machine_empty_then_bytes)
     = inl (Exc VideoFrameError decode_failed_msg
                (Some (Exc ValueError (u "cannot identify image file") None))).
Proof. vm_compute. auto. Qed.

(** The amended theorem on the machine of the counterexample. *)
Lemma extract_frame_falls_back_once_witness :
  runs (snd (extract_frame_as_png_bytes unit decoder_accepts decode_stub
               (file "v.mp4") 1 machine_empty_then_bytes))
    = [select_args (u "/usr/bin/ffmpeg") (file "v.mp4") 0;
       last_frame_args (u "/usr/bin/ffmpeg") (file "v.mp4")]
  /\ fst (extract_frame_as_png_bytes unit decoder_accepts decode_stub
            (file "v.mp4") 1 machine_empty_then_bytes)
     = inr ([137%N], tt).
Proof.
  destruct (extract_frame_falls_back_once unit decoder_accepts decode_stub
              machine_empty_then_bytes (file "v.mp4") 1 (u "/usr/bin/ffmpeg") [])
    as (Hruns & _ & Hres & _).
  - lia.
  - reflexivity.
  - vm_compute. discriminate.
  - reflexivity.
  - split; [exact Hruns|exact Hres].
Defined.

End VideoFacts.

(* ===================================================================== *)
(** * Properties of the retry loop *)
(* ===================================================================== *)

Module RetryFacts.
Import PyStr Eff Http Retry.

Lemma after_nil {C} (w : world C) : after w [] = w.
Proof.
  destruct w. unfold after. simpl. now rewrite Nat.add_0_r, app_nil_r.
Qed.

Lemma after_app {C} (w : world C) a b : after (after w a) b = after w (a ++ b).
Proof.
  unfold after, clock_after, posts_of. simpl.
  rewrite fold_left_app, flat_map_app, length_app, Nat.add_assoc, app_assoc.
  reflexivity.
Qed.

Lemma sleeps_failed_attempts req excs : forall attempt,
  sleeps_of (failed_attempts req excs attempt)
  = map (fun i => 2 ^ (attempt + Z.of_nat i)) (seq 0 (length excs)).
Proof.
  induction excs as [|e r IH]; intros attempt; [reflexivity|].
  cbn [failed_attempts sleeps_of flat_map app length seq map].
  rewrite Z.add_0_r. f_equal.
  change (flat_map _ (failed_attempts req r (attempt + 1)))
    with (sleeps_of (failed_attempts req r (attempt + 1))).
  rewrite IH, <- fmap_S_seq, <- list_fmap_compose.
  apply list_fmap_ext. intros _ i _. simpl. f_equal. lia.
Qed.

(** The sleeps of a failed run are 1, 2, 4, ... seconds. *)
Lemma sleeps_backoff req excs :
  sleeps_of (failed_attempts req excs 0) = backoff (length excs).
Proof. apply sleeps_failed_attempts. Qed.

Section Loop.
Context {C : Type}.
Variable req : request.
Variable retries : Z.
Variable domain : exc_class.
Variables transport_msg json_msg exhausted_msg : str.

Local Abbreviation loop :=
  (retry_loop (C:=C) req retries domain transport_msg json_msg exhausted_msg).

Lemma post_after (w : world C) :
  post req w = (inr (net w (posts w) req),
                after w [Post req (net w (posts w) req)]).
Proof.
  unfold post, after. simpl. now rewrite Nat.add_1_r.
Qed.

Lemma sleep_after (w : world C) s_ : sleep s_ w = (inr tt, after w [Sleep s_]).
Proof.
  unfold sleep, after. simpl. now rewrite Nat.add_0_r.
Qed.

Lemma fails_with_tail (w : world C) e excs attempt :
  fails_with w req (e :: excs) ->
  fails_with (after w [Post req (Raises e); Sleep (2 ^ attempt)]) req excs.
Proof.
  intros H i e' Hi. simpl.
  replace (posts w + 1 + i)%nat with (posts w + S i)%nat by lia.
  now apply H.
Qed.

(** Failures with [excs] and then a success: the loop returns the payload,
    having slept after each failure. *)
Lemma loop_succeeds excs : forall remaining attempt last_exc (w : world C) payload,
  Z.of_nat remaining = retries - attempt ->
  (length excs < remaining)%nat ->
  fails_with w req excs ->
  then_returns w req excs payload ->
  loop remaining attempt last_exc w
  = (inr payload,
     after w (failed_attempts req excs attempt ++ [Post req (Returns payload)])).
Proof.
  induction excs as [|e r IH]; intros remaining attempt last_exc w payload
    Hrem Hlen Hfail Hret.
  - destruct remaining as [|k]; [simpl in Hlen; lia|].
    unfold then_returns in Hret. simpl in Hret. rewrite Nat.add_0_r in Hret.
    cbn [retry_loop]. unfold bind. rewrite post_after, Hret. reflexivity.
  - destruct remaining as [|k]; [simpl in Hlen; lia|].
    destruct (Hfail O e eq_refl) as [Hnet Hcls].
    rewrite Nat.add_0_r in Hnet.
    cbn [retry_loop]. unfold bind at 1. rewrite post_after, Hnet, Hcls.
    replace (retries <=? attempt + 1) with false
      by (symmetry; apply Z.leb_gt; simpl in Hlen; lia).
    unfold bind at 1. rewrite sleep_after, after_app. cbn [app].
    rewrite (IH k (attempt + 1) (Some e) _ payload).
    + rewrite after_app. reflexivity.
    + lia.
    + simpl in Hlen. lia.
    + now apply fails_with_tail.
    + unfold then_returns in *. simpl in *.
      now replace (posts w + 1 + length r)%nat
        with (posts w + S (length r))%nat by lia.
Qed.

(** Failures with [excs] and then with [e_last] at the last attempt that
    [retries] allows: the domain error is raised from [e_last], and no
    sleep follows the last attempt. *)
Lemma loop_gives_up excs : forall remaining attempt last_exc (w : world C) e_last,
  Z.of_nat remaining = retries - attempt ->
  remaining = S (length excs) ->
  fails_with w req (excs ++ [e_last]) ->
  loop remaining attempt last_exc w
  = (inl (Exc domain (transport_msg ++ str_of_exc e_last) (Some e_last)),
     after w (failed_attempts req excs attempt ++ [Post req (Raises e_last)])).
Proof.
  induction excs as [|e r IH]; intros remaining attempt last_exc w e_last
    Hrem Hlen Hfail; subst remaining.
  - destruct (Hfail O e_last eq_refl) as [Hnet Hcls].
    rewrite Nat.add_0_r in Hnet.
    cbn [retry_loop]. unfold bind. rewrite post_after, Hnet, Hcls.
    replace (retries <=? attempt + 1) with true
      by (symmetry; apply Z.leb_le; simpl in Hrem; lia).
    reflexivity.
  - destruct (Hfail O e eq_refl) as [Hnet Hcls].
    rewrite Nat.add_0_r in Hnet.
    cbn [length] in *. remember (S (length r)) as k eqn:Hk.
    cbn [retry_loop]. unfold bind at 1. rewrite post_after, Hnet, Hcls.
    replace (retries <=? attempt + 1) with false
      by (symmetry; apply Z.leb_gt; lia).
    unfold bind at 1. rewrite sleep_after, after_app. cbn [app].
    rewrite (IH k (attempt + 1) (Some e) _ e_last).
    + rewrite after_app. reflexivity.
    + lia.
    + reflexivity.
    + now apply (fails_with_tail w e (r ++ [e_last])).
Qed.

(** One iteration. *)
Lemma loop_unfold k attempt last_exc (w : world C) :
  loop (S k) attempt last_exc w
  = match net w (posts w) req with
    | Returns payload => (inr payload, after w [Post req (Returns payload)])
    | Raises exc =>
      match class_of exc with
      | RequestException =>
        if retries <=? attempt + 1
        then (inl (Exc domain (transport_msg ++ str_of_exc exc) (Some exc)),
              after w [Post req (Raises exc)])
        else loop k (attempt + 1) (Some exc)
                  (after w [Post req (Raises exc); Sleep (2 ^ attempt)])
      | ValueError =>
        (inl (Exc domain json_msg (Some exc)), after w [Post req (Raises exc)])
      | _ => (inl exc, after w [Post req (Raises exc)])
      end
    end.
Proof.
  cbn [retry_loop]. unfold bind at 1. rewrite post_after.
  destruct (net w (posts w) req) as [exc|payload]; [|reflexivity].
  destruct (class_of exc); try reflexivity.
  destruct (retries <=? attempt + 1); [reflexivity|].
  unfold bind. now rewrite sleep_after, after_app.
Qed.

(** Whatever the network does, the loop logs failed requests and sleeps,
    and then, exactly when it returns a payload, the one request that
    succeeded. *)
Lemma loop_shape remaining : forall attempt last_exc (w : world C),
  exists ext,
    snd (loop remaining attempt last_exc w) = after w ext
    /\ match fst (loop remaining attempt last_exc w) with
       | inr payload =>
         exists pre, ext = pre ++ [Post req (Returns payload)]
                     /\ Forall (failed_or_sleep req) pre
       | inl _ => Forall (failed_or_sleep req) ext
       end.
Proof.
  induction remaining as [|k IH]; intros attempt last_exc w.
  - exists []. cbn [retry_loop]. unfold raise. cbn [fst snd].
    now rewrite after_nil.
  - rewrite loop_unfold.
    destruct (net w (posts w) req) as [exc|payload] eqn:Hnet.
    + assert (Hone : Forall (failed_or_sleep req) [Post req (Raises exc)])
        by (repeat constructor).
      destruct (class_of exc);
        try (exists [Post req (Raises exc)]; cbn [fst snd];
             split; [reflexivity|exact Hone]).
      destruct (retries <=? attempt + 1).
      * exists [Post req (Raises exc)]. cbn [fst snd].
        split; [reflexivity|exact Hone].
      * destruct (IH (attempt + 1) (Some exc)
                     (after w [Post req (Raises exc); Sleep (2 ^ attempt)]))
          as (ext & Hw & Hshape).
        exists ([Post req (Raises exc); Sleep (2 ^ attempt)] ++ ext).
        rewrite Hw, after_app. split; [reflexivity|].
        destruct (fst (loop k (attempt + 1) (Some exc) _)) as [e|payload].
        -- apply Forall_app. split; [|exact Hshape].
           repeat constructor.
        -- destruct Hshape as (pre & -> & Hpre).
           exists ([Post req (Raises exc); Sleep (2 ^ attempt)] ++ pre).
           rewrite <- app_assoc. split; [reflexivity|].
           apply Forall_app. split; [|exact Hpre]. repeat constructor.
    + exists [Post req (Returns payload)]. cbn [fst snd].
      split; [reflexivity|]. exists []. split; [reflexivity|constructor].
Qed.

End Loop.
End RetryFacts.

(* ===================================================================== *)
(** * Properties of the two clients *)
(* ===================================================================== *)

Module ClientFacts.
Import PyStr Eff Http Retry PyObj BaiduOcr DeepSeek Examples RetryFacts.

Lemma bind_inr {S A B} (m : M S A) (k : A -> M S B) w a w1 :
  m w = (inr a, w1) -> bind m k w = k a w1.
Proof. unfold bind. now intros ->. Qed.

Lemma bind_inl {S A B} (m : M S A) (k : A -> M S B) w e w1 :
  m w = (inl e, w1) -> bind m k w = (inl e, w1).
Proof. unfold bind. now intros ->. Qed.

Lemma bind_lift {S A B} (r : exception + A) (k : A -> M S B) w :
  bind (lift r) k w = match r with inl e => (inl e, w) | inr a => k a w end.
Proof. unfold bind, lift. now destruct r. Qed.

Section Token.
Variable repr_json : json -> str.
Variable int_of_str : str -> option Z.

Local Abbreviation get_token := (_get_access_token repr_json int_of_str).

(** A good cached token is returned and nothing happens. *)
Lemma get_access_token_hit self_ (w : world _TokenCache) :
  cache_valid w = true ->
  get_token self_ w = (inr (token (self w)), w).
Proof.
  unfold cache_valid. intros Hhit. unfold _get_access_token.
  unfold bind, time, get_self. now rewrite Hhit.
Qed.

(** Without one, and with both keys, the call is the loop followed by the
    reading of the payload. *)
Lemma get_access_token_miss self_ (w : world _TokenCache) :
  cache_valid w = false ->
  _api_key self_ <> [] -> _secret_key self_ <> [] ->
  get_token self_ w
  = match retry_loop (token_request self_) (_retries self_) BaiduOcrError
            (u "获取 access_token 失败（网络超时/连接）：")
            (u "获取 access_token 失败：返回不是 JSON。")
            (u "获取 access_token 失败：")
            (Z.to_nat (_retries self_)) 0 None w with
    | (inl e, w1) => (inl e, w1)
    | (inr payload, w1) =>
      match py_get payload (u "access_token") JNull with
      | inl e => (inl e, w1)
      | inr token_ =>
        match py_get payload (u "expires_in") (JNum 0) with
        | inl e => (inl e, w1)
        | inr ttl =>
          match py_int int_of_str ttl with
          | inl e => (inl e, w1)
          | inr expires_in =>
            if truthy token_
            then (inr token_,
                  with_self w1
                    (mkTokenCache token_
                       (now w + inject_Z (Z.max 0 (expires_in - 60)))%Q))
            else (inl (Exc BaiduOcrError
                           (u "获取 access_token 失败：" ++ repr_json payload)
                           None), w1)
          end
        end
      end
    end.
Proof.
  unfold cache_valid. intros Hmiss Hk Hs. unfold _get_access_token.
  unfold bind at 1. unfold time at 1. unfold bind at 1. unfold get_self at 1.
  rewrite Hmiss.
  rewrite (bool_decide_eq_false_2 _ Hk), (bool_decide_eq_false_2 _ Hs).
  cbn [orb]. unfold bind at 1.
  destruct (retry_loop _ _ _ _ _ _ _ _ _ w) as [[e|payload] w1]; [reflexivity|].
  rewrite !bind_lift.
  destruct (py_get payload (u "access_token") JNull) as [e|token_]; [reflexivity|].
  rewrite !bind_lift.
  destruct (py_get payload (u "expires_in") (JNum 0)) as [e|ttl]; [reflexivity|].
  rewrite !bind_lift.
  destruct (py_int int_of_str ttl) as [e|expires_in]; [reflexivity|].
  destruct (truthy token_); reflexivity.
Qed.

End Token.

Lemma after_with_self {C} (w : world C) c ext :
  after (with_self w c) ext = with_self (after w ext) c.
Proof. reflexivity. Qed.

(** A request to an OCR endpoint is not a request to the token URL. *)
Lemma ocr_post_not_token token_ r o :
  ocr_post_or_sleep token_ (Post r o) -> req_url r <> token_url.
Proof.
  intros [[H|H] _] Heq; rewrite H in Heq; vm_compute in Heq; discriminate.
Qed.

Section Recognize.
Variable repr_json : json -> str.
Variable int_of_str : str -> option Z.
Variable b64encode : bytes -> str.
Variable pil_to_jpeg : bytes -> option bytes.

Local Abbreviation get_token := (_get_access_token repr_json int_of_str).
Local Abbreviation recognize_ :=
  (recognize repr_json int_of_str b64encode pil_to_jpeg).
Local Abbreviation recognize_with :=
  (recognize_with_token repr_json b64encode pil_to_jpeg).

Lemma failed_or_sleep_ocr self_ url token_ image_b64 language_type detect l :
  url = _OCR_ACCURATE_BASIC_URL \/ url = _OCR_GENERAL_BASIC_URL ->
  Forall (failed_or_sleep
            (ocr_request self_ url token_ image_b64 language_type detect)) l ->
  Forall (ocr_post_or_sleep token_) l.
Proof.
  intros Hurl Hl. eapply Forall_impl; [exact Hl|].
  intros [r [e|p]|s_]; simpl; try easy.
  intros ->. split; [exact Hurl|reflexivity].
Qed.

Lemma endpoint_url_cases endpoint url :
  endpoint_url endpoint = inr url ->
  url = _OCR_ACCURATE_BASIC_URL \/ url = _OCR_GENERAL_BASIC_URL.
Proof.
  unfold endpoint_url.
  destruct (bool_decide _); [intros [= <-]; now left|].
  destruct (bool_decide _); [intros [= <-]; now right|discriminate].
Qed.

(** After the token is there, only OCR requests that carry it are made. *)
Lemma recognize_with_token_log self_ token_ image_bytes endpoint language_type
    detect (w : world _TokenCache) :
  exists ext,
    snd (recognize_with self_ token_ image_bytes endpoint language_type detect w)
    = after w ext
    /\ Forall (ocr_post_or_sleep token_) ext.
Proof.
  unfold recognize_with_token. rewrite bind_lift.
  destruct (endpoint_url endpoint) as [e|url] eqn:Hurl.
  { exists []. rewrite after_nil. split; [reflexivity|constructor]. }
  apply endpoint_url_cases in Hurl. unfold bind.
  destruct (loop_shape
              (ocr_request self_ url token_
                 (b64encode (_maybe_compress_image_for_ocr pil_to_jpeg image_bytes))
                 language_type detect)
              (_retries self_) BaiduOcrError
              (u "OCR 请求失败（网络超时/连接）：")
              (u "OCR 失败：返回不是 JSON。")
              (u "OCR 请求失败：")
              (Z.to_nat (_retries self_)) 0 None w) as (ext & Hw & Hshape).
  destruct (retry_loop _ _ _ _ _ _ _ _ _ w) as [[e|payload] w1];
    cbn [fst snd] in *; exists ext.
  - split; [exact Hw|]. now apply failed_or_sleep_ocr in Hshape.
  - unfold lift. cbn [snd]. split; [exact Hw|].
    destruct Hshape as (pre & -> & Hpre).
    apply Forall_app. split; [now apply failed_or_sleep_ocr in Hpre|].
    constructor; [split; [exact Hurl|reflexivity]|constructor].
Qed.

Lemma token_posts_ocr token_ ext :
  Forall (ocr_post_or_sleep token_) ext -> token_posts ext = [].
Proof.
  unfold token_posts. induction 1 as [|e l He Hl IH]; [reflexivity|].
  destruct e as [r o|s_]; [|exact IH].
  cbn [posts_of flat_map app List.filter fst].
  rewrite bool_decide_eq_false_2 by (eapply ocr_post_not_token; exact He).
  exact IH.
Qed.

(** A token acquisition without a good cached token either fails, having
    sent nothing but token requests, or ends with the one token request
    that succeeded and caches what it returned. *)
Lemma get_access_token_shape self_ (w : world _TokenCache) :
  cache_valid w = false ->
  match fst (get_token self_ w) with
  | inl _ =>
    exists ext, snd (get_token self_ w) = after w ext
                /\ Forall (request_or_sleep (token_request self_)) ext
  | inr token_ =>
    exists pre payload ttl expires_in,
      snd (get_token self_ w)
      = with_self
          (after w (pre ++ [Post (token_request self_) (Returns payload)]))
          (mkTokenCache token_ (now w + inject_Z (Z.max 0 (expires_in - 60)))%Q)
      /\ Forall (failed_or_sleep (token_request self_)) pre
      /\ py_get payload (u "access_token") JNull = inr token_
      /\ truthy token_ = true
      /\ py_get payload (u "expires_in") (JNum 0) = inr ttl
      /\ py_int int_of_str ttl = inr expires_in
  end.
Proof.
  intros Hmiss.
  assert (Hweak : forall l, Forall (failed_or_sleep (token_request self_)) l ->
                            Forall (request_or_sleep (token_request self_)) l).
  { intros l Hl. eapply Forall_impl; [exact Hl|].
    intros [r [e|p]|s_]; simpl; easy. }
  destruct (decide (_api_key self_ = [])) as [Hk|Hk].
  { unfold _get_access_token, bind, time, get_self.
    unfold cache_valid in Hmiss. rewrite Hmiss.
    rewrite (bool_decide_eq_true_2 _ Hk). cbn [orb raise fst snd].
    exists []. rewrite after_nil. split; [reflexivity|constructor]. }
  destruct (decide (_secret_key self_ = [])) as [Hs|Hs].
  { unfold _get_access_token, bind, time, get_self.
    unfold cache_valid in Hmiss. rewrite Hmiss.
    rewrite (bool_decide_eq_true_2 _ Hs), orb_true_r. cbn [raise fst snd].
    exists []. rewrite after_nil. split; [reflexivity|constructor]. }
  rewrite get_access_token_miss by assumption.
  destruct (loop_shape (token_request self_) (_retries self_) BaiduOcrError
              (u "获取 access_token 失败（网络超时/连接）：")
              (u "获取 access_token 失败：返回不是 JSON。")
              (u "获取 access_token 失败：")
              (Z.to_nat (_retries self_)) 0 None w) as (ext & Hw & Hshape).
  destruct (retry_loop _ _ _ _ _ _ _ _ _ w) as [[e|payload] w1];
    cbn [fst snd] in *.
  { exists ext. split; [exact Hw|now apply Hweak]. }
  destruct Hshape as (pre & -> & Hpre).
  assert (Hall : Forall (request_or_sleep (token_request self_))
                   (pre ++ [Post (token_request self_) (Returns payload)])).
  { apply Forall_app. split; [now apply Hweak|]. now repeat constructor. }
  destruct (py_get payload (u "access_token") JNull) as [e|token_] eqn:Htok;
    cbn [fst snd]; [eauto|].
  destruct (py_get payload (u "expires_in") (JNum 0)) as [e|ttl] eqn:Httl;
    cbn [fst snd]; [eauto|].
  destruct (py_int int_of_str ttl) as [e|expires_in] eqn:Hint;
    cbn [fst snd]; [eauto|].
  destruct (truthy token_) eqn:Htruthy; cbn [fst snd]; [|eauto].
  exists pre, payload, ttl, expires_in. rewrite Hw.
  split; [reflexivity|]. auto 10.
Qed.

End Recognize.

(** C5. A recognition that starts with a good cached token (not empty, and
    the clock before the stored expiry) leaves the cache as it is and sends
    only OCR requests, each with the cached token: no request goes to the
    token URL. Otherwise either the token acquisition fails and nothing but
    token requests were sent (no OCR request), or exactly one token request
    succeeded, after failed ones only and before every OCR request; the
    OCR requests carry the new token, and the cache holds it with the
    expiry at the time of the call plus the larger of 0 and the reported
    lifetime minus 60. *)
Theorem token_cache_reuse_and_refresh
    repr_json int_of_str b64encode pil_to_jpeg self_ image_bytes endpoint
    language_type detect (w : world _TokenCache) :
  let result :=
    recognize repr_json int_of_str b64encode pil_to_jpeg self_ image_bytes
      endpoint language_type detect w in
  (cache_valid w = true ->
     exists ext,
       snd result = after w ext
       /\ self (snd result) = self w
       /\ Forall (ocr_post_or_sleep (token (self w))) ext
       /\ token_posts ext = [])
  /\ (cache_valid w = false ->
      (exists e ext,
          fst result = inl e
          /\ snd result = after w ext
          /\ Forall (request_or_sleep (token_request self_)) ext)
      \/ (exists token_ pre payload ttl expires_in ocr_ext,
            snd result
            = with_self
                (after w (pre ++ [Post (token_request self_) (Returns payload)]
                          ++ ocr_ext))
                (mkTokenCache token_
                   (now w + inject_Z (Z.max 0 (expires_in - 60)))%Q)
            /\ Forall (failed_or_sleep (token_request self_)) pre
            /\ py_get payload (u "access_token") JNull = inr token_
            /\ truthy token_ = true
            /\ py_get payload (u "expires_in") (JNum 0) = inr ttl
            /\ py_int int_of_str ttl = inr expires_in
            /\ 0 <= Z.max 0 (expires_in - 60)
            /\ Forall (ocr_post_or_sleep token_) ocr_ext)).
Proof.
  intros result. subst result. unfold recognize. split.
  - intros Hhit.
    rewrite (bind_inr _ _ w (token (self w)) w)
      by now apply get_access_token_hit.
    destruct (recognize_with_token_log repr_json b64encode pil_to_jpeg self_
                (token (self w)) image_bytes endpoint language_type detect w)
      as (ext & Hw & Hext).
    exists ext. rewrite Hw.
    split; [reflexivity|]. split; [reflexivity|]. split; [exact Hext|].
    now apply token_posts_ocr with (token_ := token (self w)).
  - intros Hmiss.
    pose proof (get_access_token_shape repr_json int_of_str self_ w Hmiss) as Hshape.
    destruct (_get_access_token repr_json int_of_str self_ w) as [[e|token_] w1] eqn:Hget;
      cbn [fst snd] in Hshape.
    + left. destruct Hshape as (ext & -> & Hext).
      exists e, ext. rewrite (bind_inl _ _ w e _ Hget). auto.
    + right. destruct Hshape as (pre & payload & ttl & expires_in & -> & Hpre
                                 & Htok & Htruthy & Httl & Hint).
      rewrite (bind_inr _ _ w token_ _ Hget).
      destruct (recognize_with_token_log repr_json b64encode pil_to_jpeg self_
                  token_ image_bytes endpoint language_type detect
                  (with_self
                     (after w (pre ++ [Post (token_request self_) (Returns payload)]))
                     (mkTokenCache token_
                        (now w + inject_Z (Z.max 0 (expires_in - 60)))%Q)))
        as (ocr_ext & Hw & Hocr).
      exists token_, pre, payload, ttl, expires_in, ocr_ext.
      rewrite Hw, after_with_self, after_app, <- app_assoc.
      repeat split; try assumption. lia.
Qed.

(** The theorem at two recognitions in a row: the first one, with an empty
    cache, fetches the token once; the second one, on the world left by the
    first, sends no token request. *)
Lemma token_cache_reuse_and_refresh_witness :
  (exists ext,
      snd (recognize repr_stub int_stub b64_stub jpeg_stub client3 [137%N]
             (u "accurate_basic") (u "CHN_ENG") true world_second)
      = after world_second ext
      /\ self (snd (recognize repr_stub int_stub b64_stub jpeg_stub client3
                      [137%N] (u "accurate_basic") (u "CHN_ENG") true
                      world_second))
         = self world_second
      /\ Forall (ocr_post_or_sleep (token (self world_second))) ext
      /\ token_posts ext = [])
  /\ length (token_posts (log world_second)) = 1%nat
  /\ self world_second = mkTokenCache (JStr (u "tok")) (0 + inject_Z 2591940)%Q.
Proof.
  split; [|split; vm_compute; reflexivity].
  apply (token_cache_reuse_and_refresh repr_stub int_stub b64_stub jpeg_stub
           client3 [137%N] (u "accurate_basic") (u "CHN_ENG") true world_second).
  vm_compute. reflexivity.
Defined.


Section Title.
Context {C : Type}.
Variable repr_json : json -> str.
Variable str_format : str -> str -> option str.

Local Abbreviation extract_title := (extract_title_sentence (C:=C) repr_json str_format).

(** With its preconditions met, the call is the loop followed by the
    reading of the payload. *)
Lemma extract_title_unfold
    api_key base_url model ocr_text system_prompt user_prompt_template
    timeout_s retries (w : world C) :
  strip api_key <> [] -> strip ocr_text <> [] ->
  strip system_prompt <> [] -> strip user_prompt_template <> [] ->
  extract_title api_key base_url model ocr_text system_prompt
    user_prompt_template timeout_s retries w
  = match retry_loop
            (title_request str_format api_key base_url model ocr_text
               system_prompt user_prompt_template timeout_s)
            (Z.max 1 retries) DeepSeekError
            (u "DeepSeek 请求失败（网络超时/连接）：")
            (u "DeepSeek 返回不是 JSON。")
            (u "DeepSeek 请求失败：")
            (Z.to_nat (Z.max 1 retries)) 0 None w with
    | (inl e, w1) => (inl e, w1)
    | (inr payload, w1) =>
      match content_of payload with
      | inl exc =>
        (inl (Exc DeepSeekError
                  (u "DeepSeek 返回格式异常：" ++ repr_json payload) (Some exc)),
         w1)
      | inr (JStr text) => (inr (clean_title text), w1)
      | inr content =>
        if truthy content then (inl (Exc AttributeError [] None), w1)
        else (inr (clean_title []), w1)
      end
    end.
Proof.
  intros Hk Ho Hs Hu. unfold extract_title_sentence.
  rewrite (bool_decide_eq_false_2 _ Hk), (bool_decide_eq_false_2 _ Ho),
          (bool_decide_eq_false_2 _ Hs), (bool_decide_eq_false_2 _ Hu).
  unfold bind, title_request.
  destruct (retry_loop _ _ _ _ _ _ _ _ _ w) as [[e|payload] w1]; [reflexivity|].
  destruct (content_of payload) as [exc|content]; [reflexivity|].
  destruct content; try reflexivity;
    unfold raise, ret; cbn [truthy]; repeat case_match; reflexivity.
Qed.

End Title.

(** C4. Both clients, for every number of attempts r (at least 1): when
    fewer than r requests fail with a [RequestException] and the next one
    succeeds (r - 1 failures being the most), the client returns the result
    of that request; when r requests fail so, it raises its domain error
    whose cause is the last exception. The log shows one sleep after each
    failed attempt but the last one allowed, of 1, 2, 4, ... seconds. *)
Theorem retry_with_backoff :
  (forall repr_json int_of_str self_ (w : world _TokenCache) excs,
      cache_valid w = false ->
      _api_key self_ <> [] -> _secret_key self_ <> [] ->
      (forall payload token_ ttl expires_in,
          Z.of_nat (length excs) < _retries self_ ->
          fails_with w (token_request self_) excs ->
          then_returns w (token_request self_) excs payload ->
          py_get payload (u "access_token") JNull = inr token_ ->
          truthy token_ = true ->
          py_get payload (u "expires_in") (JNum 0) = inr ttl ->
          py_int int_of_str ttl = inr expires_in ->
          _get_access_token repr_json int_of_str self_ w
          = (inr token_,
             with_self
               (after w (failed_attempts (token_request self_) excs 0
                         ++ [Post (token_request self_) (Returns payload)]))
               (mkTokenCache token_
                  (now w + inject_Z (Z.max 0 (expires_in - 60)))%Q)))
      /\ (forall e_last,
            Z.of_nat (length excs) + 1 = _retries self_ ->
            fails_with w (token_request self_) (excs ++ [e_last]) ->
            _get_access_token repr_json int_of_str self_ w
            = (inl (Exc BaiduOcrError
                        (u "获取 access_token 失败（网络超时/连接）："
                         ++ str_of_exc e_last) (Some e_last)),
               after w (failed_attempts (token_request self_) excs 0
                        ++ [Post (token_request self_) (Raises e_last)]))))
  /\ (forall (C : Type) repr_json str_format
             api_key base_url model ocr_text system_prompt user_prompt_template
             timeout_s retries (w : world C) excs,
        strip api_key <> [] -> strip ocr_text <> [] ->
        strip system_prompt <> [] -> strip user_prompt_template <> [] ->
        let req := title_request str_format api_key base_url model ocr_text
                     system_prompt user_prompt_template timeout_s in
        (forall payload text,
            Z.of_nat (length excs) < Z.max 1 retries ->
            fails_with w req excs ->
            then_returns w req excs payload ->
            content_of payload = inr (JStr text) ->
            extract_title_sentence repr_json str_format api_key base_url model
              ocr_text system_prompt user_prompt_template timeout_s retries w
            = (inr (clean_title text),
               after w (failed_attempts req excs 0
                        ++ [Post req (Returns payload)])))
        /\ (forall e_last,
              Z.of_nat (length excs) + 1 = Z.max 1 retries ->
              fails_with w req (excs ++ [e_last]) ->
              extract_title_sentence repr_json str_format api_key base_url model
                ocr_text system_prompt user_prompt_template timeout_s retries w
              = (inl (Exc DeepSeekError
                          (u "DeepSeek 请求失败（网络超时/连接）："
                           ++ str_of_exc e_last) (Some e_last)),
                 after w (failed_attempts req excs 0
                          ++ [Post req (Raises e_last)]))))
  /\ (forall req excs,
        sleeps_of (failed_attempts req excs 0) = backoff (length excs))
  /\ (forall n i, (i < n)%nat -> backoff n !! i = Some (2 ^ Z.of_nat i)).
Proof.
  split; [|split; [|split]].
  - intros repr_json int_of_str self_ w excs Hmiss Hk Hs. split.
    + intros payload token_ ttl expires_in Hlen Hfail Hret Htok Htruthy Httl Hint.
      rewrite get_access_token_miss by assumption.
      rewrite (loop_succeeds _ _ _ _ _ _ excs) with (payload := payload);
        [|lia|lia|assumption|assumption].
      now rewrite Htok, Httl, Hint, Htruthy.
    + intros e_last Hlen Hfail.
      rewrite get_access_token_miss by assumption.
      rewrite (loop_gives_up _ _ _ _ _ _ excs) with (e_last := e_last);
        [reflexivity|lia|lia|assumption].
  - intros C repr_json str_format api_key base_url model ocr_text system_prompt
      user_prompt_template timeout_s retries w excs Hk Ho Hs Hu req. split.
    + intros payload text Hlen Hfail Hret Hcontent.
      rewrite extract_title_unfold by assumption. fold req.
      rewrite (loop_succeeds _ _ _ _ _ _ excs) with (payload := payload);
        [|lia|lia|assumption|assumption].
      now rewrite Hcontent.
    + intros e_last Hlen Hfail.
      rewrite extract_title_unfold by assumption. fold req.
      rewrite (loop_gives_up _ _ _ _ _ _ excs) with (e_last := e_last);
        [reflexivity|lia|lia|assumption].
  - apply sleeps_backoff.
  - intros n i Hi. unfold backoff.
    rewrite list_lookup_fmap, lookup_seq_lt by exact Hi. reflexivity.
Qed.

(** Discharges [fails_with] on a concrete world and list of exceptions. *)
Ltac check_fails :=
  let i := fresh "i" in let e := fresh "e" in let Hi := fresh "Hi" in
  intros i e Hi;
  repeat (destruct i as [|i];
          [vm_compute in Hi; injection Hi as <-; split; reflexivity|]);
  vm_compute in Hi; discriminate Hi.

(** The theorem with three attempts: two timeouts and a success, and three
    timeouts, for each client. *)
Lemma retry_with_backoff_witness :
  (fst (_get_access_token repr_stub int_stub client3
          (fresh_world (net_fail_then 2 token_payload) empty_cache))
     = inr (JStr (u "tok"))
   /\ sleeps_of (log (snd (_get_access_token repr_stub int_stub client3
                  (fresh_world (net_fail_then 2 token_payload) empty_cache))))
      = [1; 2])
  /\ (fst (_get_access_token repr_stub int_stub client3
            (fresh_world (net_fail_then 3 token_payload) empty_cache))
       = inl (Exc BaiduOcrError
                  (u "获取 access_token 失败（网络超时/连接）：timed out")
                  (Some timeout_exc))
     /\ sleeps_of (log (snd (_get_access_token repr_stub int_stub client3
                    (fresh_world (net_fail_then 3 token_payload) empty_cache))))
        = [1; 2])
  /\ (fst (extract_title_sentence repr_stub format_stub
            (u "key") [] [] (u "ocr") (u "system") (u "user") 60 3
            (fresh_world (net_fail_then 2 (chat_payload (JStr quoted_title))) tt))
       = inr (u "今天天气真好"))
  /\ (fst (extract_title_sentence repr_stub format_stub
            (u "key") [] [] (u "ocr") (u "system") (u "user") 60 3
            (fresh_world (net_fail_then 3 (chat_payload (JStr quoted_title))) tt))
       = inl (Exc DeepSeekError
                  (u "DeepSeek 请求失败（网络超时/连接）：timed out")
                  (Some timeout_exc))).
Proof.
  destruct retry_with_backoff as (Htoken & Htitle & _ & _).
  split; [|split; [|split]].
  - destruct (Htoken repr_stub int_stub client3
                (fresh_world (net_fail_then 2 token_payload) empty_cache)
                (replicate 2 timeout_exc)) as [Hok _];
      [reflexivity|vm_compute; discriminate|vm_compute; discriminate|].
    rewrite (Hok token_payload (JStr (u "tok")) (JNum 2592000) 2592000);
      [split; vm_compute; reflexivity|vm_compute; reflexivity| |reflexivity
      |reflexivity|reflexivity|reflexivity|reflexivity].
    check_fails.
  - destruct (Htoken repr_stub int_stub client3
                (fresh_world (net_fail_then 3 token_payload) empty_cache)
                (replicate 2 timeout_exc)) as [_ Hfail];
      [reflexivity|vm_compute; discriminate|vm_compute; discriminate|].
    rewrite (Hfail timeout_exc);
      [split; vm_compute; reflexivity|reflexivity|].
    check_fails.
  - destruct (Htitle unit repr_stub format_stub
                (u "key") [] [] (u "ocr") (u "system") (u "user") 60 3
                (fresh_world (net_fail_then 2 (chat_payload (JStr quoted_title))) tt)
                (replicate 2 timeout_exc)) as [Hok _];
      try (vm_compute; discriminate).
    rewrite (Hok (chat_payload (JStr quoted_title)) quoted_title);
      [vm_compute; reflexivity|vm_compute; reflexivity| |reflexivity|reflexivity].
    check_fails.
  - destruct (Htitle unit repr_stub format_stub
                (u "key") [] [] (u "ocr") (u "system") (u "user") 60 3
                (fresh_world (net_fail_then 3 (chat_payload (JStr quoted_title))) tt)
                (replicate 2 timeout_exc)) as [_ Hfail];
      try (vm_compute; discriminate).
    rewrite (Hfail timeout_exc); [vm_compute; reflexivity|reflexivity|].
    check_fails.
Defined.

End ClientFacts.

(* ===================================================================== *)
(** * Properties of the batch worker *)
(* ===================================================================== *)

Module GuiFacts.
Import PyStr Eff Http PyObj Rename Config Gui Examples.

Lemma pick_loop_keeps fuel : forall parent_ stem_ suffix_ c f p f1,
  pick_loop fuel parent_ stem_ suffix_ c f = Some (p, f1) ->
  files f1 = files f /\ rename_log f1 = rename_log f.
Proof.
  induction fuel as [|fuel IH]; intros parent_ stem_ suffix_ c f p f1;
    [discriminate|].
  cbn [pick_loop]. unfold exists_.
  destruct (negb (bool_decide _)).
  - intros [= <- <-]. auto.
  - intros H. apply IH in H. exact H.
Qed.

Lemma pick_keeps fuel target ignore f p f1 :
  pick_non_conflicting_path fuel target ignore f = Some (p, f1) ->
  files f1 = files f /\ rename_log f1 = rename_log f.
Proof.
  unfold pick_non_conflicting_path, exists_.
  destruct (bool_decide (ignore = Some target)); [intros [= <- <-]; auto|].
  cbv beta iota. destruct (negb (bool_decide _)); [intros [= <- <-]; auto|].
  intros H. apply pick_loop_keeps in H. exact H.
Qed.

Lemma pick_path_keeps target f :
  files (snd (pick_path target f)) = files f
  /\ rename_log (snd (pick_path target f)) = rename_log f.
Proof.
  unfold pick_path.
  destruct (pick_non_conflicting_path _ target None f) as [[p f1]|] eqn:H;
    [|auto].
  apply pick_keeps in H. exact H.
Qed.

Section Worker.
Variable image : Type.
Variable pil_open : bytes -> exception + image.
Variable decode_utf8_replace : bytes -> str.
Variable repr_json : json -> str.
Variable int_of_str : str -> option Z.
Variable b64encode : bytes -> str.
Variable pil_to_jpeg : bytes -> option bytes.
Variable str_format : str -> str -> option str.
Variable format_exc : exception -> str.
Variable stop_is_set : nat -> bool.

Local Abbreviation state := (Gui.state image).
Local Abbreviation event := (Gui.event image).

Section Preserves.
Variable R : state -> state -> Prop.
Hypothesis R_refl : forall s, R s s.
Hypothesis R_trans : forall a b c, R a b -> R b c -> R a c.

Lemma preserves_ret {A} (a : A) : preserves image R (ret a).
Proof using R_refl. intros s. apply R_refl. Qed.

Lemma preserves_raise {A} e : preserves image R (raise (A:=A) e).
Proof using R_refl. intros s. apply R_refl. Qed.

Lemma preserves_lift {A} (r : exception + A) : preserves image R (lift r).
Proof using R_refl. intros s. apply R_refl. Qed.

Lemma preserves_bind {A B} (m : M state A) (k : A -> M state B) :
  preserves image R m -> (forall a, preserves image R (k a)) ->
  preserves image R (bind m k).
Proof using R_trans.
  intros Hm Hk s. unfold bind. specialize (Hm s).
  destruct (m s) as [[e|a] s1]; cbn [snd] in *; [exact Hm|].
  eapply R_trans; [exact Hm|apply Hk].
Qed.

Lemma preserves_try {A} (m : M state A) (h : exception -> M state A) :
  preserves image R m -> (forall e, preserves image R (h e)) ->
  preserves image R (try_except m h).
Proof using R_trans.
  intros Hm Hh s. unfold try_except. specialize (Hm s).
  destruct (m s) as [[e|a] s1]; cbn [snd] in *; [|exact Hm].
  eapply R_trans; [exact Hm|apply Hh].
Qed.

End Preserves.

(** ** The two relations *)

Lemma appends_refl P (s : state) : appends image P s s.
Proof. exists []. now rewrite app_nil_r. Qed.

Lemma appends_trans P (a b c : state) :
  appends image P a b -> appends image P b c -> appends image P a c.
Proof.
  intros (e1 & H1 & P1) (e2 & H2 & P2). exists (e1 ++ e2).
  rewrite H2, H1, <- app_assoc. split; [reflexivity|]. now apply Forall_app.
Qed.

Lemma keeps_refl (s : state) : keeps_files image s s.
Proof. now split. Qed.

Lemma keeps_trans (a b c : state) :
  keeps_files image a b -> keeps_files image b c -> keeps_files image a c.
Proof. intros [H1 H2] [H3 H4]. split; congruence. Qed.

Lemma appends_same P (s s' : state) :
  queue image s' = queue image s -> appends image P s s'.
Proof. intros H. exists []. now rewrite app_nil_r. Qed.

(** ** The steps of a worker *)

Lemma put_appends P ev : P ev -> preserves image (appends image P) (put image ev).
Proof. intros Hev s. exists [ev]. split; [reflexivity|]. now constructor. Qed.

Lemma put_keeps ev : preserves image (keeps_files image) (put image ev).
Proof. intros s. now split. Qed.

Lemma set_stage_appends P n : preserves image (appends image P) (set_stage image n).
Proof. intros s. now apply appends_same. Qed.

Lemma set_stage_keeps n : preserves image (keeps_files image) (set_stage image n).
Proof. intros s. now split. Qed.

Lemma get_stage_appends P : preserves image (appends image P) (get_stage image).
Proof. intros s. now apply appends_same. Qed.

Lemma get_stage_keeps : preserves image (keeps_files image) (get_stage image).
Proof. intros s. now split. Qed.

Lemma in_http_appends {A} P (m : Client BaiduOcr._TokenCache A) :
  preserves image (appends image P) (in_http image m).
Proof.
  intros s. unfold in_http. destruct (m (http image s)) as [r w].
  now apply appends_same.
Qed.

Lemma in_http_keeps {A} (m : Client BaiduOcr._TokenCache A) :
  preserves image (keeps_files image) (in_http image m).
Proof.
  intros s. unfold in_http. destruct (m (http image s)) as [r w]. now split.
Qed.

Lemma in_video_appends {A} P (m : M Video.world A) :
  preserves image (appends image P) (in_video image m).
Proof.
  intros s. unfold in_video. destruct (m (video image s)) as [r w].
  now apply appends_same.
Qed.

Lemma in_video_keeps {A} (m : M Video.world A) :
  preserves image (keeps_files image) (in_video image m).
Proof.
  intros s. unfold in_video. destruct (m (video image s)) as [r w]. now split.
Qed.

Lemma in_fs_appends {A} P (m : M FS A) :
  preserves image (appends image P) (in_fs image m).
Proof.
  intros s. unfold in_fs. destruct (m (fs image s)) as [r w].
  now apply appends_same.
Qed.

Lemma pick_path_keeps_files target :
  preserves image (keeps_files image) (in_fs image (pick_path target)).
Proof.
  intros s. unfold in_fs.
  pose proof (pick_path_keeps target (fs image s)) as H.
  destruct (pick_path target (fs image s)) as [r f]. exact H.
Qed.

(** The status strings of [_run_worker] are not the preview status. *)
Lemma worker_statuses :
  u "读取帧…" <> status_preview /\ u "OCR…" <> status_preview
  /\ u "DeepSeek…" <> status_preview /\ status_done <> status_preview.
Proof. repeat split; vm_compute; discriminate. Qed.

Local Abbreviation item :=
  (worker_item image pil_open decode_utf8_replace repr_json int_of_str
     b64encode pil_to_jpeg str_format format_exc).

Ltac step_appends :=
  repeat first
    [ apply preserves_bind; [apply appends_trans| |intros ?]
    | apply preserves_try; [apply appends_trans| |intros ?]
    | apply preserves_ret; apply appends_refl
    | apply preserves_lift; apply appends_refl
    | apply set_stage_appends
    | apply get_stage_appends
    | apply in_http_appends
    | apply in_video_appends
    | apply in_fs_appends
    | apply put_appends; cbn [not_preview]; try exact I
    | match goal with |- preserves _ _ (if ?b then _ else _) => destruct b end ].

(** [_run_worker] never puts the preview status on the queue. *)
Lemma worker_item_never_previews cfg ocr_client offset row :
  preserves image (appends image (not_preview image))
    (item cfg ocr_client offset row).
Proof.
  destruct worker_statuses as (H1 & H2 & H3 & H4).
  unfold worker_item. step_appends; assumption.
Qed.

Lemma worker_loop_never_previews cfg ocr_client rows : forall offset,
  preserves image (appends image (not_preview image))
    (worker_loop image pil_open decode_utf8_replace repr_json int_of_str
       b64encode pil_to_jpeg str_format format_exc stop_is_set
       cfg ocr_client offset rows).
Proof.
  induction rows as [|row rest IH]; intros offset; cbn [worker_loop].
  - apply preserves_ret, appends_refl.
  - destruct (stop_is_set offset); [apply preserves_ret, appends_refl|].
    apply preserves_bind; [apply appends_trans| |intros _; apply IH].
    apply worker_item_never_previews.
Qed.

Lemma run_worker_never_previews cfg rows :
  preserves image (appends image (not_preview image))
    (_run_worker image pil_open decode_utf8_replace repr_json int_of_str
       b64encode pil_to_jpeg str_format format_exc stop_is_set cfg rows).
Proof.
  unfold _run_worker.
  destruct (BaiduOcr.__init__ _ _ _ _) as [ocr_client cache].
  apply preserves_bind; [apply appends_trans|apply in_http_appends|intros _].
  apply preserves_bind;
    [apply appends_trans|apply worker_loop_never_previews|intros _].
  apply put_appends. exact I.
Qed.

Ltac step_keeps :=
  repeat first
    [ apply preserves_bind; [apply keeps_trans| |intros ?]
    | apply preserves_try; [apply keeps_trans| |intros ?]
    | apply preserves_ret; apply keeps_refl
    | apply preserves_lift; apply keeps_refl
    | apply set_stage_keeps
    | apply get_stage_keeps
    | apply in_http_keeps
    | apply in_video_keeps
    | apply pick_path_keeps_files
    | apply put_keeps
    | match goal with |- preserves _ _ (if ?b then _ else _) => destruct b end ].

(** A dry run of [_run_worker] renames nothing. *)
Lemma worker_item_dry_keeps cfg ocr_client offset row :
  dry_run cfg = true ->
  preserves image (keeps_files image) (item cfg ocr_client offset row).
Proof.
  intros Hdry. unfold worker_item. rewrite Hdry. cbn [negb]. step_keeps.
Qed.

Lemma run_worker_dry_keeps cfg rows :
  dry_run cfg = true ->
  preserves image (keeps_files image)
    (_run_worker image pil_open decode_utf8_replace repr_json int_of_str
       b64encode pil_to_jpeg str_format format_exc stop_is_set cfg rows).
Proof.
  intros Hdry. unfold _run_worker.
  destruct (BaiduOcr.__init__ _ _ _ _) as [ocr_client cache].
  apply preserves_bind; [apply keeps_trans|apply in_http_keeps|intros _].
  apply preserves_bind; [apply keeps_trans| |intros _; apply put_keeps].
  generalize O. induction rows as [|row rest IH]; intros offset;
    cbn [worker_loop].
  - apply preserves_ret, keeps_refl.
  - destruct (stop_is_set offset); [apply preserves_ret, keeps_refl|].
    apply preserves_bind; [apply keeps_trans| |intros _; apply IH].
    now apply worker_item_dry_keeps.
Qed.

End Worker.

(** C3. [_run_worker] never reports the preview status, whatever the
    configuration: every status event that it puts on the queue is one of
    its stage statuses or "done". On the batch of one video, the dry run
    goes through the same events as the live run up to the proposed title
    and name, renames nothing, and then reports "done" for the source
    path; [_run_rename_all] on the same batch reports "preview". *)
Theorem run_worker_dry_run_reports_done :
  (forall image pil_open decode_utf8_replace repr_json int_of_str b64encode
          pil_to_jpeg str_format format_exc stop_is_set cfg rows s,
      appends image (not_preview image) s
        (snd (_run_worker image pil_open decode_utf8_replace repr_json
                int_of_str b64encode pil_to_jpeg str_format format_exc
                stop_is_set cfg rows s)))
  /\ queue unit (run_worker_on true)
     = [ EvStatus unit (file "v.mp4") (u "读取帧…");
         EvPreview unit (file "v.mp4") tt;
         EvStatus unit (file "v.mp4") (u "OCR…");
         EvOcr unit (file "v.mp4") (u "第一关" ++ newline ++ u "跳过去");
         EvStatus unit (file "v.mp4") (u "DeepSeek…");
         EvTitle unit (file "v.mp4") (u "今天天气真好") (u "001-今天天气真好.mp4");
         EvStatus unit (file "v.mp4") status_done;
         EvProgress unit 1;
         EvDone unit (u "处理结束。") ]
  /\ queue unit (run_worker_on false)
     = [ EvStatus unit (file "v.mp4") (u "读取帧…");
         EvPreview unit (file "v.mp4") tt;
         EvStatus unit (file "v.mp4") (u "OCR…");
         EvOcr unit (file "v.mp4") (u "第一关" ++ newline ++ u "跳过去");
         EvStatus unit (file "v.mp4") (u "DeepSeek…");
         EvTitle unit (file "v.mp4") (u "今天天气真好") (u "001-今天天气真好.mp4");
         EvRenamed unit (file "v.mp4") (file "001-今天天气真好.mp4");
         EvStatus unit (file "001-今天天气真好.mp4") status_done;
         EvProgress unit 1;
         EvDone unit (u "处理结束。") ]
  /\ rename_log (fs unit (run_worker_on true)) = []
  /\ files (fs unit (run_worker_on true)) = {[ file "v.mp4" ]}
  /\ rename_log (fs unit (run_worker_on false))
     = [ (file "v.mp4", file "001-今天天气真好.mp4") ]
  /\ queue unit (run_rename_all_on true)
     = [ EvTitle unit (file "v.mp4") (u "今天天气真好") (u "001-今天天气真好.mp4");
         EvStatus unit (file "v.mp4") status_preview;
         EvProgress unit 1;
         EvDone unit (u "重命名结束。") ]
  /\ status_done <> status_preview.
Proof.
  split.
  { intros. apply run_worker_never_previews. }
  repeat split; try (vm_compute; reflexivity).
  vm_compute. discriminate.
Qed.

End GuiFacts.

(* ===================================================================== *)
(** * More about rename.py *)
(* ===================================================================== *)

Module SanitizeFacts.
Import PyStr Eff Rename StrFacts RenameFacts RenameSpec.

(** ** Stripping keeps what holds of every character *)

Lemma lstrip_by_Forall (P : N -> Prop) p s :
  Forall P s -> Forall P (lstrip_by p s).
Proof.
  induction 1 as [|c r Hc Hr IH]; simpl; [constructor|].
  destruct (p c); [exact IH|now constructor].
Qed.

Lemma rstrip_by_Forall (P : N -> Prop) p s :
  Forall P s -> Forall P (rstrip_by p s).
Proof.
  intros H. unfold rstrip_by. apply List.Forall_rev, lstrip_by_Forall.
  now apply List.Forall_rev.
Qed.

Lemma strip_by_Forall (P : N -> Prop) p s :
  Forall P s -> Forall P (strip_by p s).
Proof. intros H. now apply rstrip_by_Forall, lstrip_by_Forall. Qed.

Lemma lstrip_by_length p s : (length (lstrip_by p s) <= length s)%nat.
Proof.
  induction s as [|c r IH]; simpl; [lia|]. destruct (p c); simpl; lia.
Qed.

Lemma rstrip_by_length p s : (length (rstrip_by p s) <= length s)%nat.
Proof.
  unfold rstrip_by. rewrite length_rev.
  etransitivity; [apply lstrip_by_length|]. now rewrite length_rev.
Qed.

(** A string whose first and last characters are kept is not changed. *)
Lemma rstrip_by_fix p s :
  match rev s with [] => True | c :: _ => p c = false end ->
  rstrip_by p s = s.
Proof.
  unfold rstrip_by. intros H. destruct (rev s) as [|c r] eqn:E.
  - simpl. apply (f_equal (@rev N)) in E. now rewrite rev_involutive in E.
  - simpl. rewrite H. rewrite <- E. apply rev_involutive.
Qed.

Lemma strip_by_fix p s :
  match s with [] => True | c :: _ => p c = false end ->
  match rev s with [] => True | c :: _ => p c = false end ->
  strip_by p s = s.
Proof.
  intros Hhd Hlast. unfold strip_by.
  replace (lstrip_by p s) with s; [now apply rstrip_by_fix|].
  destruct s as [|c r]; [reflexivity|]. simpl. now rewrite Hhd.
Qed.

(** The first character of a right-stripped string is that of the string. *)
Lemma rstrip_by_head p c r :
  p c = false -> exists r', rstrip_by p (c :: r) = c :: r'.
Proof.
  intros Hc. destruct (rstrip_by_spec p (c :: r)) as (b & Hs & Hb & _).
  destruct (rstrip_by p (c :: r)) as [|d r'] eqn:E.
  - simpl in Hs. subst b. inversion Hb; congruence.
  - injection Hs as <- _. eauto.
Qed.

(** ** The steps of the sanitizer *)

(** After the whitespace runs are collapsed, the only whitespace left is
    the space. *)
Lemma sub_space_runs_spaces s : forall in_run,
  Forall (fun c => isspace c = true -> c = 32%N) (sub_space_runs in_run s).
Proof.
  induction s as [|c r IH]; intros in_run; simpl; [constructor|].
  destruct (isspace c) eqn:Hc.
  - destruct in_run; [apply IH|]. constructor; [reflexivity|apply IH].
  - constructor; [congruence|apply IH].
Qed.

Lemma sub_class_space_clean s :
  Forall (fun c => isspace c = true -> c = 32%N) s ->
  Forall clean_char (sub_class_space (class_matches _WINDOWS_INVALID_CHARS_RE) s).
Proof.
  intros H. unfold sub_class_space. apply Forall_map.
  eapply Forall_impl; [exact H|]. intros c Hc. cbv beta.
  destruct (class_matches _WINDOWS_INVALID_CHARS_RE c) eqn:E.
  - split; [reflexivity|auto].
  - split; [exact E|exact Hc].
Qed.

(** The cleaned text before the fallback and the truncation: its
    characters are let through, and it neither starts nor ends with a space
    or a dot. *)
Lemma cleaned_shape text :
  let cleaned :=
    strip (strip_chars (u " .")
      (sub_class_space (class_matches _WINDOWS_INVALID_CHARS_RE)
         (sub_space_runs false (strip (replace_char 8203 (u " ") text))))) in
  Forall clean_char cleaned
  /\ match cleaned with
     | [] => True
     | c :: _ => isspace c = false /\ c <> 46%N
     end
  /\ match rev cleaned with
     | [] => True
     | c :: _ => isspace c = false /\ c <> 46%N
     end.
Proof.
  set (b := sub_class_space _ _).
  assert (Hb : Forall clean_char b)
    by apply sub_class_space_clean, sub_space_runs_spaces.
  set (d := strip_chars (u " .") b).
  assert (Hd : Forall clean_char d) by now apply strip_by_Forall.
  destruct (strip_by_spec (mem_char (u " .")) b)
    as (_ & _ & _ & _ & _ & Hhd & Hlast).
  fold (strip_chars (u " .") b) in Hhd, Hlast. fold d in Hhd, Hlast.
  assert (Hedge : forall c, clean_char c -> mem_char (u " .") c = false ->
                            isspace c = false /\ c <> 46%N).
  { intros c [_ Hsp] Hmem. split.
    - destruct (isspace c) eqn:E; [|reflexivity].
      rewrite (Hsp eq_refl) in Hmem. discriminate.
    - intros ->. discriminate. }
  assert (Hhd' : match d with [] => True
                 | c :: _ => isspace c = false /\ c <> 46%N end).
  { destruct d as [|c r]; [exact I|]. inversion Hd; subst. auto. }
  assert (Hlast' : match rev d with [] => True
                   | c :: _ => isspace c = false /\ c <> 46%N end).
  { destruct (rev d) as [|c r] eqn:E; [exact I|].
    apply Hedge; [|exact Hlast].
    apply List.Forall_rev in Hd. rewrite E in Hd. now inversion Hd. }
  cbv zeta. unfold strip. rewrite strip_by_fix.
  - auto.
  - destruct d; [exact I|tauto].
  - destruct (rev d); [exact I|tauto].
Qed.

(** The truncation cuts at [max_len] and the strip after it only
    shortens. *)
Lemma sanitize_length_le text fallback max_len :
  0 <= max_len ->
  Z.of_nat (length (sanitize_filename_component text fallback max_len)) <= max_len.
Proof.
  intros Hmax. unfold sanitize_filename_component.
  match goal with |- context [if max_len <? Z.of_nat (length ?c) then _ else _] =>
    set (cleaned := c) end.
  destruct (max_len <? Z.of_nat (length cleaned)) eqn:E.
  - unfold rstrip, slice_to.
    replace (max_len <? 0) with false by (symmetry; apply Z.ltb_ge; lia).
    pose proof (rstrip_by_length isspace (take (Z.to_nat max_len) cleaned)) as H.
    rewrite length_take in H. lia.
  - apply Z.ltb_ge in E. exact E.
Qed.

(** X1. The sanitized component is never longer than [max_len], for a
    bound that is not negative. *)
Theorem sanitize_length_bound text fallback max_len :
  0 <= max_len ->
  Z.of_nat (length (sanitize_filename_component text fallback max_len)) <= max_len.
Proof. apply sanitize_length_le. Qed.

Lemma sanitize_length_bound_witness :
  Z.of_nat (length (sanitize_filename_component
                      (u "a very long title . that goes on") (u "x") 10)) <= 10.
Proof. apply sanitize_length_bound. lia. Defined.

Lemma fallback_well_shaped text :
  let cleaned :=
    strip (strip_chars (u " .")
      (sub_class_space (class_matches _WINDOWS_INVALID_CHARS_RE)
         (sub_space_runs false (strip (replace_char 8203 (u " ") text))))) in
  well_shaped match cleaned with [] => default_fallback | _ => cleaned end.
Proof.
  destruct (cleaned_shape text) as (Hall & Hhd & Hlast). cbv zeta in *.
  destruct (strip (strip_chars _ _)) as [|c r].
  - split; [vm_compute; repeat constructor; discriminate|].
    split; [|reflexivity].
    eexists _, _. split; [vm_compute; reflexivity|].
    split; [reflexivity|discriminate].
  - split; [exact Hall|]. split; [exists c, r; tauto|].
    destruct (rev (c :: r)); [exact I|tauto].
Qed.

Lemma truncate_well_shaped f :
  well_shaped f ->
  well_shaped (if default_max_len <? Z.of_nat (length f)
               then rstrip (slice_to default_max_len f) else f).
Proof.
  intros Hf. destruct (default_max_len <? Z.of_nat (length f)); [|exact Hf].
  destruct Hf as (Hall & (c & r & -> & Hc & Hdot) & _).
  unfold slice_to, default_max_len, rstrip.
  change (80 <? 0) with false. cbv iota.
  change (Z.to_nat 80) with (S 79). cbn [take].
  destruct (rstrip_by_head isspace c (take 79 r) Hc) as (r' & Hr).
  split; [|split].
  - apply rstrip_by_Forall. inversion Hall; subst.
    constructor; [assumption|now apply Forall_take].
  - rewrite Hr. eauto.
  - destruct (rstrip_by_spec isspace (c :: take 79 r)) as (b & _ & _ & Hl).
    exact Hl.
Qed.

(** The sanitized title under the defaults is well shaped. *)
Lemma sanitize_default_well_shaped text :
  well_shaped (sanitize_filename_component text default_fallback default_max_len).
Proof.
  unfold sanitize_filename_component.
  apply (truncate_well_shaped _ (fallback_well_shaped text)).
Qed.

(** X2. With the defaults that [build_target_path] uses, the sanitized
    title is never empty, has at most 80 characters, holds no character of
    the class of [_WINDOWS_INVALID_CHARS_RE] and no whitespace but the
    space, does not start with a space or a dot, and does not end with
    whitespace. *)
Theorem sanitize_default_invariant text :
  let t := sanitize_filename_component text default_fallback default_max_len in
  t <> []
  /\ (length t <= 80)%nat
  /\ Forall clean_char t
  /\ match t with
     | [] => True
     | c :: _ => isspace c = false /\ c <> 46%N
     end
  /\ match rev t with
     | [] => True
     | c :: _ => isspace c = false
     end.
Proof.
  intros t.
  assert (Hlen : Z.of_nat (length t) <= 80)
    by (apply (sanitize_length_le text default_fallback 80); lia).
  destruct (sanitize_default_well_shaped text)
    as (Hall & (c & r & Heq & Hc & Hdot) & Hlast).
  fold t in Hall, Heq, Hlast. rewrite Heq in *.
  split; [discriminate|]. split; [lia|]. split; [exact Hall|].
  split; [auto|exact Hlast].
Qed.

End SanitizeFacts.

Module BuildTargetFacts.
Import PyStr Eff Rename StrFacts RenameFacts RenameSpec SanitizeFacts.

(** ** The decimal rendering holds digits and a sign only *)

Lemma string_of_uint_digits d :
  Forall digit_or_minus (ascii_codes (NilEmpty.string_of_uint d)).
Proof.
  induction d; simpl; try constructor; try exact IHd;
    left; reflexivity.
Qed.

Lemma str_of_int_chars z : Forall digit_or_minus (str_of_int z).
Proof.
  unfold str_of_int, NilZero.string_of_int, NilZero.string_of_uint.
  destruct (Z.to_int z) as [d|d].
  - destruct d; try apply string_of_uint_digits.
    repeat constructor.
  - change (ascii_codes (String "-" ?s)) with (45%N :: ascii_codes s).
    constructor; [now right|].
    destruct d; try apply string_of_uint_digits. repeat constructor.
Qed.

Lemma zfill_chars width s :
  Forall digit_or_minus s -> Forall digit_or_minus (zfill width s).
Proof.
  intros Hs. unfold zfill.
  assert (Hz : forall n, Forall digit_or_minus (repeat 48%N n)).
  { intros n. apply Forall_forall. intros c Hc.
    apply list_elem_of_In, repeat_spec in Hc. subst. now left. }
  destruct s as [|c r]; [apply Hz|].
  inversion Hs; subst.
  destruct (is_sign c).
  - constructor; [assumption|]. apply Forall_app. auto.
  - apply Forall_app. auto.
Qed.

(** ** Suffixes *)

Lemma rfind_dot_some s : forall i,
  rfind_dot s = Some i ->
  exists rest, drop i s = 46%N :: rest /\ rfind_dot rest = None
               /\ length s = (i + 1 + length rest)%nat.
Proof.
  induction s as [|c r IH]; intros i; simpl; [discriminate|].
  destruct (rfind_dot r) as [j|] eqn:Hr.
  - intros [= <-]. destruct (IH j eq_refl) as (rest & Hd & Hn & Hl).
    exists rest. simpl. rewrite Hl. auto.
  - destruct (N.eqb_spec c 46); [|discriminate].
    intros [= <-]. subst c. exists r. simpl. auto.
Qed.

Lemma rfind_dot_app pre rest :
  rfind_dot rest = None ->
  rfind_dot (pre ++ 46%N :: rest) = Some (length pre).
Proof.
  intros Hrest. induction pre as [|c pre IH]; simpl.
  - now rewrite Hrest.
  - now rewrite IH.
Qed.

(** The suffix of a name stays the suffix when text is put in front. *)
Lemma suffix_index_app pre n i :
  pre <> [] -> suffix_index n = Some i ->
  suffix_index (pre ++ drop i n) = Some (length pre).
Proof.
  intros Hpre. unfold suffix_index.
  destruct (rfind_dot n) as [j|] eqn:Hj; [|discriminate].
  destruct ((0 <? j)%nat && (j <? length n - 1)%nat) eqn:Hc; [|discriminate].
  intros [= <-]. apply andb_true_iff in Hc as [H0 H1].
  apply Nat.ltb_lt in H0, H1.
  destruct (rfind_dot_some n j Hj) as (rest & Hd & Hn & Hl).
  rewrite Hd, rfind_dot_app by exact Hn.
  rewrite length_app. cbn [length].
  replace ((0 <? length pre)%nat) with true
    by (symmetry; apply Nat.ltb_lt; destruct pre; [congruence|simpl; lia]).
  replace ((length pre <? length pre + S (length rest) - 1)%nat) with true
    by (symmetry; apply Nat.ltb_lt; lia).
  reflexivity.
Qed.

Lemma name_joinpath q n : name (joinpath q n) = n.
Proof. unfold name, joinpath. cbn [tail]. apply last_last. Qed.

Lemma parent_joinpath q n : parent (joinpath q n) = q.
Proof.
  unfold parent, joinpath. cbn [tail root]. rewrite removelast_last.
  now destruct q.
Qed.

Lemma clean_not_slash c : clean_char c -> c <> 47%N.
Proof. intros [H _] ->. vm_compute in H. discriminate. Qed.

(** X3. For a source path that has a name (without a separator in it),
    [build_target_path] does not raise: the target is in the directory of
    the source, its name is the padded index, a hyphen, the sanitized title
    and the suffix of the source, and a source with a suffix gives a target
    with the same suffix. A source path without a name raises
    [ValueError]. *)
Theorem build_target_path_same_directory src_path index index_padding title :
  (name src_path <> [] -> 47%N ∉ name src_path ->
   exists p,
     build_target_path src_path index index_padding title = inr p
     /\ parent p = parent src_path
     /\ name p = target_name src_path index index_padding title
     /\ (suffix src_path <> [] -> suffix p = suffix src_path))
  /\ (name src_path = [] ->
      build_target_path src_path index index_padding title
      = inl (Exc ValueError [] None)).
Proof.
  unfold build_target_path, with_name. fold (target_name src_path index index_padding title).
  split.
  - intros Hname Hsep.
    destruct (name src_path) as [|n0 nr] eqn:En; [congruence|]. rewrite <- En in *.
    set (prefix := zfill (Z.max 1 index_padding) (str_of_int index)).
    set (safe := sanitize_filename_component title default_fallback default_max_len).
    assert (Hno : Forall (fun c => c <> 47%N) (target_name src_path index index_padding title)).
    { unfold target_name. fold prefix safe. rewrite !Forall_app. repeat split.
      - eapply Forall_impl; [apply zfill_chars, str_of_int_chars|].
        intros c [Hc|Hc] Heq; subst c; [vm_compute in Hc|]; discriminate.
      - repeat constructor. vm_compute. discriminate.
      - destruct (sanitize_default_well_shaped title) as (Hclean & _).
        eapply Forall_impl; [exact Hclean|]. apply clean_not_slash.
      - apply Forall_forall. intros c Hc ->. apply Hsep.
        unfold suffix in Hc. destruct (suffix_index (name src_path)) as [i|];
          [|now apply not_elem_of_nil in Hc].
        apply list_elem_of_In. apply list_elem_of_In in Hc.
        rewrite <- (take_drop i (name src_path)). apply in_or_app. now right. }
    assert (Hshape : exists pre, pre <> []
              /\ target_name src_path index index_padding title
                 = pre ++ suffix src_path).
    { exists (prefix ++ u "-" ++ safe). split.
      - destruct prefix; discriminate.
      - unfold target_name. fold prefix safe. now rewrite <- !app_assoc. }
    destruct Hshape as (pre & Hpre & Htn).
    rewrite bool_decide_eq_false_2
      by (rewrite Htn; destruct pre; [congruence|discriminate]).
    rewrite bool_decide_eq_false_2.
    2:{ unfold target_name. fold prefix safe. intros Heq.
        apply (f_equal length) in Heq. rewrite !length_app in Heq.
        change (length (u "-")) with 1%nat in Heq.
        change (length (u ".")) with 1%nat in Heq.
        destruct (sanitize_default_well_shaped title)
          as (_ & (c0 & r0 & Hsafe & _) & _).
        fold safe in Hsafe. rewrite Hsafe in Heq. simpl in Heq. lia. }
    replace (mem_char (target_name src_path index index_padding title) 47)
      with false.
    2:{ symmetry. apply not_true_is_false. unfold mem_char.
        rewrite existsb_exists. intros (c & Hin & Hc).
        apply N.eqb_eq in Hc. subst c.
        rewrite Forall_forall in Hno.
        apply (Hno 47%N); [now apply list_elem_of_In|reflexivity]. }
    cbn [orb]. eexists. split; [reflexivity|].
    rewrite parent_joinpath.
    split; [reflexivity|]. split; [apply name_joinpath|].
    intros Hsfx. unfold suffix at 1. rewrite name_joinpath, Htn.
    unfold suffix in *.
    destruct (suffix_index (name src_path)) as [i|] eqn:Ei; [|congruence].
    rewrite (suffix_index_app pre (name src_path) i Hpre Ei).
    now rewrite drop_app_length.
  - intros ->. reflexivity.
Qed.

(** The theorem at the source a/b.mp4. *)
Lemma build_target_path_same_directory_witness :
  exists p,
    build_target_path (mkPath [] [u "a"; u "b.mp4"]) 7 3 (u "Hello: World")
    = inr p
    /\ parent p = parent (mkPath [] [u "a"; u "b.mp4"])
    /\ name p = target_name (mkPath [] [u "a"; u "b.mp4"]) 7 3 (u "Hello: World")
    /\ (suffix (mkPath [] [u "a"; u "b.mp4"]) <> [] ->
        suffix p = suffix (mkPath [] [u "a"; u "b.mp4"])).
Proof.
  apply (proj1 (build_target_path_same_directory
                  (mkPath [] [u "a"; u "b.mp4"]) 7 3 (u "Hello: World"))).
  - vm_compute. discriminate.
  - vm_compute. intros H. repeat (inversion H as [|? ? ? H']; clear H; rename H' into H).
Defined.

End BuildTargetFacts.

(* ===================================================================== *)
(** * More about the scanner *)
(* ===================================================================== *)

Module ScanMoreFacts.
Import PyStr Eff Rename Scan ScanFacts ScanSpec.

(** ** The sort is a permutation *)






(** ** The order of strings *)






(** ** Keys of names without a backslash *)




(** ** The insertion keeps a sorted list sorted *)






End ScanMoreFacts.

(* ===================================================================== *)
(** * Further properties of the retry loop and of the title client *)
(* ===================================================================== *)

Module RetryMoreFacts.
Import PyStr Eff Http Retry RetryFacts RetrySpec.

Lemma posts_failed_attempts req excs : forall attempt,
  posts_of (failed_attempts req excs attempt) = map (fun e => (req, Raises e)) excs.
Proof.
  induction excs as [|e r IH]; intros attempt; [reflexivity|].
  cbn [failed_attempts posts_of flat_map app map]. f_equal. apply IH.
Qed.

Lemma posts_of_app a b : posts_of (a ++ b) = posts_of a ++ posts_of b.
Proof. apply flat_map_app. Qed.

Lemma sleeps_of_app a b : sleeps_of (a ++ b) = sleeps_of a ++ sleeps_of b.
Proof. apply flat_map_app. Qed.

(** The log of a run of the loop: its requests and its sleeps. *)
Lemma trace_posts req excs o :
  length (posts_of (failed_attempts req excs 0 ++ [Post req o])) = S (length excs).
Proof.
  rewrite posts_of_app, posts_failed_attempts, length_app, length_map.
  simpl. lia.
Qed.

Lemma trace_sleeps req excs o :
  sleeps_of (failed_attempts req excs 0 ++ [Post req o]) = backoff (length excs).
Proof.
  rewrite sleeps_of_app, sleeps_backoff. simpl. apply app_nil_r.
Qed.

Lemma trace_requests req excs o : forall attempt,
  Forall (request_or_sleep req) (failed_attempts req excs attempt ++ [Post req o]).
Proof.
  induction excs as [|e r IH]; intros attempt.
  - repeat constructor.
  - cbn [failed_attempts app]. constructor; [reflexivity|].
    constructor; [exact I|]. apply IH.
Qed.

Section Loop.
Context {C : Type}.
Variable req : request.
Variable retries : Z.
Variable domain : exc_class.
Variables transport_msg json_msg exhausted_msg : str.

Local Abbreviation loop :=
  (retry_loop (C:=C) req retries domain transport_msg json_msg exhausted_msg).

Lemma fails_with_cons (w : world C) e excs attempt :
  net w (posts w) req = Raises e -> class_of e = RequestException ->
  fails_with (after w [Post req (Raises e); Sleep (2 ^ attempt)]) req excs ->
  fails_with w req (e :: excs).
Proof.
  intros Hnet Hcls H [|i] e' Hi.
  - injection Hi as <-. now rewrite Nat.add_0_r.
  - specialize (H i e' Hi). simpl in H.
    now replace (posts w + S i)%nat with (posts w + 1 + i)%nat by lia.
Qed.

(** Whatever the network does, a loop that is entered with as many
    iterations left as [retries] allows ends at a request: the earlier
    ones failed with a [RequestException] and were each followed by a
    sleep; the last one returned the result, or raised what the loop
    raises in turn. *)
Lemma loop_trace remaining : forall attempt last_exc (w : world C),
  Z.of_nat (S remaining) = retries - attempt ->
  exists excs o,
    snd (loop (S remaining) attempt last_exc w)
    = after w (failed_attempts req excs attempt ++ [Post req o])
    /\ (length excs <= remaining)%nat
    /\ fails_with w req excs
    /\ net w (posts w + length excs)%nat req = o
    /\ fst (loop (S remaining) attempt last_exc w)
       = match o with
         | Returns payload => inr payload
         | Raises e => inl (raised_for domain transport_msg json_msg e)
         end.
Proof.
  induction remaining as [|k IH]; intros attempt last_exc w Hrem;
    rewrite loop_unfold.
  - exists [], (net w (posts w) req). cbn [failed_attempts app length].
    rewrite Nat.add_0_r.
    replace (retries <=? attempt + 1) with true by (symmetry; apply Z.leb_le; lia).
    unfold raised_for.
    destruct (net w (posts w) req) as [exc|payload];
      [destruct (class_of exc)|]; cbn [fst snd];
      (split; [reflexivity|]); (split; [lia|]);
      (split; [intros i e Hi; discriminate Hi|]); split; reflexivity.
  - destruct (net w (posts w) req) as [exc|payload] eqn:Hnet.
    + destruct (class_of exc) eqn:Hcls;
        try (exists [], (Raises exc); cbn [failed_attempts app length fst snd];
             rewrite Nat.add_0_r; unfold raised_for; rewrite Hcls;
             (split; [reflexivity|]); (split; [lia|]);
             (split; [intros i e Hi; discriminate Hi|]);
             split; [exact Hnet|reflexivity]).
      replace (retries <=? attempt + 1) with false
        by (symmetry; apply Z.leb_gt; lia).
      destruct (IH (attempt + 1) (Some exc)
                   (after w [Post req (Raises exc); Sleep (2 ^ attempt)]))
        as (excs & o & Hw & Hlen & Hfail & Ho & Hres); [lia|].
      exists (exc :: excs), o. rewrite Hw, Hres, after_app.
      cbn [failed_attempts app length].
      split; [reflexivity|]. split; [lia|].
      split; [now apply fails_with_cons with (attempt := attempt)|].
      split; [|reflexivity].
      simpl in Ho.
      now replace (posts w + S (length excs))%nat
        with (posts w + 1 + length excs)%nat by lia.
    + exists [], (Returns payload). cbn [failed_attempts app length fst snd].
      rewrite Nat.add_0_r.
      split; [reflexivity|]. split; [lia|].
      split; [intros i e Hi; discriminate Hi|]. split; [exact Hnet|reflexivity].
Qed.


End Loop.
End RetryMoreFacts.

Module TitleMoreFacts.
Import PyStr Eff Http Retry PyObj BaiduOcr DeepSeek Examples MoreExamples.
Import RetryFacts ClientFacts RetrySpec RetryMoreFacts.

Section Title.
Context {C : Type}.
Variable repr_json : json -> str.
Variable str_format : str -> str -> option str.

Local Abbreviation extract_title :=
  (extract_title_sentence (C:=C) repr_json str_format).

(** A blank argument: the call raises before anything is sent. *)
Lemma extract_title_blank
    api_key base_url model ocr_text system_prompt user_prompt_template
    timeout_s retries (w : world C) :
  strip api_key = [] \/ strip ocr_text = []
  \/ strip system_prompt = [] \/ strip user_prompt_template = [] ->
  exists msg,
    extract_title api_key base_url model ocr_text system_prompt
      user_prompt_template timeout_s retries w
    = (inl (Exc DeepSeekError msg None), w).
Proof.
  intros Hblank. unfold extract_title_sentence.
  destruct (decide (strip api_key = [])) as [Hk|Hk];
    [rewrite (bool_decide_eq_true_2 _ Hk); eexists; reflexivity|].
  rewrite (bool_decide_eq_false_2 _ Hk).
  destruct (decide (strip ocr_text = [])) as [Ho|Ho];
    [rewrite (bool_decide_eq_true_2 _ Ho); eexists; reflexivity|].
  rewrite (bool_decide_eq_false_2 _ Ho).
  destruct (decide (strip system_prompt = [])) as [Hs|Hs];
    [rewrite (bool_decide_eq_true_2 _ Hs); eexists; reflexivity|].
  rewrite (bool_decide_eq_false_2 _ Hs).
  destruct (decide (strip user_prompt_template = [])) as [Hu|Hu];
    [rewrite (bool_decide_eq_true_2 _ Hu); eexists; reflexivity|].
  tauto.
Qed.

(** With its four texts not blank, the call is a run of the loop that
    ends at a request, followed by the reading of the payload. *)
Lemma extract_title_trace
    api_key base_url model ocr_text system_prompt user_prompt_template
    timeout_s retries (w : world C) :
  strip api_key <> [] -> strip ocr_text <> [] ->
  strip system_prompt <> [] -> strip user_prompt_template <> [] ->
  let req := title_request str_format api_key base_url model ocr_text
               system_prompt user_prompt_template timeout_s in
  let result := extract_title api_key base_url model ocr_text system_prompt
                  user_prompt_template timeout_s retries w in
  exists excs o,
    snd result = after w (failed_attempts req excs 0 ++ [Post req o])
    /\ Z.of_nat (length excs) < Z.max 1 retries
    /\ net w (posts w + length excs)%nat req = o
    /\ fst result
       = match o with
         | Raises e =>
           inl (raised_for DeepSeekError
                  (u "DeepSeek 请求失败（网络超时/连接）：")
                  (u "DeepSeek 返回不是 JSON。") e)
         | Returns payload =>
           match content_of payload with
           | inl exc =>
             inl (Exc DeepSeekError
                      (u "DeepSeek 返回格式异常：" ++ repr_json payload) (Some exc))
           | inr (JStr text) => inr (clean_title text)
           | inr content =>
             if truthy content then inl (Exc AttributeError [] None)
             else inr (clean_title [])
           end
         end.
Proof.
  intros Hk Ho Hs Hu req result. subst result.
  rewrite extract_title_unfold by assumption. fold req.
  destruct (Z.to_nat (Z.max 1 retries)) as [|k] eqn:Hn; [lia|].
  destruct (loop_trace req (Z.max 1 retries) DeepSeekError
              (u "DeepSeek 请求失败（网络超时/连接）：")
              (u "DeepSeek 返回不是 JSON。")
              (u "DeepSeek 请求失败：") k 0 None w)
    as (excs & o & Hw & Hlen & _ & Hnet & Hres); [lia|].
  exists excs, o.
  destruct (retry_loop _ _ _ _ _ _ _ _ _ w) as [[e|payload] w1];
    cbn [fst snd] in Hw, Hres; subst w1.
  - cbn [fst snd]. split; [reflexivity|]. split; [lia|]. split; [exact Hnet|].
    destruct o; [now injection Hres as ->|discriminate].
  - destruct o as [e|p]; [discriminate|]. injection Hres as <-.
    split; [|split; [lia|split; [exact Hnet|]]].
    + destruct (content_of payload) as [exc|[]]; try reflexivity;
        cbn [truthy]; repeat case_match; reflexivity.
    + destruct (content_of payload) as [exc|[]]; try reflexivity;
        cbn [truthy]; repeat case_match; reflexivity.
Qed.

End Title.

(** X6. Whatever the network answers, [extract_title_sentence] sends
    nothing but its one request, at most max(1, retries) times, and sleeps
    only between two requests, 1, 2, 4, ... seconds; it sends no request
    at all exactly when the key, the OCR text, the system prompt or the
    user prompt template is blank. *)
Theorem extract_title_requests (C : Type) repr_json str_format
    api_key base_url model ocr_text system_prompt user_prompt_template
    timeout_s retries (w : world C) :
  let req := title_request str_format api_key base_url model ocr_text
               system_prompt user_prompt_template timeout_s in
  let result := extract_title_sentence repr_json str_format api_key base_url
                  model ocr_text system_prompt user_prompt_template
                  timeout_s retries w in
  exists ext,
    snd result = after w ext
    /\ Forall (request_or_sleep req) ext
    /\ Z.of_nat (length (posts_of ext)) <= Z.max 1 retries
    /\ sleeps_of ext = backoff (length (posts_of ext) - 1)
    /\ (posts_of ext = [] <->
        strip api_key = [] \/ strip ocr_text = []
        \/ strip system_prompt = [] \/ strip user_prompt_template = []).
Proof.
  intros req result.
  destruct (decide (strip api_key = [] \/ strip ocr_text = []
                    \/ strip system_prompt = []
                    \/ strip user_prompt_template = [])) as [Hblank|Hfull].
  - destruct (extract_title_blank repr_json str_format api_key base_url model
                ocr_text system_prompt user_prompt_template timeout_s retries
                w Hblank) as [msg Hres].
    exists []. subst result. rewrite Hres, after_nil. cbn [fst snd].
    split; [reflexivity|]. split; [constructor|]. split; [simpl; lia|].
    split; [reflexivity|]. tauto.
  - destruct (extract_title_trace repr_json str_format api_key base_url model
                ocr_text system_prompt user_prompt_template timeout_s retries w)
      as (excs & o & Hw & Hlen & _); try tauto.
    exists (failed_attempts req excs 0 ++ [Post req o]).
    split; [exact Hw|]. split; [apply trace_requests|].
    rewrite trace_posts, trace_sleeps. split; [lia|].
    split; [f_equal; lia|].
    split; [|tauto]. intros Hnone.
    pose proof (trace_posts req excs o) as Hone. rewrite Hnone in Hone.
    discriminate.
Qed.

(** X7. The errors of [extract_title_sentence] on a network that raises
    only [RequestException] and [ValueError]: a [DeepSeekError], or an
    [AttributeError] that is not wrapped, raised when the reply holds a
    content that is true and not a string. *)
Theorem extract_title_errors (C : Type) repr_json str_format
    api_key base_url model ocr_text system_prompt user_prompt_template
    timeout_s retries (w : world C) e :
  let req := title_request str_format api_key base_url model ocr_text
               system_prompt user_prompt_template timeout_s in
  let result := extract_title_sentence repr_json str_format api_key base_url
                  model ocr_text system_prompt user_prompt_template
                  timeout_s retries w in
  (forall k r exc, net w k r = Raises exc ->
     class_of exc = RequestException \/ class_of exc = ValueError) ->
  fst result = inl e ->
  class_of e = DeepSeekError
  \/ (e = Exc AttributeError [] None
      /\ exists payload content,
           In (Post req (Returns payload)) (log (snd result))
           /\ content_of payload = inr content
           /\ truthy content = true /\ is_JStr content = false).
Proof.
  intros req result Hnet He.
  destruct (decide (strip api_key = [] \/ strip ocr_text = []
                    \/ strip system_prompt = []
                    \/ strip user_prompt_template = [])) as [Hblank|Hfull].
  - destruct (extract_title_blank repr_json str_format api_key base_url model
                ocr_text system_prompt user_prompt_template timeout_s retries
                w Hblank) as [msg Hres].
    subst result. rewrite Hres in He. injection He as <-. now left.
  - destruct (extract_title_trace repr_json str_format api_key base_url model
                ocr_text system_prompt user_prompt_template timeout_s retries w)
      as (excs & o & Hw & Hlen & Ho & Hres); try tauto.
    fold req in Hw, Ho, Hres. fold result in Hw, Hres.
    rewrite Hres in He. destruct o as [exc|payload].
    + injection He as <-. left. unfold raised_for.
      destruct (Hnet _ _ _ Ho) as [-> | ->]; reflexivity.
    + destruct (content_of payload) as [exc|content] eqn:Hcontent.
      { injection He as <-. now left. }
      right.
      assert (Hin : In (Post req (Returns payload)) (log (snd result))).
      { rewrite Hw. unfold after. cbn [log]. rewrite !in_app_iff.
        right. right. now left. }
      destruct content; try discriminate He;
        match type of He with
        | (if ?b then _ else _) = _ =>
          destruct b eqn:Hb; [injection He as <-|discriminate He]
        end;
        (split; [reflexivity|]); eexists _, _;
        (split; [exact Hin|]); (split; [exact Hcontent|]);
        (split; [exact Hb|reflexivity]).
Qed.

(** The theorem on a service that answers with the number 5 as content. *)
Lemma extract_title_errors_witness :
  fst (extract_title_sentence repr_stub format_stub
         (u "key") [] [] (u "ocr") (u "system") (u "user") 60 2
         world_number_content)
  = inl (Exc AttributeError [] None)
  /\ (class_of (Exc AttributeError [] None) = DeepSeekError
      \/ (Exc AttributeError [] None = Exc AttributeError [] None
          /\ exists payload content,
               In (Post (title_request format_stub (u "key") [] [] (u "ocr")
                           (u "system") (u "user") 60) (Returns payload))
                  (log (snd (extract_title_sentence repr_stub format_stub
                               (u "key") [] [] (u "ocr") (u "system") (u "user")
                               60 2 world_number_content)))
               /\ content_of payload = inr content
               /\ truthy content = true /\ is_JStr content = false)).
Proof.
  split; [vm_compute; reflexivity|].
  apply (extract_title_errors unit repr_stub format_stub
           (u "key") [] [] (u "ocr") (u "system") (u "user") 60 2
           world_number_content).
  - intros k r exc H. vm_compute in H. discriminate H.
  - vm_compute. reflexivity.
Defined.



End TitleMoreFacts.

(* ===================================================================== *)
(** * Further properties of the title clean-up *)
(* ===================================================================== *)

Module CleanTitleFacts.
Import PyStr Eff DeepSeek StrFacts SanitizeFacts TitleSpec.

Lemma part_of_refl s : part_of s s.
Proof. exists [], []. now rewrite app_nil_r. Qed.

Lemma part_of_nil s : part_of [] s.
Proof. exists [], s. reflexivity. Qed.

Lemma part_of_trans a b c : part_of a b -> part_of b c -> part_of a c.
Proof.
  intros (p1 & q1 & ->) (p2 & q2 & ->).
  exists (p2 ++ p1), (q1 ++ q2). now rewrite <- !app_assoc.
Qed.

Lemma part_of_Forall (P : N -> Prop) t s :
  part_of t s -> Forall P s -> Forall P t.
Proof.
  intros (pre & post & ->) H.
  apply Forall_app in H as [_ H]. now apply Forall_app in H as [H _].
Qed.

Lemma part_of_suffix pre t : part_of t (pre ++ t).
Proof. exists pre, []. now rewrite app_nil_r. Qed.

Lemma lstrip_by_part p s : part_of (lstrip_by p s) s.
Proof.
  destruct (lstrip_by_spec p s) as (a & Hs & _).
  exists a, []. now rewrite app_nil_r.
Qed.

Lemma strip_by_part p s : part_of (strip_by p s) s.
Proof.
  destruct (strip_by_spec p s) as (a & b & Hs & _). now exists a, b.
Qed.

(** A stripped string is not changed by another strip. *)
Lemma strip_by_idem p s : strip_by p (strip_by p s) = strip_by p s.
Proof.
  destruct (strip_by_spec p s) as (a & b & _ & _ & _ & Hhd & Hlast).
  now apply strip_by_fix.
Qed.

(** ** splitlines *)

(** A line boundary closes the current line; a line feed after a carriage
    return belongs to the same boundary. *)
Lemma splitlines_aux_break cur c r :
  is_linebreak c = true ->
  exists r', splitlines_aux cur (c :: r) = rev cur :: splitlines_aux [] r'
             /\ (r' = r \/ r = 10%N :: r').
Proof.
  intros Hc. cbn [splitlines_aux]. rewrite Hc. clear Hc.
  destruct c as [|p]; [eexists; split; [reflexivity|now left]|].
  do 4 (try (destruct p as [p|p|];
             try solve [eexists; split; [reflexivity|now left]])).
  destruct r as [|d r']; [eexists; split; [reflexivity|now left]|].
  destruct d as [|q]; [eexists; split; [reflexivity|now left]|].
  do 4 (try (destruct q as [q|q|];
             try solve [eexists; split; [reflexivity|now left]])).
  eexists; split; [reflexivity|now right].
Qed.

Lemma splitlines_aux_lines s : forall cur l,
  one_line cur -> In l (splitlines_aux cur s) ->
  part_of l (rev cur ++ s) /\ one_line l.
Proof.
  induction s as [|c r IH]; intros cur l Hcur Hin.
  - destruct cur as [|c0 cur0]; [destruct Hin|].
    destruct Hin as [<-|[]]. rewrite app_nil_r.
    split; [apply part_of_refl|now apply List.Forall_rev].
  - destruct (is_linebreak c) eqn:Hc.
    + destruct (splitlines_aux_break cur c r Hc) as (r' & Heq & Hr').
      rewrite Heq in Hin. destruct Hin as [<-|Hin].
      * split; [|now apply List.Forall_rev].
        exists [], (c :: r). reflexivity.
      * assert (Hin' : In l (splitlines_aux [] r)).
        { destruct Hr' as [->| ->]; [exact Hin|]. now right. }
        destruct (IH [] l (List.Forall_nil _) Hin') as [Hpart Hline].
        split; [|exact Hline].
        eapply part_of_trans; [exact Hpart|].
        replace (rev cur ++ c :: r) with ((rev cur ++ [c]) ++ r)
          by (now rewrite <- app_assoc).
        apply part_of_suffix.
    + cbn [splitlines_aux] in Hin. rewrite Hc in Hin.
      destruct (IH (c :: cur) l) as [Hpart Hline];
        [now constructor|exact Hin|].
      split; [|exact Hline].
      cbn [rev] in Hpart. now rewrite <- app_assoc in Hpart.
Qed.

(** The first non-empty line is a stripped line of the text, or empty. *)
Lemma first_non_empty_line_part text :
  part_of (_first_non_empty_line text) text
  /\ one_line (_first_non_empty_line text).
Proof.
  unfold _first_non_empty_line.
  destruct (List.filter _ _) as [|x rest] eqn:E;
    [split; [apply part_of_nil|constructor]|].
  assert (Hx : In x (map strip (splitlines text))).
  { assert (Hx : In x (x :: rest)) by now left.
    rewrite <- E in Hx. now apply filter_In in Hx. }
  apply in_map_iff in Hx as (l & <- & Hl).
  destruct (splitlines_aux_lines text [] l (List.Forall_nil _) Hl) as [Hpart Hline].
  assert (Hs : part_of (strip l) text).
  { eapply part_of_trans; [apply strip_by_part|exact Hpart]. }
  split; [exact Hs|].
  eapply part_of_Forall; [apply strip_by_part|exact Hline].
Qed.

(** ** The label *)

Lemma ci_strip_prefix_suffix pat : forall s r,
  ci_strip_prefix pat s = Some r -> part_of r s.
Proof.
  induction pat as [|p pat IH]; intros s r H.
  - destruct s; injection H as <-; apply part_of_refl.
  - destruct s as [|c s']; [discriminate|]. cbn [ci_strip_prefix] in H.
    destruct (ci_match p c); [|discriminate].
    eapply part_of_trans; [exact (IH _ _ H)|].
    apply (part_of_suffix [c]).
Qed.

Lemma strip_label_part title : part_of (strip_label title) title.
Proof.
  unfold strip_label.
  set (after_label := match ci_strip_prefix (u "标题") title with
                      | Some r => Some r
                      | None => ci_strip_prefix (u "title") title
                      end).
  assert (H : forall r, after_label = Some r -> part_of r title).
  { subst after_label. intros r.
    destruct (ci_strip_prefix (u "标题") title) eqn:E1.
    - intros [= <-]. eapply ci_strip_prefix_suffix, E1.
    - intros E2. eapply ci_strip_prefix_suffix, E2. }
  destruct after_label as [[|c r]|]; try apply part_of_refl.
  destruct (colon_or_space c); [|apply part_of_refl].
  eapply part_of_trans; [apply lstrip_by_part|].
  eapply part_of_trans; [apply (part_of_suffix [c])|].
  now apply H.
Qed.

(** X9. The title that [extract_title_sentence] makes of a content is a
    run of consecutive characters of that content, holds no line boundary,
    and neither starts nor ends with whitespace. *)
Theorem clean_title_single_line content :
  part_of (clean_title content) content
  /\ one_line (clean_title content)
  /\ strip (clean_title content) = clean_title content.
Proof.
  destruct (first_non_empty_line_part content) as [Hpart Hline].
  assert (Hrest : part_of (clean_title content) (_first_non_empty_line content)).
  { unfold clean_title, strip_quotes.
    eapply part_of_trans; [apply strip_by_part|].
    eapply part_of_trans; [apply strip_label_part|].
    eapply part_of_trans; [apply strip_by_part|].
    apply strip_by_part. }
  split; [eapply part_of_trans; [exact Hrest|exact Hpart]|].
  split; [eapply part_of_Forall; [exact Hrest|exact Hline]|].
  unfold clean_title, strip. apply strip_by_idem.
Qed.

End CleanTitleFacts.

(* ===================================================================== *)
(** * Further properties of the OCR client *)
(* ===================================================================== *)

Module OcrMoreFacts.
Import PyStr Eff Http Retry PyObj BaiduOcr Examples MoreExamples.
Import StrFacts SanitizeFacts CleanTitleFacts.
Import RetryFacts ClientFacts RetrySpec RetryMoreFacts OcrSpec.

(** ** The clock *)

Lemma Qle_plus_nonneg (t : Q) (z : Z) : 0 <= z -> (t <= t + inject_Z z)%Q.
Proof.
  intros Hz. rewrite <- (Qplus_0_r t) at 1. apply Qplus_le_r.
  change 0%Q with (inject_Z 0). now rewrite <- Zle_Qle.
Qed.

Lemma clock_after_failed req excs : forall attempt (t : Q),
  0 <= attempt ->
  (t <= clock_after t (failed_attempts req excs attempt))%Q.
Proof.
  induction excs as [|e r IH]; intros attempt t Ha.
  - apply Qle_refl.
  - cbn [failed_attempts clock_after fold_left].
    eapply Qle_trans; [apply (Qle_plus_nonneg t (2 ^ attempt)); lia|].
    apply IH. lia.
Qed.

Lemma clock_after_trace req excs o (t : Q) :
  (t <= clock_after t (failed_attempts req excs 0 ++ [Post req o]))%Q.
Proof.
  unfold clock_after. rewrite fold_left_app. cbn [fold_left].
  now apply clock_after_failed.
Qed.

Section Token.
Variable repr_json : json -> str.
Variable int_of_str : str -> option Z.

Local Abbreviation get_token := (_get_access_token repr_json int_of_str).

(** A call without a good cached token and without one of the keys. *)
Lemma get_access_token_no_key self_ (w : world _TokenCache) :
  cache_valid w = false ->
  _api_key self_ = [] \/ _secret_key self_ = [] ->
  get_token self_ w
  = (inl (Exc BaiduOcrError (u "缺少百度 OCR 的 API Key / Secret Key。") None), w).
Proof.
  unfold cache_valid. intros Hmiss Hkey.
  unfold _get_access_token, bind, time, get_self. rewrite Hmiss.
  destruct Hkey as [Hk|Hs].
  - now rewrite (bool_decide_eq_true_2 _ Hk).
  - now rewrite (bool_decide_eq_true_2 _ Hs), orb_true_r.
Qed.

(** A call without a good cached token, with both keys: the requests and
    sleeps of one run of the loop, and the cache written from the payload
    when the token is returned. *)
Lemma get_access_token_trace self_ (w : world _TokenCache) :
  cache_valid w = false ->
  _api_key self_ <> [] -> _secret_key self_ <> [] ->
  exists ext,
    (ext = []
     \/ exists excs o, ext = failed_attempts (token_request self_) excs 0
                             ++ [Post (token_request self_) o]
                      /\ net w (posts w + length excs)%nat (token_request self_) = o
                      /\ (length excs < Z.to_nat (_retries self_))%nat)
    /\ match fst (get_token self_ w) with
       | inl _ => snd (get_token self_ w) = after w ext
       | inr token_ =>
         exists (excs : list exception) payload ttl expires_in,
           net w (posts w + length excs)%nat (token_request self_)
           = Returns payload
           /\ py_get payload (u "expires_in") (JNum 0) = inr ttl
           /\ py_int int_of_str ttl = inr expires_in
           /\ snd (get_token self_ w)
              = with_self (after w ext)
                  (mkTokenCache token_
                     (now w + inject_Z (Z.max 0 (expires_in - 60)))%Q)
       end.
Proof.
  intros Hmiss Hk Hs. rewrite get_access_token_miss by assumption.
  destruct (Z.to_nat (_retries self_)) as [|k] eqn:Hn.
  { exists []. split; [now left|]. cbn [retry_loop]. unfold raise.
    cbn [fst snd]. now rewrite after_nil. }
  destruct (loop_trace (token_request self_) (_retries self_) BaiduOcrError
              (u "获取 access_token 失败（网络超时/连接）：")
              (u "获取 access_token 失败：返回不是 JSON。")
              (u "获取 access_token 失败：") k 0 None w)
    as (excs & o & Hw & Hlen & _ & Hnet & Hres); [lia|].
  exists (failed_attempts (token_request self_) excs 0
          ++ [Post (token_request self_) o]).
  split; [right; exists excs, o; repeat split; [exact Hnet|lia]|].
  destruct (retry_loop _ _ _ _ _ _ _ _ _ w) as [[e|payload] w1];
    cbn [fst snd] in Hw, Hres; subst w1; [reflexivity|].
  destruct o as [e|p]; [discriminate|]. injection Hres as <-.
  destruct (py_get payload (u "access_token") JNull) as [e|token_];
    [reflexivity|].
  destruct (py_get payload (u "expires_in") (JNum 0)) as [e|ttl] eqn:Httl;
    [reflexivity|].
  destruct (py_int int_of_str ttl) as [e|expires_in] eqn:Hint; [reflexivity|].
  destruct (truthy token_); [|reflexivity]. cbn [fst snd].
  exists excs, payload, ttl, expires_in. auto.
Qed.

End Token.



(** X11. A token that the service issues with a lifetime of at most 60
    seconds, or with none, is stored as already expired: when every token
    payload is such, a call that starts without a good cached token leaves
    no good cached token, so the next call asks the service again. *)
Theorem short_lived_token_not_reused repr_json int_of_str self_
    (w : world _TokenCache) :
  cache_valid w = false ->
  (forall k payload ttl expires_in,
      net w k (token_request self_) = Returns payload ->
      py_get payload (u "expires_in") (JNum 0) = inr ttl ->
      py_int int_of_str ttl = inr expires_in ->
      expires_in <= 60) ->
  cache_valid (snd (_get_access_token repr_json int_of_str self_ w)) = false.
Proof.
  intros Hmiss Hshort.
  destruct (decide (_api_key self_ = [] \/ _secret_key self_ = [])) as [Hkey|Hkey].
  { now rewrite get_access_token_no_key by assumption. }
  destruct (get_access_token_trace repr_json int_of_str self_ w Hmiss)
    as (ext & Hext & Hres); [tauto|tauto|].
  assert (Hclock : (now w <= clock_after (now w) ext)%Q).
  { destruct Hext as [->|(excs & o & -> & _)];
      [apply Qle_refl|apply clock_after_trace]. }
  destruct (fst (_get_access_token repr_json int_of_str self_ w)) as [e|token_].
  - rewrite Hres. unfold cache_valid in *. cbn [after self now].
    apply andb_false_iff in Hmiss as [Ht|Hexp]; [now rewrite Ht|].
    apply andb_false_iff. right. unfold Qltb in *.
    apply negb_false_iff in Hexp. apply negb_false_iff.
    apply Qle_bool_iff in Hexp. apply Qle_bool_iff.
    eapply Qle_trans; [exact Hexp|exact Hclock].
  - destruct Hres as (excs & payload & ttl & expires_in & Hnet & Httl & Hint & ->).
    specialize (Hshort _ _ _ _ Hnet Httl Hint).
    unfold cache_valid. cbn [with_self after self now expires_at_epoch].
    apply andb_false_iff. right. unfold Qltb. apply negb_false_iff.
    apply Qle_bool_iff.
    replace (Z.max 0 (expires_in - 60)) with 0 by lia.
    eapply Qle_trans; [|exact Hclock].
    rewrite Qplus_0_r. apply Qle_refl.
Qed.

(** The theorem on a service that issues a token without a lifetime. *)
Lemma short_lived_token_not_reused_witness :
  fst (_get_access_token repr_stub int_stub client3
         (fresh_world net_token_no_ttl empty_cache))
  = inr (JStr (u "tok"))
  /\ cache_valid (snd (_get_access_token repr_stub int_stub client3
                         (fresh_world net_token_no_ttl empty_cache))) = false.
Proof.
  split; [vm_compute; reflexivity|].
  apply short_lived_token_not_reused; [reflexivity|].
  intros k payload ttl expires_in Hnet Httl Hint.
  injection Hnet as <-. vm_compute in Httl. injection Httl as <-.
  injection Hint as <-. lia.
Defined.

(** ** The requests of a recognition *)

Section Recognize.
Variable repr_json : json -> str.
Variable int_of_str : str -> option Z.
Variable b64encode : bytes -> str.
Variable pil_to_jpeg : bytes -> option bytes.

(** The token step sends at most [_retries] requests. *)
Lemma get_access_token_bound self_ (w : world _TokenCache) :
  exists ext c,
    snd (_get_access_token repr_json int_of_str self_ w)
    = with_self (after w ext) c
    /\ (length (posts_of ext) <= Z.to_nat (_retries self_))%nat.
Proof.
  destruct (cache_valid w) eqn:Hvalid.
  { rewrite get_access_token_hit by exact Hvalid. exists [], (self w).
    rewrite after_nil. cbn [snd posts_of flat_map length].
    split; [now destruct w|lia]. }
  destruct (decide (_api_key self_ = [] \/ _secret_key self_ = [])) as [Hkey|Hkey].
  { rewrite get_access_token_no_key by assumption. exists [], (self w).
    rewrite after_nil. cbn [snd posts_of flat_map length].
    split; [now destruct w|lia]. }
  destruct (get_access_token_trace repr_json int_of_str self_ w Hvalid)
    as (ext & Hext & Hres); [tauto|tauto|].
  assert (Hlen : (length (posts_of ext) <= Z.to_nat (_retries self_))%nat).
  { destruct Hext as [->|(excs & o & -> & _ & Hlt)]; [simpl; lia|].
    rewrite trace_posts. lia. }
  destruct (fst (_get_access_token repr_json int_of_str self_ w)) as [e|token_].
  - exists ext, (self w). rewrite Hres. split; [reflexivity|exact Hlen].
  - destruct Hres as (excs & payload & ttl & expires_in & _ & _ & _ & ->).
    eexists ext, _. split; [reflexivity|exact Hlen].
Qed.

(** The recognition loop sends at most [_retries] requests, all of them
    OCR requests. *)
Lemma recognize_with_token_bound self_ token_ image_bytes endpoint
    language_type detect (w : world _TokenCache) :
  exists ext,
    snd (recognize_with_token repr_json b64encode pil_to_jpeg self_ token_
           image_bytes endpoint language_type detect w)
    = after w ext
    /\ (length (posts_of ext) <= Z.to_nat (_retries self_))%nat
    /\ token_posts ext = [].
Proof.
  unfold recognize_with_token. rewrite bind_lift.
  destruct (endpoint_url endpoint) as [e|url] eqn:Hurl.
  { exists []. rewrite after_nil. repeat split. simpl. lia. }
  apply endpoint_url_cases in Hurl. unfold bind.
  set (req := ocr_request self_ url token_
                (b64encode (_maybe_compress_image_for_ocr pil_to_jpeg image_bytes))
                language_type detect).
  destruct (Z.to_nat (_retries self_)) as [|k] eqn:Hn.
  { exists []. cbn [retry_loop]. unfold raise. cbn [snd].
    rewrite after_nil. repeat split. simpl. lia. }
  destruct (loop_trace req (_retries self_) BaiduOcrError
              (u "OCR 请求失败（网络超时/连接）：")
              (u "OCR 失败：返回不是 JSON。")
              (u "OCR 请求失败：") k 0 None w)
    as (excs & o & Hw & Hlen & _ & _ & _); [lia|].
  exists (failed_attempts req excs 0 ++ [Post req o]).
  split.
  - destruct (retry_loop _ _ _ _ _ _ _ _ _ w) as [[e|payload] w1];
      cbn [snd] in Hw; subst w1; reflexivity.
  - rewrite trace_posts. split; [lia|].
    unfold token_posts. rewrite posts_of_app, posts_failed_attempts.
    rewrite List.filter_app. cbn [posts_of flat_map app List.filter fst].
    assert (Hurl' : req_url req <> token_url).
    { destruct Hurl as [-> | ->]; vm_compute; discriminate. }
    rewrite (bool_decide_eq_false_2 _ Hurl'). rewrite app_nil_r.
    clear -Hurl'. induction excs as [|e r IH]; [reflexivity|].
    cbn [map List.filter fst]. now rewrite (bool_decide_eq_false_2 _ Hurl').
Qed.

End Recognize.

(** X20. Whatever the network answers, one call of [recognize] sends at
    most [_retries] requests to the token URL and at most [_retries] OCR
    requests: never more than twice [_retries] requests in all. *)
Theorem recognize_request_bound repr_json int_of_str b64encode pil_to_jpeg
    self_ image_bytes endpoint language_type detect (w : world _TokenCache) :
  let result :=
    recognize repr_json int_of_str b64encode pil_to_jpeg self_ image_bytes
      endpoint language_type detect w in
  exists ext,
    log (snd result) = log w ++ ext
    /\ (length (token_posts ext) <= Z.to_nat (_retries self_))%nat
    /\ (length (posts_of ext) <= 2 * Z.to_nat (_retries self_))%nat.
Proof.
  intros result. subst result. unfold recognize.
  destruct (get_access_token_bound repr_json int_of_str self_ w)
    as (ext1 & c & Hw1 & Hlen1).
  assert (Htok : (length (token_posts ext1) <= Z.to_nat (_retries self_))%nat).
  { etransitivity; [|exact Hlen1]. unfold token_posts.
    apply List.filter_length_le. }
  unfold bind.
  destruct (_get_access_token repr_json int_of_str self_ w) as [[e|token_] w1];
    cbn [snd] in Hw1; subst w1.
  - exists ext1. cbn [snd with_self after log].
    split; [reflexivity|]. split; [exact Htok|lia].
  - destruct (recognize_with_token_bound repr_json b64encode pil_to_jpeg self_
                token_ image_bytes endpoint language_type detect
                (with_self (after w ext1) c)) as (ext2 & Hw2 & Hlen2 & Hnone).
    exists (ext1 ++ ext2). rewrite Hw2. cbn [after with_self log].
    rewrite app_assoc. split; [reflexivity|].
    unfold token_posts in *. rewrite posts_of_app, List.filter_app, length_app.
    rewrite Hnone, length_app. simpl. lia.
Qed.

(** ** Reading the OCR payload *)

Lemma py_join_strs sep l : py_join sep (map JStr l) = inr (join sep l).
Proof.
  induction l as [|s r IH]; [reflexivity|].
  cbn [map py_join join]. destruct r as [|s' r']; [reflexivity|].
  cbn [map] in *. now rewrite IH.
Qed.

Lemma collect_words_items lines : forall words,
  collect_words (map words_item lines) words
  = inr (words ++ map JStr (non_empty lines)).
Proof.
  induction lines as [|s r IH]; intros words.
  - cbn. now rewrite app_nil_r.
  - cbn [map collect_words].
    change (words_item s) with (JObj [ (u "words", JStr s) ]).
    cbn [truthy]. unfold py_get. cbn [assoc].
    rewrite bool_decide_eq_true_2 by reflexivity.
    unfold non_empty. cbn [List.filter]. fold (non_empty r).
    destruct s as [|c s'].
    + cbn [truthy]. rewrite bool_decide_eq_true_2 by reflexivity.
      cbn [negb]. apply IH.
    + cbn [truthy]. rewrite bool_decide_eq_false_2 by discriminate.
      cbn [negb map]. rewrite IH, <- app_assoc. reflexivity.
Qed.

Section Read.
Variable repr_json : json -> str.

Local Abbreviation read := (read_ocr_payload repr_json).

(** X12. The reading of an OCR reply that is an object: an [error_code]
    entry makes it a [BaiduOcrError], whatever else is there; otherwise the
    text is the lines of [words_result] that are not empty, joined by line
    feeds and stripped, and empty without [words_result]. A text that is
    returned never starts or ends with whitespace. *)
Theorem read_ocr_payload_cases :
  (forall fields v,
      assoc (u "error_code") fields = Some v ->
      read (JObj fields)
      = inl (Exc BaiduOcrError (u "OCR 失败：" ++ repr_json (JObj fields)) None))
  /\ (forall fields lines,
        assoc (u "error_code") fields = None ->
        assoc (u "words_result") fields = Some (JArr (map words_item lines)) ->
        read (JObj fields) = inr (strip (join newline (non_empty lines))))
  /\ (forall fields,
        assoc (u "error_code") fields = None ->
        assoc (u "words_result") fields = None ->
        read (JObj fields) = inr [])
  /\ (forall payload text, read payload = inr text -> strip text = text).
Proof.
  split; [|split; [|split]].
  - intros fields v Herr. unfold read_ocr_payload, py_contains.
    now rewrite Herr.
  - intros fields lines Herr Hwords.
    unfold read_ocr_payload, py_contains, py_get. rewrite Herr, Hwords.
    destruct lines as [|s r]; [reflexivity|].
    cbn [map truthy py_iter].
    change (words_item s :: map words_item r) with (map words_item (s :: r)).
    rewrite collect_words_items. cbn [app]. now rewrite py_join_strs.
  - intros fields Herr Hwords.
    unfold read_ocr_payload, py_contains, py_get. now rewrite Herr, Hwords.
  - intros payload text. unfold read_ocr_payload.
    destruct (py_contains _ payload) as [e|[]]; try discriminate.
    destruct (py_get payload _ _) as [e|words_result]; [discriminate|].
    destruct (if truthy words_result then _ else _) as [e|items];
      [discriminate|].
    destruct (collect_words items []) as [e|words]; [discriminate|].
    destruct (py_join newline words) as [e|t]; [discriminate|].
    intros [= <-]. apply strip_by_idem.
Qed.

End Read.

(** The theorem on the reply with two lines. *)
Lemma read_ocr_payload_cases_witness :
  read_ocr_payload repr_stub ocr_payload
  = inr (u "第一关" ++ newline ++ u "跳过去")
  /\ strip (u "第一关" ++ newline ++ u "跳过去")
     = u "第一关" ++ newline ++ u "跳过去".
Proof.
  destruct (read_ocr_payload_cases repr_stub) as (_ & Hlines & _ & Hstrip).
  assert (H : read_ocr_payload repr_stub ocr_payload
              = inr (u "第一关" ++ newline ++ u "跳过去")).
  { unfold ocr_payload.
    rewrite (Hlines _ [u "第一关"; u "跳过去"]); [|reflexivity|reflexivity].
    vm_compute. reflexivity. }
  split; [exact H|]. exact (Hstrip _ _ H).
Defined.

Section Compress.
Variable pil_to_jpeg : bytes -> option bytes.

(** X13. [_maybe_compress_image_for_ocr] returns its input or the JPEG
    that Pillow made of it, and the JPEG only when it is shorter and not
    empty: the result is never longer than the input, is empty only for an
    empty input, and is the input itself up to 2 000 000 bytes. *)
Theorem maybe_compress_never_grows image_bytes :
  let result := _maybe_compress_image_for_ocr pil_to_jpeg image_bytes in
  (result = image_bytes \/ pil_to_jpeg image_bytes = Some result)
  /\ (length result <= length image_bytes)%nat
  /\ (result = [] <-> image_bytes = [])
  /\ (Z.of_nat (length image_bytes) <= 2000000 -> result = image_bytes).
Proof.
  intros result. subst result.
  unfold _maybe_compress_image_for_ocr.
  destruct (Z.leb_spec (Z.of_nat (length image_bytes)) 2000000) as [Hle|Hgt].
  { repeat split; auto. }
  destruct (pil_to_jpeg image_bytes) as [jpeg_bytes|]; [|repeat split; auto; lia].
  destruct (decide (jpeg_bytes = [])) as [->|Hne].
  { rewrite bool_decide_eq_true_2 by reflexivity. cbn [negb andb].
    repeat split; auto; lia. }
  rewrite bool_decide_eq_false_2 by exact Hne. cbn [negb andb].
  destruct (Nat.ltb_spec (length jpeg_bytes) (length image_bytes)) as [Hlt|Hge].
  - split; [now right|]. split; [lia|]. split; [|lia].
    split; [congruence|]. intros ->. simpl in Hlt. lia.
  - repeat split; auto; lia.
Qed.

End Compress.

End OcrMoreFacts.

(* ===================================================================== *)
(** * Further properties of the frame extractor *)
(* ===================================================================== *)

Module VideoMoreFacts.
Import PyStr Eff PyObj Rename Video Examples VideoFacts VideoSpec.

Section Extract.
Variable image : Type.
Variable pil_open : bytes -> exception + image.
Variable decode_utf8_replace : bytes -> str.

Local Abbreviation extract :=
  (extract_frame_as_png_bytes image pil_open decode_utf8_replace).

(** The search for ffmpeg raises nothing and changes nothing. *)
Lemma find_ffmpeg_inr w : exists found, find_ffmpeg w = (inr found, w).
Proof.
  unfold find_ffmpeg, bind, _safe_which, ret.
  destruct (truthy_str (which w (u "ffmpeg"))); eauto.
Qed.

(** Without a frame number of at least 1 or without ffmpeg, the call
    raises and the machine is as it was. *)
Lemma extract_frame_no_run w video_path n :
  n < 1 \/ ffmpeg_of w = None ->
  extract video_path n w
  = (inl (Exc VideoFrameError (no_run_msg n) None), w).
Proof.
  intros H. unfold extract_frame_as_png_bytes, no_run_msg.
  destruct (Z.ltb_spec n 1) as [Hn|Hn]; [reflexivity|].
  destruct H as [H|H]; [lia|].
  unfold bind at 1. unfold ffmpeg_of in H.
  destruct (find_ffmpeg_inr w) as [found Hfound]. rewrite Hfound in *.
  cbn [fst] in H.
  destruct found as [[|c r]|]; try discriminate; reflexivity.
Qed.

(** With both, the call starts with the primary attempt, and goes on to
    the fallback exactly when that attempt exits with status 0 and no
    bytes. *)
Lemma extract_frame_run w video_path n ffmpeg :
  1 <= n -> ffmpeg_of w = Some ffmpeg ->
  let primary := run w (length (runs w)) (select_args ffmpeg video_path (n - 1)) in
  let fallback :=
    run w (S (length (runs w))) (last_frame_args ffmpeg video_path) in
  extract video_path n w
  = match primary with
    | Completed 0 [] _ =>
      (after_fallback image pil_open decode_utf8_replace video_path n fallback,
       mkWorld (which w) (run w)
         (runs w ++ [select_args ffmpeg video_path (n - 1);
                     last_frame_args ffmpeg video_path]))
    | _ =>
      (after_fallback image pil_open decode_utf8_replace video_path n primary,
       mkWorld (which w) (run w)
         (runs w ++ [select_args ffmpeg video_path (n - 1)]))
    end.
Proof.
  intros Hn Hff primary fallback. unfold extract_frame_as_png_bytes.
  replace (n <? 1) with false by (symmetry; apply Z.ltb_ge; lia).
  unfold bind at 1. unfold ffmpeg_of in Hff.
  destruct (find_ffmpeg_inr w) as [found Hfound]. rewrite Hfound in *.
  cbn [fst] in Hff.
  destruct found as [[|c r]|]; try discriminate.
  injection Hff as <-.
  unfold bind at 1. unfold run_extract at 1. unfold bind at 1.
  unfold subprocess_run at 1. fold primary.
  destruct primary as [|rc out err]; [reflexivity|].
  destruct (Z.eqb_spec rc 0) as [->|Hrc].
  - cbn [negb ret]. unfold after_fallback at 2. cbn [Z.eqb negb].
    destruct out as [|b bs].
    + unfold bind at 1. unfold bind at 1.
      unfold run_extract, bind, subprocess_run. cbn [runs which run].
      rewrite length_app. cbn [length].
      replace (length (runs w) + 1)%nat with (S (length (runs w))) by lia.
      fold fallback. rewrite <- app_assoc. cbn [app].
      unfold after_fallback, raise, ret.
      destruct fallback as [|rc out err']; [reflexivity|].
      destruct (negb (rc =? 0)); [reflexivity|].
      destruct out as [|b bs]; [reflexivity|].
      now destruct (pil_open (b :: bs)).
    + unfold bind, ret, raise. now destruct (pil_open (b :: bs)).
  - unfold after_fallback.
    replace (rc =? 0) with false by (symmetry; now apply Z.eqb_neq).
    cbn [negb]. destruct rc; try congruence; reflexivity.
Qed.



(** X15. With ffmpeg found and a frame number of at least 1, a primary
    attempt that does not exit with status 0 and no bytes settles the
    call: one process is run, and the result is the decoded output, or the
    error of that process or of the decoder. *)
Theorem extract_frame_primary_settles w video_path n ffmpeg :
  1 <= n -> ffmpeg_of w = Some ffmpeg ->
  let primary := run w (length (runs w)) (select_args ffmpeg video_path (n - 1)) in
  (forall err, primary <> Completed 0 [] err) ->
  runs (snd (extract video_path n w))
  = runs w ++ [select_args ffmpeg video_path (n - 1)]
  /\ fst (extract video_path n w)
     = after_fallback image pil_open decode_utf8_replace video_path n primary.
Proof.
  intros Hn Hff primary Hprimary.
  rewrite (extract_frame_run w video_path n ffmpeg Hn Hff). fold primary.
  destruct primary as [|rc out err]; [now split|].
  destruct rc as [|p|p]; [destruct out as [|b bs]|..]; try (now split).
  now destruct (Hprimary err).
Qed.

End Extract.

(** The theorem on the machine whose every process gives one byte. *)
Lemma extract_frame_primary_settles_witness :
  runs (snd (extract_frame_as_png_bytes unit decoder_accepts decode_stub
               (file "v.mp4") 1 machine_ok))
  = [select_args (u "/usr/bin/ffmpeg") (file "v.mp4") 0]
  /\ fst (extract_frame_as_png_bytes unit decoder_accepts decode_stub
            (file "v.mp4") 1 machine_ok)
     = inr ([137%N], tt).
Proof.
  apply (extract_frame_primary_settles unit decoder_accepts decode_stub
           machine_ok (file "v.mp4") 1 (u "/usr/bin/ffmpeg")).
  - lia.
  - reflexivity.
  - intros err. vm_compute. discriminate.
Defined.

End VideoMoreFacts.

(* ===================================================================== *)
(** * Further properties of the batch workers *)
(* ===================================================================== *)

Module WorkerFacts.
Import PyStr Eff Http PyObj Rename Config Gui Examples MoreExamples.
Import Retry RenameFacts GuiFacts VideoFacts VideoSpec VideoMoreFacts GuiSpec.

Ltac step_quiet :=
  repeat first
    [ apply preserves_bind; [apply appends_trans| |intros ?]
    | apply preserves_try; [apply appends_trans| |intros ?]
    | apply preserves_ret; apply appends_refl
    | apply preserves_lift; apply appends_refl
    | apply set_stage_appends
    | apply get_stage_appends
    | apply in_http_appends
    | apply in_video_appends
    | apply in_fs_appends
    | apply put_appends; exact I
    | match goal with |- preserves _ _ (if ?b then _ else _) => destruct b end ].

Ltac step_files :=
  repeat first
    [ apply preserves_bind; [apply keeps_trans| |intros ?]
    | apply preserves_try; [apply keeps_trans| |intros ?]
    | apply preserves_ret; apply keeps_refl
    | apply preserves_lift; apply keeps_refl
    | apply set_stage_keeps
    | apply get_stage_keeps
    | apply in_http_keeps
    | apply in_video_keeps
    | apply pick_path_keeps_files
    | apply put_keeps
    | match goal with |- preserves _ _ (if ?b then _ else _) => destruct b end ].

(** ** Renaming to a path that is free *)

Lemma pick_path_free target f :
  exists p f1, pick_path target f = (inr p, f1)
               /\ (p ∉ files f) /\ files f1 = files f.
Proof.
  unfold pick_path, pick_non_conflicting_path, exists_.
  rewrite bool_decide_eq_false_2 by discriminate. cbv beta iota.
  destruct (decide (target ∈ files f)) as [Hin|Hout].
  - rewrite bool_decide_eq_true_2 by exact Hin. cbn [negb].
    destruct (pick_loop_first_free (parent target) (stem target) (suffix target)
                (S (size (files f))) 2
                (mkFS (files f) (stat_log f ++ [target]) (rename_log f)))
      as (n & _ & Hfree & _ & Heq).
    { cbn [files]. apply some_candidate_free. lia. }
    rewrite Heq. eexists _, _.
    split; [reflexivity|]. split; [exact Hfree|reflexivity].
  - rewrite bool_decide_eq_false_2 by exact Hout. cbn [negb].
    eexists _, _. split; [reflexivity|]. split; [exact Hout|reflexivity].
Qed.

(** A rename to a path that does not exist neither adds nor loses a
    file. *)
Lemma rename_same_count old_path target f :
  target ∉ files f ->
  size (files (snd (rename old_path target f))) = size (files f).
Proof.
  intros Hfree. unfold rename.
  destruct (decide (old_path ∈ files f)) as [Hin|Hout].
  - rewrite bool_decide_eq_true_2 by exact Hin. cbn [snd files].
    assert (Hdisj : {[target]} ## files f ∖ {[old_path]}).
    { intros x Hx1 Hx2. apply elem_of_singleton in Hx1. subst x.
      apply elem_of_difference in Hx2. now destruct Hx2. }
    rewrite size_union by exact Hdisj. rewrite size_singleton.
    rewrite size_difference by set_solver. rewrite size_singleton.
    assert (Hpos : (size (files f) <> 0)%nat).
    { intros Hz. apply size_empty_iff in Hz. set_solver. }
    lia.
  - now rewrite bool_decide_eq_false_2 by exact Hout.
Qed.

Section Worker.
Variable image : Type.
Variable pil_open : bytes -> exception + image.
Variable decode_utf8_replace : bytes -> str.
Variable repr_json : json -> str.
Variable int_of_str : str -> option Z.
Variable b64encode : bytes -> str.
Variable pil_to_jpeg : bytes -> option bytes.
Variable str_format : str -> str -> option str.
Variable format_exc : exception -> str.
Variable stop_is_set : nat -> bool.

Local Abbreviation state := (Gui.state image).
Local Abbreviation event := (Gui.event image).

Local Abbreviation item :=
  (worker_item image pil_open decode_utf8_replace repr_json int_of_str
     b64encode pil_to_jpeg str_format format_exc).
Local Abbreviation loop :=
  (worker_loop image pil_open decode_utf8_replace repr_json int_of_str
     b64encode pil_to_jpeg str_format format_exc stop_is_set).
Local Abbreviation run_worker :=
  (_run_worker image pil_open decode_utf8_replace repr_json int_of_str
     b64encode pil_to_jpeg str_format format_exc stop_is_set).
Local Abbreviation rename_item := (rename_all_item image format_exc).
Local Abbreviation rename_loop := (rename_all_loop image format_exc stop_is_set).
Local Abbreviation run_rename_all := (_run_rename_all image format_exc stop_is_set).

(** ** An item ends with its progress event *)

(** A guarded body followed by a [put]: when the handler raises nothing,
    neither does the whole, and the event comes last. *)
Lemma guarded_put (body : M state unit) (handler : exception -> M state unit)
    (ev : event) (s : state) :
  preserves image (appends image (quiet image)) body ->
  (forall e, preserves image (appends image (quiet image)) (handler e)) ->
  (forall e s1, fst (handler e s1) = inr tt) ->
  exists s' evs,
    bind (try_except body handler) (fun _ => put image ev) s = (inr tt, s')
    /\ queue image s' = queue image s ++ evs ++ [ev]
    /\ Forall (quiet image) evs.
Proof.
  intros Hbody Hhandler Hok.
  assert (Htry : exists s1, try_except body handler s = (inr tt, s1)
                            /\ appends image (quiet image) s s1).
  { unfold try_except. pose proof (Hbody s) as Hb.
    destruct (body s) as [[e|[]] s1]; cbn [snd] in Hb.
    - pose proof (Hhandler e s1) as Hh. pose proof (Hok e s1) as Hr.
      destruct (handler e s1) as [r s2]. cbn [fst snd] in *. subst r.
      exists s2. split; [reflexivity|]. now apply appends_trans with s1.
    - exists s1. split; [reflexivity|exact Hb]. }
  destruct Htry as (s1 & Htry & evs & Hq & Hall).
  unfold bind. rewrite Htry. unfold put.
  eexists _, evs. split; [reflexivity|]. cbn [queue].
  rewrite Hq, <- app_assoc. split; [reflexivity|exact Hall].
Qed.

Lemma worker_item_progress cfg ocr_client offset row (s : state) :
  exists s' evs,
    item cfg ocr_client offset row s = (inr tt, s')
    /\ queue image s' = queue image s ++ evs ++ [EvProgress image (Z.of_nat offset + 1)]
    /\ Forall (quiet image) evs.
Proof.
  unfold worker_item.
  unfold bind at 1. unfold set_stage at 1. cbv beta iota.
  unfold bind at 1. unfold put at 1. cbv beta iota.
  match goal with
  | |- context [bind (try_except ?b ?h) ?k ?s0] =>
    destruct (guarded_put b h (EvProgress image (Z.of_nat offset + 1)) s0)
      as (s' & evs & Heq & Hq & Hall)
  end.
  - step_quiet.
  - intros e. step_quiet.
  - intros e s1. unfold bind, get_stage.
    destruct (is_domain_error (class_of e)); reflexivity.
  - exists s', (EvStatus image (path row) (u "读取帧…") :: evs).
    split; [exact Heq|]. rewrite Hq. cbn [queue].
    rewrite <- !app_assoc. split; [reflexivity|]. now constructor.
Qed.

Lemma rename_all_item_progress cfg start_index_ index_padding_ offset row
    (s : state) :
  exists s' evs,
    rename_item cfg start_index_ index_padding_ offset row s = (inr tt, s')
    /\ queue image s' = queue image s ++ evs ++ [EvProgress image (Z.of_nat offset + 1)]
    /\ Forall (quiet image) evs.
Proof.
  unfold rename_all_item. apply guarded_put.
  - step_quiet.
  - intros e. step_quiet.
  - intros e s1. destruct (bool_decide (class_of e = OSError)); reflexivity.
Qed.

Lemma progress_of_app (a b : list event) :
  progress_of image (a ++ b) = progress_of image a ++ progress_of image b.
Proof. apply flat_map_app. Qed.

Lemma progress_of_quiet (evs : list event) :
  Forall (quiet image) evs -> progress_of image evs = [].
Proof.
  induction 1 as [|ev l Hev Hl IH]; [reflexivity|].
  cbn [progress_of flat_map]. fold (progress_of image l). rewrite IH.
  destruct ev; try reflexivity; destruct Hev.
Qed.

Lemma quiet_not_done (evs : list event) :
  Forall (quiet image) evs -> Forall (not_done image) evs.
Proof.
  intros H. eapply Forall_impl; [exact H|]. intros [] Hev; exact Hev || exact I.
Qed.

(** A loop over items that each end with their progress event. *)
Lemma loop_progress (step : nat -> VideoRow -> M state unit)
    (run : nat -> list VideoRow -> M state unit) :
  (forall offset row s, exists s' evs,
      step offset row s = (inr tt, s')
      /\ queue image s' = queue image s ++ evs ++ [EvProgress image (Z.of_nat offset + 1)]
      /\ Forall (quiet image) evs) ->
  (forall offset, run offset [] = ret tt) ->
  (forall offset row rest,
      run offset (row :: rest)
      = if stop_is_set offset then ret tt
        else bind (step offset row) (fun _ => run (S offset) rest)) ->
  forall rows offset s, exists s' evs,
    run offset rows s = (inr tt, s')
    /\ queue image s' = queue image s ++ evs
    /\ progress_of image evs
       = map Z.of_nat (seq (S offset) (processed stop_is_set offset rows))
    /\ Forall (not_done image) evs.
Proof.
  intros Hstep Hnil Hcons rows.
  induction rows as [|row rest IH]; intros offset s.
  - rewrite Hnil. exists s, []. cbn [processed seq map].
    rewrite app_nil_r. repeat split; constructor.
  - rewrite Hcons. cbn [processed]. destruct (stop_is_set offset).
    + exists s, []. rewrite app_nil_r. repeat split; constructor.
    + destruct (Hstep offset row s) as (s1 & evs1 & Heq1 & Hq1 & Hall1).
      destruct (IH (S offset) s1) as (s2 & evs2 & Heq2 & Hq2 & Hprog & Hall2).
      exists s2, (evs1 ++ [EvProgress image (Z.of_nat offset + 1)] ++ evs2).
      unfold bind. rewrite Heq1, Heq2. split; [reflexivity|].
      rewrite Hq2, Hq1, <- !app_assoc. split; [reflexivity|]. split.
      * rewrite !progress_of_app, (progress_of_quiet _ Hall1), Hprog.
        cbn [progress_of flat_map app seq map]. f_equal. lia.
      * apply Forall_app. split; [now apply quiet_not_done|].
        apply Forall_app. split; [repeat constructor|exact Hall2].
Qed.

(** ** No file is lost *)

Lemma same_count_refl (s : state) : same_count image s s.
Proof. reflexivity. Qed.

Lemma same_count_trans (a b c : state) :
  same_count image a b -> same_count image b c -> same_count image a c.
Proof. unfold same_count. congruence. Qed.

Lemma keeps_same_count {A} (m : M state A) :
  preserves image (keeps_files image) m -> preserves image (same_count image) m.
Proof. intros H s. destruct (H s) as [Hf _]. unfold same_count. now rewrite Hf. Qed.

(** What follows the choice of the target starts in a state in which the
    target does not exist. *)
Lemma pick_then {A} target (k : Path -> M state A) :
  (forall p s, p ∉ files (fs image s) -> same_count image s (snd (k p s))) ->
  preserves image (same_count image) (bind (in_fs image (pick_path target)) k).
Proof.
  intros Hk s. unfold bind, in_fs.
  destruct (pick_path_free target (fs image s)) as (p & f1 & Heq & Hfree & Hfiles).
  rewrite Heq.
  specialize (Hk p (mkState image (http image s) (video image s) f1
                      (queue image s) (stage image s))).
  unfold same_count in *. cbn [fs] in Hk. rewrite Hfiles in Hk.
  now apply Hk.
Qed.

Ltac tail_count Hfree :=
  unfold same_count, bind, put, set_stage, in_fs, ret; cbv beta iota zeta;
  repeat match goal with
         | |- context [if ?b then _ else _] => destruct b
         end;
  cbn [fs snd]; try reflexivity;
  match goal with
  | |- context [rename ?o ?p ?f] =>
    let H := fresh in
    pose proof (rename_same_count o p f Hfree) as H;
    destruct (rename o p f) as [[?|[]] ?]; cbn [snd fs] in *; exact H
  end.

Ltac step_count :=
  repeat first
    [ apply pick_then;
      let p := fresh "p" in let s0 := fresh "s0" in let Hfree := fresh "Hfree" in
      intros p s0 Hfree; tail_count Hfree
    | apply preserves_bind; [apply same_count_trans| |intros ?]
    | apply preserves_try; [apply same_count_trans| |intros ?]
    | apply preserves_ret; apply same_count_refl
    | apply preserves_lift; apply same_count_refl
    | apply keeps_same_count;
      first [ apply set_stage_keeps | apply get_stage_keeps
            | apply in_http_keeps | apply in_video_keeps | apply put_keeps ]
    | match goal with |- preserves _ _ (if ?b then _ else _) => destruct b end ].

Lemma worker_item_same_count cfg ocr_client offset row :
  preserves image (same_count image) (item cfg ocr_client offset row).
Proof. unfold worker_item. step_count. Qed.

Lemma rename_all_item_same_count cfg start_index_ index_padding_ offset row :
  preserves image (same_count image)
    (rename_item cfg start_index_ index_padding_ offset row).
Proof. unfold rename_all_item. step_count. Qed.

Lemma run_worker_same_count cfg rows :
  preserves image (same_count image) (run_worker cfg rows).
Proof.
  unfold _run_worker.
  destruct (BaiduOcr.__init__ _ _ _ _) as [ocr_client cache].
  apply preserves_bind;
    [apply same_count_trans|apply keeps_same_count, in_http_keeps|intros _].
  apply preserves_bind;
    [apply same_count_trans| |intros _; apply keeps_same_count, put_keeps].
  generalize O. induction rows as [|row rest IH]; intros offset;
    cbn [worker_loop].
  - apply preserves_ret, same_count_refl.
  - destruct (stop_is_set offset); [apply preserves_ret, same_count_refl|].
    apply preserves_bind; [apply same_count_trans| |intros _; apply IH].
    apply worker_item_same_count.
Qed.

Lemma run_rename_all_same_count cfg rows :
  preserves image (same_count image) (run_rename_all cfg rows).
Proof.
  unfold _run_rename_all.
  apply preserves_bind;
    [apply same_count_trans| |intros _; apply keeps_same_count, put_keeps].
  generalize O. induction rows as [|row rest IH]; intros offset;
    cbn [rename_all_loop].
  - apply preserves_ret, same_count_refl.
  - destruct (stop_is_set offset); [apply preserves_ret, same_count_refl|].
    apply preserves_bind; [apply same_count_trans| |intros _; apply IH].
    apply rename_all_item_same_count.
Qed.

(** ** A dry run of the second worker *)

Lemma run_rename_all_dry_keeps cfg rows :
  dry_run cfg = true ->
  preserves image (keeps_files image) (run_rename_all cfg rows).
Proof.
  intros Hdry. unfold _run_rename_all.
  apply preserves_bind; [apply keeps_trans| |intros _; apply put_keeps].
  generalize O. induction rows as [|row rest IH]; intros offset;
    cbn [rename_all_loop].
  - apply preserves_ret, keeps_refl.
  - destruct (stop_is_set offset); [apply preserves_ret, keeps_refl|].
    apply preserves_bind; [apply keeps_trans| |intros _; apply IH].
    unfold rename_all_item. rewrite Hdry. step_files.
Qed.

(** ** Without ffmpeg *)

Lemma worker_item_no_run cfg ocr_client offset row (s : state) :
  frame_number_1based cfg < 1 \/ ffmpeg_of (video image s) = None ->
  item cfg ocr_client offset row s
  = (inr tt,
     mkState image (http image s) (video image s) (fs image s)
       (queue image s
        ++ failed_item image (no_run_msg (frame_number_1based cfg)) offset row)
       (u "读取帧")).
Proof.
  intros Hno. unfold worker_item.
  unfold bind at 1. unfold set_stage at 1. cbv beta iota.
  unfold bind at 1. unfold put at 1. cbv beta iota.
  unfold bind at 1. unfold try_except at 1.
  unfold bind at 1. unfold set_stage at 1. cbv beta iota.
  unfold bind at 1. unfold in_video at 1. cbn [video].
  rewrite (extract_frame_no_run image pil_open decode_utf8_replace
             (video image s) (path row) (frame_number_1based cfg) Hno).
  unfold bind at 1. unfold get_stage at 1. cbn [stage class_of is_domain_error].
  unfold put. cbn [queue http video fs stage str_of_exc].
  unfold failed_item. now rewrite <- !app_assoc.
Qed.

Lemma worker_loop_no_run cfg ocr_client rows : forall offset (s : state),
  frame_number_1based cfg < 1 \/ ffmpeg_of (video image s) = None ->
  exists stage_,
    loop cfg ocr_client offset rows s
    = (inr tt,
       mkState image (http image s) (video image s) (fs image s)
         (queue image s
          ++ failed_items image (no_run_msg (frame_number_1based cfg)) offset
               (take (processed stop_is_set offset rows) rows))
         stage_).
Proof.
  induction rows as [|row rest IH]; intros offset s Hno; cbn [worker_loop processed].
  - exists (stage image s). destruct s. cbn. now rewrite app_nil_r.
  - destruct (stop_is_set offset).
    + exists (stage image s). destruct s. cbn. now rewrite app_nil_r.
    + unfold bind. rewrite (worker_item_no_run _ _ _ _ _ Hno).
      destruct (IH (S offset)
                  (mkState image (http image s) (video image s) (fs image s)
                     (queue image s
                      ++ failed_item image (no_run_msg (frame_number_1based cfg))
                           offset row)
                     (u "读取帧")) Hno) as (stage_ & ->).
      exists stage_. cbn [http video fs queue take failed_items].
      now rewrite <- !app_assoc.
Qed.

End Worker.

(** X16. Neither worker raises, whatever the services, ffmpeg and the
    file system do. The events that it puts on the queue end with the one
    event of the end of the run, and its progress events count 1, 2, ...,
    k in order, k being the number of rows before the first one at which
    the stop event is found set (every row, if it never is). *)
Theorem workers_report_progress
    image pil_open decode_utf8_replace repr_json int_of_str b64encode
    pil_to_jpeg str_format format_exc stop_is_set cfg rows
    (s : Gui.state image) :
  let k := processed stop_is_set 0 rows in
  (exists s' evs,
      _run_worker image pil_open decode_utf8_replace repr_json int_of_str
        b64encode pil_to_jpeg str_format format_exc stop_is_set cfg rows s
      = (inr tt, s')
      /\ queue image s' = queue image s ++ evs ++ [EvDone image (u "处理结束。")]
      /\ progress_of image evs = map Z.of_nat (seq 1 k)
      /\ Forall (not_done image) evs)
  /\ (exists s' evs,
        _run_rename_all image format_exc stop_is_set cfg rows s = (inr tt, s')
        /\ queue image s' = queue image s ++ evs ++ [EvDone image (u "重命名结束。")]
        /\ progress_of image evs = map Z.of_nat (seq 1 k)
        /\ Forall (not_done image) evs).
Proof.
  intros k. split.
  - unfold _run_worker.
    destruct (BaiduOcr.__init__ _ _ _ _) as [ocr_client cache].
    unfold bind at 1. unfold in_http at 1, set_self at 1. cbv beta iota zeta.
    match goal with |- context [bind _ _ ?s0] => set (s1 := s0) end.
    destruct (loop_progress image stop_is_set
                (worker_item image pil_open decode_utf8_replace repr_json
                   int_of_str b64encode pil_to_jpeg str_format format_exc
                   cfg ocr_client)
                (worker_loop image pil_open decode_utf8_replace repr_json
                   int_of_str b64encode pil_to_jpeg str_format format_exc
                   stop_is_set cfg ocr_client)
                (worker_item_progress image pil_open decode_utf8_replace
                   repr_json int_of_str b64encode pil_to_jpeg str_format
                   format_exc cfg ocr_client)
                (fun _ => eq_refl) (fun _ _ _ => eq_refl) rows O s1)
      as (s2 & evs & Heq & Hq & Hprog & Hall).
    unfold bind. rewrite Heq. unfold put.
    eexists _, evs. split; [reflexivity|]. cbn [queue].
    rewrite Hq, <- app_assoc. auto.
  - unfold _run_rename_all.
    destruct (loop_progress image stop_is_set
                (rename_all_item image format_exc cfg
                   (int_or (start_index cfg) 1) (int_or (index_padding cfg) 3))
                (rename_all_loop image format_exc stop_is_set cfg
                   (int_or (start_index cfg) 1) (int_or (index_padding cfg) 3))
                (rename_all_item_progress image format_exc cfg _ _)
                (fun _ => eq_refl) (fun _ _ _ => eq_refl) rows O s)
      as (s2 & evs & Heq & Hq & Hprog & Hall).
    unfold bind. rewrite Heq. unfold put.
    eexists _, evs. split; [reflexivity|]. cbn [queue].
    rewrite Hq, <- app_assoc. auto.
Qed.

(** X17. Neither worker ever loses a file by renaming one over
    another: whatever the services answer and whatever the titles are,
    the directory holds as many files after the run as before. *)
Theorem workers_never_overwrite
    image pil_open decode_utf8_replace repr_json int_of_str b64encode
    pil_to_jpeg str_format format_exc stop_is_set cfg rows
    (s : Gui.state image) :
  size (files (fs image
         (snd (_run_worker image pil_open decode_utf8_replace repr_json
                 int_of_str b64encode pil_to_jpeg str_format format_exc
                 stop_is_set cfg rows s))))
  = size (files (fs image s))
  /\ size (files (fs image
           (snd (_run_rename_all image format_exc stop_is_set cfg rows s))))
     = size (files (fs image s)).
Proof.
  split.
  - apply (run_worker_same_count image pil_open decode_utf8_replace repr_json
             int_of_str b64encode pil_to_jpeg str_format format_exc
             stop_is_set cfg rows s).
  - apply (run_rename_all_same_count image format_exc stop_is_set cfg rows s).
Qed.

(** X18. A dry run of either worker renames nothing: the files and the
    log of renames are after the run what they were before. *)
Theorem workers_dry_run_rename_nothing
    image pil_open decode_utf8_replace repr_json int_of_str b64encode
    pil_to_jpeg str_format format_exc stop_is_set cfg rows
    (s : Gui.state image) :
  dry_run cfg = true ->
  keeps_files image s
    (snd (_run_worker image pil_open decode_utf8_replace repr_json
            int_of_str b64encode pil_to_jpeg str_format format_exc
            stop_is_set cfg rows s))
  /\ keeps_files image s
       (snd (_run_rename_all image format_exc stop_is_set cfg rows s)).
Proof.
  intros Hdry. split.
  - now apply run_worker_dry_keeps.
  - now apply run_rename_all_dry_keeps.
Qed.

(** The theorem on the batch of one video. *)
Lemma workers_dry_run_rename_nothing_witness :
  keeps_files unit batch_start (run_worker_on true)
  /\ keeps_files unit batch_start (run_rename_all_on true).
Proof.
  apply (workers_dry_run_rename_nothing unit decoder_accepts decode_stub
           repr_stub int_stub b64_stub jpeg_stub format_stub format_exc_stub
           never_stopped (config_run true) batch_rows batch_start).
  reflexivity.
Defined.

(** X19. With a frame number below 1 or without ffmpeg, [_run_worker]
    sends no request, runs no process and touches no file: each row that
    it handles gets its first status, the error of the frame stage and its
    progress event, and the run ends as usual. *)
Theorem run_worker_without_ffmpeg
    image pil_open decode_utf8_replace repr_json int_of_str b64encode
    pil_to_jpeg str_format format_exc stop_is_set cfg rows
    (s : Gui.state image) :
  frame_number_1based cfg < 1 \/ ffmpeg_of (video image s) = None ->
  let s' := snd (_run_worker image pil_open decode_utf8_replace repr_json
                   int_of_str b64encode pil_to_jpeg str_format format_exc
                   stop_is_set cfg rows s) in
  log (http image s') = log (http image s)
  /\ video image s' = video image s
  /\ fs image s' = fs image s
  /\ queue image s'
     = queue image s
       ++ failed_items image (no_run_msg (frame_number_1based cfg)) 0
            (take (processed stop_is_set 0 rows) rows)
       ++ [EvDone image (u "处理结束。")].
Proof.
  intros Hno s'.
  assert (Hrun : exists cache stage_,
            _run_worker image pil_open decode_utf8_replace repr_json
              int_of_str b64encode pil_to_jpeg str_format format_exc
              stop_is_set cfg rows s
            = (inr tt,
               mkState image (with_self (http image s) cache) (video image s)
                 (fs image s)
                 (queue image s
                  ++ failed_items image (no_run_msg (frame_number_1based cfg)) 0
                       (take (processed stop_is_set 0 rows) rows)
                  ++ [EvDone image (u "处理结束。")])
                 stage_)).
  { unfold _run_worker.
    destruct (BaiduOcr.__init__ _ _ _ _) as [ocr_client cache].
    unfold bind at 1. unfold in_http at 1, set_self at 1. cbv beta iota zeta.
    match goal with |- context [bind _ _ ?s0] => set (s1 := s0) end.
    destruct (worker_loop_no_run image pil_open decode_utf8_replace repr_json
                int_of_str b64encode pil_to_jpeg str_format format_exc
                stop_is_set cfg ocr_client rows O s1 Hno) as (stage_ & Heq).
    unfold bind. rewrite Heq. unfold put. subst s1.
    cbn [http video fs queue]. rewrite <- app_assoc.
    exists cache, stage_. reflexivity. }
  destruct Hrun as (cache & stage_ & Hrun). subst s'. rewrite Hrun.
  cbn [snd http video fs queue log with_self]. auto.
Qed.

(** The theorem on a machine without ffmpeg. *)
Lemma run_worker_without_ffmpeg_witness :
  queue unit
    (snd (_run_worker unit decoder_accepts decode_stub repr_stub int_stub
            b64_stub jpeg_stub format_stub format_exc_stub never_stopped
            (config_run false) batch_rows batch_no_ffmpeg))
  = [ EvStatus unit (file "v.mp4") (u "读取帧…");
      EvError unit (file "v.mp4")
        (u "读取帧失败：未找到 ffmpeg：请先安装 ffmpeg 并加入 PATH。");
      EvProgress unit 1;
      EvDone unit (u "处理结束。") ].
Proof.
  destruct (run_worker_without_ffmpeg unit decoder_accepts decode_stub
              repr_stub int_stub b64_stub jpeg_stub format_stub format_exc_stub
              never_stopped (config_run false) batch_rows batch_no_ffmpeg)
    as (_ & _ & _ & Hq).
  - right. reflexivity.
  - rewrite Hq. vm_compute. reflexivity.
Defined.

End WorkerFacts.

(* ===================================================================== *)
(** * Properties of loading the configuration *)
(* ===================================================================== *)

Module ConfigLoadFacts.
Import PyStr Eff Http Rename Config Examples MoreExamples ConfigFacts ConfigLoad.

(** ** Field names *)

Lemma field_of_name f : f ∈ field_names -> field_of (u f) = Some f.
Proof.
  unfold field_names. intros H.
  repeat (apply elem_of_cons in H as [->|H]; [vm_compute; reflexivity|]).
  now apply elem_of_nil in H.
Qed.

Lemma field_of_some key f : field_of key = Some f -> f ∈ field_names /\ u f = key.
Proof.
  unfold field_of. intros H. apply find_some in H as [Hin Heq].
  split; [now apply list_elem_of_In|]. now apply bool_decide_eq_true in Heq.
Qed.

Lemma field_of_other key f : f ∈ field_names -> u f <> key -> field_of key <> Some f.
Proof. intros _ Hne H. apply field_of_some in H as [_ H]. contradiction. Qed.

Lemma dom_asdict config : dom (asdict config) = list_to_set field_names.
Proof.
  unfold asdict, field_names. rewrite !dom_insert_L, dom_empty_L.
  cbn [list_to_set]. reflexivity.
Qed.

(** ** The loop over the entries *)

Lemma assoc_app key (a b : list (str * json)) :
  assoc key (a ++ b)
  = match assoc key a with Some v => Some v | None => assoc key b end.
Proof.
  induction a as [|[k v] a IH]; [reflexivity|]. cbn [app assoc].
  destruct (bool_decide (key = k)); [reflexivity|exact IH].
Qed.

Section Load.
Variable other_attr : str -> option exception.

(** Entries none of which names an attribute that cannot be set: the
    loop raises nothing, and each field ends with the value of the last
    entry that names it, or with the value it had. *)
Lemma load_items_fields items : forall config,
  (forall k v, In (k, v) items -> field_of k = None -> other_attr k = None) ->
  list_to_set field_names ⊆ dom config ->
  exists config',
    load_items other_attr items config = inr config'
    /\ dom config' = dom config
    /\ forall f, f ∈ field_names ->
         config' !! f
         = match last_value (u f) items with
           | Some v => Some v
           | None => config !! f
           end.
Proof.
  unfold last_value.
  induction items as [|[k v] rest IH]; intros config Hok Hall.
  - exists config. split; [reflexivity|]. split; [reflexivity|].
    intros f _. reflexivity.
  - assert (Hrest : forall k' v', In (k', v') rest -> field_of k' = None ->
                                  other_attr k' = None).
    { intros k' v' Hin'. apply (Hok k' v'). now right. }
    cbn [load_items]. unfold set_if_hasattr.
    destruct (field_of k) as [f0|] eqn:Hf.
    + destruct (field_of_some k f0 Hf) as [Hin0 Hu0].
      assert (Hdom0 : dom (<[f0:=v]> config) = dom config).
      { rewrite dom_insert_L. apply subseteq_union_1_L.
        apply singleton_subseteq_l, Hall. now apply elem_of_list_to_set. }
      destruct (IH (<[f0:=v]> config) Hrest) as (c' & Heq & Hdom & Hlook);
        [now rewrite Hdom0|].
      exists c'. split; [exact Heq|]. split; [now rewrite Hdom|].
      intros f Hin. rewrite (Hlook f Hin). cbn [rev]. rewrite assoc_app.
      destruct (assoc (u f) (rev rest)); [reflexivity|]. cbn [assoc].
      destruct (decide (f = f0)) as [->|Hne].
      * rewrite lookup_insert_eq.
        now rewrite bool_decide_eq_true_2 by exact Hu0.
      * rewrite lookup_insert_ne by congruence.
        rewrite bool_decide_eq_false_2; [reflexivity|].
        intros Hk. apply Hne.
        pose proof (field_of_name f Hin) as Hff. rewrite Hk, Hf in Hff.
        congruence.
    + rewrite (Hok k v (or_introl eq_refl) Hf).
      destruct (IH config Hrest Hall) as (c' & Heq & Hdom & Hlook).
      exists c'. split; [exact Heq|]. split; [exact Hdom|].
      intros f Hin. rewrite (Hlook f Hin). cbn [rev]. rewrite assoc_app.
      destruct (assoc (u f) (rev rest)); [reflexivity|]. cbn [assoc].
      rewrite bool_decide_eq_false_2; [reflexivity|].
      intros Hk. pose proof (field_of_name f Hin) as Hff.
      rewrite Hk, Hf in Hff. discriminate.
Qed.

(** Entries that all name fields, each once: the loop writes them over
    the object. *)
Lemma load_items_record (items : list (string * json)) : forall config,
  Forall (fun kv => fst kv ∈ field_names) items ->
  NoDup (items.*1) ->
  load_items other_attr (map (fun kv => (u (fst kv), snd kv)) items) config
  = inr (list_to_map items ∪ config).
Proof.
  induction items as [|[f v] rest IH]; intros config Hall Hnd.
  - cbn. now rewrite (left_id_L ∅ (∪)).
  - inversion Hall as [|? ? Hf Hrest]; subst.
    apply NoDup_cons in Hnd as [Hnotin Hnd].
    cbn [map load_items fst snd]. unfold set_if_hasattr.
    rewrite (field_of_name f Hf). rewrite (IH _ Hrest Hnd).
    f_equal. cbn [list_to_map foldr]. cbn [fst snd uncurry].
    rewrite <- insert_union_l.
    rewrite insert_union_r; [reflexivity|].
    now apply not_elem_of_list_to_map_1.
Qed.

End Load.

(** ** What [save_config] writes *)

Lemma saved_record config :
  <[ "deepseek_api_key"%string := JStr [] ]> (
  <[ "baidu_secret_key"%string := JStr [] ]> (
  <[ "baidu_api_key"%string := JStr [] ]> (asdict config)))
  = asdict (with_keys config [] [] []).
Proof.
  rewrite <- (hidden_record_independent config [] [] []).
  rewrite !insert_id; [reflexivity|..];
    unfold asdict;
    now rewrite ?lookup_insert_ne, lookup_insert_eq by discriminate.
Qed.

(** X21. A configuration survives [save_config] followed by
    [load_config]: loading the file that was just written gives back the
    attributes of the configuration that was saved, with the three
    credentials blank when [save_keys_locally] is off, whatever other
    attributes the object has. *)
Theorem save_then_load other_attr path st :
  let saved :=
    if save_keys_locally (config_obj st) then config_obj st
    else with_keys (config_obj st) [] [] [] in
  exists data,
    disk (snd (save_config path st)) !! path = Some data
    /\ data = asdict saved
    /\ load_config other_attr (Parsed (loads_of_dumps data)) = inr (asdict saved).
Proof.
  intros saved.
  assert (Hdata : disk (snd (save_config path st)) !! path = Some (asdict saved)).
  { unfold save_config, write_json. cbn [snd disk]. rewrite lookup_insert_eq.
    f_equal. subst saved.
    destruct (save_keys_locally (config_obj st)); cbn [negb];
      [reflexivity|apply saved_record]. }
  exists (asdict saved). split; [exact Hdata|]. split; [reflexivity|].
  unfold load_config, loads_of_dumps.
  rewrite load_items_record.
  - rewrite list_to_map_to_list. apply (f_equal inr).
    apply map_eq. intros k. rewrite lookup_union.
    destruct (asdict saved !! k) as [v|] eqn:Hk;
      [destruct (asdict default_config !! k); reflexivity|].
    apply not_elem_of_dom in Hk. rewrite dom_asdict in Hk.
    rewrite <- (dom_asdict default_config) in Hk.
    apply not_elem_of_dom in Hk. now rewrite Hk.
  - apply Forall_forall. intros [k v] Hin. cbn [fst].
    apply elem_of_map_to_list in Hin.
    assert (Hd : k ∈ dom (asdict saved)) by (apply elem_of_dom; eauto).
    rewrite dom_asdict in Hd. now apply elem_of_list_to_set in Hd.
  - apply NoDup_fst_map_to_list.
Qed.

(** X22. Loading a file that holds a JSON object none of whose keys
    names an attribute that cannot be set: [load_config] raises nothing,
    the object has its fields and no other attribute, and each field holds
    the value of the last entry of the file that names it, as it is, or its
    default when no entry does. Keys that name nothing are skipped. *)
Theorem load_config_fields other_attr items :
  (forall k v, In (k, v) items -> field_of k = None -> other_attr k = None) ->
  exists config,
    load_config other_attr (Parsed (JObj items)) = inr config
    /\ dom config = list_to_set field_names
    /\ forall f, f ∈ field_names ->
         config !! f
         = match last_value (u f) items with
           | Some v => Some v
           | None => asdict default_config !! f
           end.
Proof.
  intros Hok. unfold load_config.
  destruct (load_items_fields other_attr items (asdict default_config) Hok)
    as (config & Heq & Hdom & Hlook); [now rewrite dom_asdict|].
  exists config. split; [exact Heq|]. split; [|exact Hlook].
  rewrite Hdom. apply dom_asdict.
Qed.

(** The theorem on a file that gives the start index twice. *)
Lemma load_config_fields_witness :
  exists config,
    load_config no_other_attr (Parsed (JObj config_items)) = inr config
    /\ config !! "start_index"%string = Some (JStr (u "seven"))
    /\ config !! "index_padding"%string = Some (JNum 3).
Proof.
  destruct (load_config_fields no_other_attr config_items)
    as (config & Heq & _ & Hlook); [reflexivity|].
  exists config. split; [exact Heq|]. split.
  - rewrite (Hlook "start_index"%string);
      [reflexivity|repeat constructor].
  - rewrite (Hlook "index_padding"%string);
      [reflexivity|repeat constructor].
Defined.

End ConfigLoadFacts.

(* ===================================================================== *)
(** * Properties of reading the widgets *)
(* ===================================================================== *)

Module UiFacts.
Import PyStr Eff Http Rename Config Gui Examples MoreExamples.
Import StrFacts SanitizeFacts CleanTitleFacts Ui.

Lemma filter_ne_idem (d : str) (l : list str) :
  List.filter (fun x => negb (bool_decide (x = d)))
    (List.filter (fun x => negb (bool_decide (x = d))) l)
  = List.filter (fun x => negb (bool_decide (x = d))) l.
Proof.
  induction l as [|x l IH]; [reflexivity|]. cbn [List.filter].
  destruct (negb (bool_decide (x = d))) eqn:E; [|exact IH].
  cbn [List.filter]. now rewrite E, IH.
Qed.

Lemma filter_take_all (p : str -> bool) (l : list str) n :
  Forall (fun x => p x = true) l -> List.filter p (take n l) = take n l.
Proof.
  intros H. revert n. induction H as [|x l Hx Hl IH]; intros [|n];
    try reflexivity.
  cbn [take List.filter]. now rewrite Hx, IH.
Qed.

Lemma filter_all (p : str -> bool) (l : list str) :
  Forall (fun x => p x = true) (List.filter p l).
Proof.
  induction l as [|x l IH]; [constructor|]. cbn [List.filter].
  destruct (p x) eqn:E; [now constructor|exact IH].
Qed.

(** Reading the same directory again leaves the list as it is. *)
Lemma recent_with_idem d recent :
  recent_with d (recent_with d recent) = recent_with d recent.
Proof.
  unfold recent_with. destruct d as [|c d']; [reflexivity|].
  set (d := c :: d'). set (p := fun x : str => negb (bool_decide (x = d))).
  change (take 10 (d :: List.filter p recent))
    with (d :: take 9 (List.filter p recent)).
  cbn [List.filter]. unfold p at 1.
  rewrite bool_decide_eq_true_2 by reflexivity. cbn [negb]. fold p.
  rewrite filter_take_all by apply filter_all.
  change (take 10 (d :: take 9 (List.filter p recent)))
    with (d :: take 9 (take 9 (List.filter p recent))).
  now rewrite take_take.
Qed.

(** X23. [_read_ui_to_config] can be called again and again: with the
    widgets unchanged, a second call leaves the configuration object as
    the first call left it; in particular the list of recent directories
    does not grow or turn. *)
Theorem read_ui_to_config_idempotent cfg ui :
  _read_ui_to_config (_read_ui_to_config cfg ui) ui = _read_ui_to_config cfg ui.
Proof.
  unfold _read_ui_to_config. cbn [recent_dirs]. now rewrite recent_with_idem.
Qed.

(** X24. After [_read_ui_to_config] with a directory that is not blank,
    the list of recent directories starts with that directory, holds it
    only there, has at most 10 entries, and otherwise holds the earlier
    entries in their order, without a repetition if there was none; with a
    blank directory the list is as it was. *)
Theorem read_ui_to_config_recent_dirs cfg ui :
  let d := strip (_dir_var ui) in
  let recent := recent_dirs (_read_ui_to_config cfg ui) in
  (d = [] -> recent = recent_dirs cfg)
  /\ (d <> [] ->
      exists rest,
        recent = d :: rest
        /\ (d ∉ rest)
        /\ (length recent <= 10)%nat
        /\ rest `sublist_of` recent_dirs cfg
        /\ (NoDup (recent_dirs cfg) -> NoDup recent)).
Proof.
  intros d recent. subst recent. unfold _read_ui_to_config.
  cbn [recent_dirs]. fold d. unfold recent_with. split.
  - now intros ->.
  - intros Hd. destruct d as [|c d'] eqn:Ed; [congruence|]. rewrite <- Ed in *.
    set (p := fun x : str => negb (bool_decide (x = d))).
    assert (Hsub : take 9 (List.filter p (recent_dirs cfg))
                   `sublist_of` recent_dirs cfg).
    { etransitivity; [apply sublist_take|].
      clear. induction (recent_dirs cfg) as [|x l IH]; [constructor|].
      cbn [List.filter]. destruct (p x); now constructor. }
    assert (Hnot : d ∉ take 9 (List.filter p (recent_dirs cfg))).
    { intros Hin. apply elem_of_take in Hin as (i & Hin & _).
      apply list_elem_of_lookup_2, list_elem_of_In, filter_In in Hin as [_ Hp].
      unfold p in Hp. now rewrite bool_decide_eq_true_2 in Hp by reflexivity. }
    exists (take 9 (List.filter p (recent_dirs cfg))).
    split; [reflexivity|]. split; [exact Hnot|].
    split; [cbn [length]; rewrite length_take; lia|].
    split; [exact Hsub|].
    intros Hnd. apply NoDup_cons. split; [exact Hnot|].
    exact (sublist_NoDup _ _ Hnd Hsub).
Qed.

(** The theorem on the directory videos, already second in the list. *)
Lemma read_ui_to_config_recent_dirs_witness :
  exists rest,
    recent_dirs (_read_ui_to_config config_recent ui_videos) = u "videos" :: rest
    /\ (u "videos" ∉ rest)
    /\ (length (recent_dirs (_read_ui_to_config config_recent ui_videos)) <= 10)%nat
    /\ rest `sublist_of` recent_dirs config_recent
    /\ (NoDup (recent_dirs config_recent)
        -> NoDup (recent_dirs (_read_ui_to_config config_recent ui_videos))).
Proof.
  apply (proj2 (read_ui_to_config_recent_dirs config_recent ui_videos)).
  vm_compute. discriminate.
Defined.

End UiFacts.
